(** * Room lifecycle coordinator of the ephemeral chat server (server.js)

    A shallow embedding of [server.js]: the room store, the used-code set,
    the session ledger, the code allocator, the expiry sweep and the socket
    handlers, followed by the properties of the specification.

    Conventions of the embedding.
    - JS strings are Rocq strings, read as sequences of code units below 256.
    - [Date.now()] is an input of the handler run: the event carries a clock
      whose [k]-th reading is what the [k]-th call of [Date.now()] of that
      run returns; the sweep reads the clock once.
    - [Math.random()] is an oracle [rnd : nat -> N] read through a cursor kept
      in the state; [Math.floor(Math.random() * m)] is the next draw reduced
      into the range [0, m) the expression can take.
    - A thrown [TypeError] is the outcome [Throw]; nothing in server.js
      catches it, so it leaves the handler, and a run ends at the first
      throw: what the handler did before it threw is not recorded.
    - socket.io is modelled by its documented behaviour: a broadcast group per
      room code ([socket.join], [socket.leave], [io.to(c).emit],
      [socket.to(c).emit]), a closed connection leaves every group before its
      ['disconnect'] handler runs and receives no further events. *)

From Stdlib Require Import List String Ascii ZArith NArith Bool Arith Lia.
From Stdlib Require Import DecimalString.
Import ListNotations.
Local Open Scope string_scope.
Local Open Scope list_scope.
Local Open Scope nat_scope.
Set Warnings "-register-all".

Infix "+++" := String.append (right associativity, at level 60).

(* ------------------------------------------------------------------ *)
(** ** Outcomes of running JS code *)

Inductive outcome (A : Type) : Type :=
| Done (a : A)
| Throw (e : string)
| OutOfFuel.
Arguments Done {A} a.
Arguments Throw {A} e.
Arguments OutOfFuel {A}.

Definition bind {A B : Type} (m : outcome A) (k : A -> outcome B) : outcome B :=
  match m with
  | Done a => k a
  | Throw e => Throw e
  | OutOfFuel => OutOfFuel
  end.

Notation "x <- m ;; k" := (bind m (fun x => k))
  (at level 61, m at next level, right associativity).
Notation "m ;;; k" := (bind m (fun _ => k))
  (at level 61, right associativity).

(* ------------------------------------------------------------------ *)
(** ** JS values carried by event payloads *)

Module JS.

(** The values a payload is made of: what [JSON.parse] yields, that is
    null, booleans, numbers, strings, arrays and objects, and [undefined] for
    a payload or a field that is not there.  A number is an integer here,
    one of the JSON numbers without fraction or exponent that print in plain
    decimal; an object is the list of its own properties. *)
Inductive value : Type :=
| Undefined
| Null
| Boolean (b : bool)
| Num (n : Z)
| Str (s : string)
| Arr (items : list value)
| Obj (fields : list (string * value)).

Definition typeError : string := "TypeError".

Fixpoint lookup_field (f : string) (fields : list (string * value)) : value :=
  match fields with
  | [] => Undefined
  | (k, v) :: rest => if String.eqb k f then v else lookup_field f rest
  end.

Definition has_field (f : string) (fields : list (string * value)) : bool :=
  existsb (fun kv => String.eqb (fst kv) f) fields.

(** [data.f], and each name of a destructuring [const { f } = data]:
    reading a property of [undefined] or [null] throws.  The handlers read
    [code], [username], [message] and [isTyping] only, which no boolean,
    number, string or array has, nor [Object.prototype]. *)
Definition get (data : value) (f : string) : outcome value :=
  match data with
  | Undefined | Null => Throw typeError
  | Obj fields => Done (lookup_field f fields)
  | Boolean _ | Num _ | Str _ | Arr _ => Done Undefined
  end.

(** Truthiness, as used by [||], [!] and [if]. *)
Definition truthy (v : value) : bool :=
  match v with
  | Undefined | Null => false
  | Boolean b => b
  | Num n => negb (Z.eqb n 0)
  | Str s => negb (String.eqb s "")
  | Arr _ | Obj _ => true
  end.

(** [a || b] *)
Definition or (a b : value) : value := if truthy a then a else b.

(** Decimal [Number.prototype.toString] of a natural number. *)
Definition dec (n : N) : string := NilEmpty.string_of_uint (N.to_uint n).

(** Decimal [Number.prototype.toString] of an integer. *)
Definition dec_int (n : Z) : string :=
  match n with
  | Z0 => "0"
  | Zpos p => dec (Npos p)
  | Zneg p => "-" +++ dec (Npos p)
  end.

(** [Array.prototype.join] with the separator [","], given the conversion
    of one element: the elements are converted left to right. *)
Definition join (conv : value -> outcome string)
  : list value -> outcome string :=
  fix go (l : list value) : outcome string :=
    match l with
    | [] => Done ""
    | x :: rest =>
        s <- conv x ;;
        match rest with
        | [] => Done s
        | _ :: _ => t <- go rest ;; Done (s +++ "," +++ t)
        end
    end.

(** ToString, as applied by template literals and by [RegExp.test].  An
    array answers with [Array.prototype.toString], the join of its elements,
    in which [undefined] and [null] count as the empty text.  A parsed JSON
    object has no callable own [toString]: when it carries an own [toString]
    field the conversion throws, otherwise [Object.prototype.toString]
    answers. *)
Fixpoint to_string (v : value) : outcome string :=
  match v with
  | Undefined => Done "undefined"
  | Null => Done "null"
  | Boolean true => Done "true"
  | Boolean false => Done "false"
  | Num n => Done (dec_int n)
  | Str s => Done s
  | Arr items =>
      join (fun x => match x with
                     | Undefined | Null => Done ""
                     | _ => to_string x
                     end) items
  | Obj fields =>
      if has_field "toString" fields then Throw typeError
      else Done "[object Object]"
  end.

(** A template literal: the pieces are converted left to right. *)
Fixpoint template (pieces : list value) : outcome string :=
  match pieces with
  | [] => Done ""
  | p :: rest =>
      s <- to_string p ;;
      t <- template rest ;;
      Done (s +++ t)
  end.

(** [console.log] of a template literal: only its faults are observable. *)
Definition log (pieces : list value) : outcome unit :=
  template pieces ;;; Done tt.

(** [s.padStart(n, c)] for a one-character pad. *)
Definition padStart (n : nat) (c : ascii) (s : string) : string :=
  string_of_list_ascii (repeat c (n - String.length s)) +++ s.

Definition is_digit (c : ascii) : bool :=
  let n := nat_of_ascii c in (48 <=? n) && (n <=? 57).

(** [/^\d{4}$/.test(s)] *)
Definition test_4digits (s : string) : bool :=
  match list_ascii_of_string s with
  | [a; b; c; d] => is_digit a && is_digit b && is_digit c && is_digit d
  | _ => false
  end.

(** White space and line terminators among the code units below 256. *)
Definition is_space (c : ascii) : bool :=
  let n := nat_of_ascii c in
  ((9 <=? n) && (n <=? 13)) || (n =? 32) || (n =? 160).

Fixpoint trimStart_list (l : list ascii) : list ascii :=
  match l with
  | c :: rest => if is_space c then trimStart_list rest else l
  | [] => []
  end.

(** [s.trim()] *)
Definition trim (s : string) : string :=
  string_of_list_ascii
    (rev (trimStart_list (rev (trimStart_list (list_ascii_of_string s))))).

(** [Math.floor(Math.random() * m)] on the draw [d]. *)
Definition floor_random (m : N) (d : N) : N := (d mod m)%N.

End JS.

(* ------------------------------------------------------------------ *)
(** ** Data model *)

Record User : Type := mkUser {
  socketId : string;
  username : JS.value;
  joinedAt : Z
}.

(** [id] is [Date.now() + Math.random()]: kept as its two summands. *)
Record Message : Type := mkMessage {
  msg_id : Z * N;
  msg_username : JS.value;
  msg_message : string;
  msg_timestamp : Z;
  msg_socketId : string
}.

Record Room : Type := mkRoom {
  users : list User;
  messages : list Message;
  createdAt : Z;
  expiresAt : Z;
  lastActivity : Z;
  inVoiceChat : option bool
}.

Definition ROOM_EXPIRY_TIME : Z := 10 * 60 * 1000.
Definition maxAttempts : nat := 100.

(** The clock of one handler run: [reading now k] is what the call number
    [k] of [Date.now()] in that run returns, counted from 0. *)
Record Clock : Type := mkClock { reading : nat -> Z }.

(** The clock that shows the same time at every reading of a run. *)
Definition steady (t : Z) : Clock := mkClock (fun _ => t).
Coercion steady : Z >-> Clock.
Bind Scope Z_scope with Clock.

(** A clock that never goes back during the run. *)
Definition monotone (now : Clock) : Prop :=
  forall i j, i <= j -> (reading now i <= reading now j)%Z.

(** Events sent to clients. *)
Inductive OutEvent : Type :=
| EError (message : string)
| ERoomFull
| EJoinedRoom (code : string) (name : JS.value) (userCount : nat)
              (history : list Message)
| EUserJoined (name : JS.value) (userCount : nat)
| ENewMessage (m : Message)
| EUserTyping (name isTyping : JS.value)
| EUserLeft (name : JS.value) (userCount : nat)
| ELeftRoom
| ERoomExpired
| EVoiceChatOffer (data : JS.value)
| EVoiceChatAnswer (data : JS.value)
| EIceCandidate (data : JS.value)
| EVoiceChatStarted
| EVoiceChatEnded.

Inductive Output : Type :=
| Deliver (sid : string) (ev : OutEvent)
| HttpJson (code : string).

Definition msgInvalidCode : string :=
  "Invalid code. Please enter exactly 4 digits.".
Definition msgRoomNotFound : string :=
  "Room not found. Please check the code or create a new room.".
Definition msgAlreadyInRoom : string := "You are already in this room.".
Definition msgRejoinForbidden : string :=
  "You cannot rejoin a room you have left. Please create a new room or use a different code.".
Definition msgNotInRoom : string := "You are not in a valid room.".
Definition msgUserNotFound : string := "User not found in room.".

(** The process state: the module-level [rooms], [usedCodes], [userSessions]
    and [usernameSessions] of server.js, the [roomCode] property of every
    socket, the socket.io groups, the closed connections and the cursor of
    the random oracle. *)
Record World : Type := mkWorld {
  rooms : list (string * Room);
  usedCodes : list string;
  userSessions : list string;
  usernameSessions : list string;
  roomCodes : list (string * string);
  joined : list (string * string);
  closed : list string;
  cursor : nat
}.

Definition init : World := mkWorld [] [] [] [] [] [] [] 0.

(* ------------------------------------------------------------------ *)
(** ** Field updates *)

Definition set_users (v : list User) (r : Room) : Room :=
  mkRoom v (messages r) (createdAt r) (expiresAt r) (lastActivity r) (inVoiceChat r).
Definition set_messages (v : list Message) (r : Room) : Room :=
  mkRoom (users r) v (createdAt r) (expiresAt r) (lastActivity r) (inVoiceChat r).
Definition set_expiresAt (v : Z) (r : Room) : Room :=
  mkRoom (users r) (messages r) (createdAt r) v (lastActivity r) (inVoiceChat r).
Definition set_lastActivity (v : Z) (r : Room) : Room :=
  mkRoom (users r) (messages r) (createdAt r) (expiresAt r) v (inVoiceChat r).
Definition set_inVoiceChat (v : bool) (r : Room) : Room :=
  mkRoom (users r) (messages r) (createdAt r) (expiresAt r) (lastActivity r) (Some v).

Definition set_rooms (v : list (string * Room)) (w : World) : World :=
  mkWorld v (usedCodes w) (userSessions w) (usernameSessions w)
          (roomCodes w) (joined w) (closed w) (cursor w).
Definition set_usedCodes (v : list string) (w : World) : World :=
  mkWorld (rooms w) v (userSessions w) (usernameSessions w)
          (roomCodes w) (joined w) (closed w) (cursor w).
Definition set_userSessions (v : list string) (w : World) : World :=
  mkWorld (rooms w) (usedCodes w) v (usernameSessions w)
          (roomCodes w) (joined w) (closed w) (cursor w).
Definition set_usernameSessions (v : list string) (w : World) : World :=
  mkWorld (rooms w) (usedCodes w) (userSessions w) v
          (roomCodes w) (joined w) (closed w) (cursor w).
Definition set_roomCodes (v : list (string * string)) (w : World) : World :=
  mkWorld (rooms w) (usedCodes w) (userSessions w) (usernameSessions w)
          v (joined w) (closed w) (cursor w).
Definition set_joined (v : list (string * string)) (w : World) : World :=
  mkWorld (rooms w) (usedCodes w) (userSessions w) (usernameSessions w)
          (roomCodes w) v (closed w) (cursor w).
Definition set_closed (v : list string) (w : World) : World :=
  mkWorld (rooms w) (usedCodes w) (userSessions w) (usernameSessions w)
          (roomCodes w) (joined w) v (cursor w).
Definition set_cursor (v : nat) (w : World) : World :=
  mkWorld (rooms w) (usedCodes w) (userSessions w) (usernameSessions w)
          (roomCodes w) (joined w) (closed w) v.

(* ------------------------------------------------------------------ *)
(** ** Maps and sets keyed by strings, in insertion order *)

Fixpoint assoc_get {A : Type} (k : string) (m : list (string * A)) : option A :=
  match m with
  | [] => None
  | (k', v) :: rest => if String.eqb k' k then Some v else assoc_get k rest
  end.

Definition assoc_has {A : Type} (k : string) (m : list (string * A)) : bool :=
  match assoc_get k m with Some _ => true | None => false end.

(** [Map.prototype.set]: an existing key keeps its place. *)
Fixpoint assoc_set {A : Type} (k : string) (v : A) (m : list (string * A))
  : list (string * A) :=
  match m with
  | [] => [(k, v)]
  | (k', v') :: rest =>
      if String.eqb k' k then (k, v) :: rest else (k', v') :: assoc_set k v rest
  end.

Definition assoc_delete {A : Type} (k : string) (m : list (string * A))
  : list (string * A) :=
  filter (fun kv => negb (String.eqb (fst kv) k)) m.

Definition set_has (k : string) (s : list string) : bool :=
  existsb (String.eqb k) s.

Definition set_add (k : string) (s : list string) : list string :=
  if set_has k s then s else s ++ [k].

Definition set_delete (k : string) (s : list string) : list string :=
  filter (fun x => negb (String.eqb x k)) s.

(** [Array.prototype.findIndex] and [splice(i, 1)]. *)
Fixpoint findIndex {A : Type} (p : A -> bool) (l : list A) : option nat :=
  match l with
  | [] => None
  | x :: rest =>
      if p x then Some 0
      else match findIndex p rest with Some i => Some (S i) | None => None end
  end.

Fixpoint splice1 {A : Type} (i : nat) (l : list A) : list A :=
  match l, i with
  | [], _ => []
  | _ :: rest, O => rest
  | x :: rest, S i' => x :: splice1 i' rest
  end.

Definition is_socket (sid : string) (u : User) : bool :=
  String.eqb (socketId u) sid.

(* ------------------------------------------------------------------ *)
(** ** socket.io groups *)

Definition same_pair (sid c : string) (p : string * string) : bool :=
  String.eqb (fst p) sid && String.eqb (snd p) c.

Definition socket_join (sid c : string) (j : list (string * string))
  : list (string * string) :=
  if existsb (same_pair sid c) j then j else j ++ [(sid, c)].

Definition socket_leave (sid c : string) (j : list (string * string))
  : list (string * string) :=
  filter (fun p => negb (same_pair sid c p)) j.

Definition leave_all (sid : string) (j : list (string * string))
  : list (string * string) :=
  filter (fun p => negb (String.eqb (fst p) sid)) j.

Definition group (c : string) (w : World) : list string :=
  map fst (filter (fun p => String.eqb (snd p) c) (joined w)).

(** [io.to(c).emit(ev)] *)
Definition io_to (c : string) (ev : OutEvent) (w : World) : list Output :=
  map (fun r => Deliver r ev) (group c w).

(** [socket.to(c).emit(ev)]: everyone in the group but the socket itself. *)
Definition socket_to (sid c : string) (ev : OutEvent) (w : World) : list Output :=
  map (fun r => Deliver r ev)
      (filter (fun r => negb (String.eqb r sid)) (group c w)).

(** The transport's part of a disconnection. *)
Definition close_socket (sid : string) (w : World) : World :=
  set_closed (sid :: closed w) (set_joined (leave_all sid (joined w)) w).

(** [roomCode && rooms.has(roomCode)] followed by [rooms.get(roomCode)]. *)
Definition active_tag (sid : string) (w : World) : option (string * Room) :=
  match assoc_get sid (roomCodes w) with
  | Some roomCode =>
      if String.eqb roomCode "" then None
      else match assoc_get roomCode (rooms w) with
           | Some room => Some (roomCode, room)
           | None => None
           end
  | None => None
  end.

(* ------------------------------------------------------------------ *)
(** ** The server *)

Inductive Action : Type :=
| AJoinRoom (data : JS.value)
| ACreateRoom (data : JS.value)
| ASendMessage (data : JS.value)
| ATyping (data : JS.value)
| ADisconnect
| ALeaveRoom
| AVoiceChatOffer (data : JS.value)
| AVoiceChatAnswer (data : JS.value)
| AIceCandidate (data : JS.value)
| AStartVoiceChat
| AEndVoiceChat.

Inductive Event : Type :=
| FromSocket (sid : string) (now : Clock) (a : Action)
| Tick (now : Z)
| GetGenerateRoomCode.

Section Server.

(** The random oracle, and the bound on the iterations of the fallback loop
    of the allocator, the only unbounded loop of the program. *)
Variable rnd : nat -> N.
Variable fuel : nat.

(** [Math.random()] *)
Definition random (w : World) : N * World :=
  (rnd (cursor w), set_cursor (S (cursor w)) w).

(** [Math.floor(Math.random() * 10000).toString().padStart(4, '0')] *)
Definition sample_code (w : World) : string * World :=
  let (d, w') := random w in
  (JS.padStart 4 "0" (JS.dec (JS.floor_random 10000 d)), w').

(** The [do ... while (usedCodes.has(code) && attempts < maxAttempts)] loop;
    [n] bounds the iterations left and is started at [maxAttempts]. *)
Fixpoint attempt_loop (n attempts : nat) (w : World) : string * nat * World :=
  let (code, w1) := sample_code w in
  let attempts' := S attempts in
  match n with
  | S n' =>
      if set_has code (usedCodes w1) && (attempts' <? maxAttempts)
      then attempt_loop n' attempts' w1
      else (code, attempts', w1)
  | O => (code, attempts', w1)
  end.

(** The [do ... while (rooms.has(fallbackCode))] loop. *)
Fixpoint fallback_loop (k : nat) (w : World) : outcome (string * World) :=
  match k with
  | O => OutOfFuel
  | S k' =>
      let (fallbackCode, w1) := sample_code w in
      if assoc_has fallbackCode (rooms w1) then fallback_loop k' w1
      else Done (fallbackCode, w1)
  end.

Definition generateUniqueRoomCode (w : World) : outcome (string * World) :=
  let '(code, attempts, w1) := attempt_loop maxAttempts 0 w in
  cw <- (if maxAttempts <=? attempts then fallback_loop fuel w1
         else Done (code, w1)) ;;
  let (code', w2) := cw in
  Done (code', set_usedCodes (set_add code' (usedCodes w2)) w2).

(** [username || `User${Math.floor(Math.random() * 1000)}`] *)
Definition assign_name (name : JS.value) (w : World) : JS.value * World :=
  if JS.truthy name then (name, w)
  else let (d, w') := random w in
       (JS.Str ("User" +++ JS.dec (JS.floor_random 1000 d)), w').

Definition reply (sid : string) (ev : OutEvent) (w : World)
  : outcome (World * list Output) :=
  Done (w, [Deliver sid ev]).

(** [room.users.push(user); room.lastActivity = Date.now();
    room.expiresAt = Date.now() + ROOM_EXPIRY_TIME], the two readings being
    [active] and [reset]. *)
Definition push_user (user : User) (active reset : Z) (room : Room) : Room :=
  set_expiresAt (reset + ROOM_EXPIRY_TIME)%Z
    (set_lastActivity active (set_users (users room ++ [user]) room)).

(** [socket.join(code); socket.roomCode = code] *)
Definition enter (sid code : string) (w : World) : World :=
  set_roomCodes (assoc_set sid code (roomCodes w))
    (set_joined (socket_join sid code (joined w)) w).

Definition joinRoom (sid : string) (now : Clock) (data : JS.value) (w : World)
  : outcome (World * list Output) :=
  code <- JS.get data "code" ;;
  name <- JS.get data "username" ;;
  codeText <- JS.to_string code ;;
  if negb (JS.test_4digits codeText) then reply sid (EError msgInvalidCode) w
  else
    match code with
    | JS.Str c =>
        match assoc_get c (rooms w) with
        | None => reply sid (EError msgRoomNotFound) w
        | Some room =>
            if 2 <=? List.length (users room) then reply sid ERoomFull w
            else
              match find (is_socket sid) (users room) with
              | Some _ => reply sid (EError msgAlreadyInRoom) w
              | None =>
                  userSessionKey <-
                    JS.template [JS.Str sid; JS.Str "-"; code] ;;
                  usernameSessionKey <-
                    JS.template [JS.or name (JS.Str "anonymous");
                                 JS.Str "-"; code] ;;
                  if set_has userSessionKey (userSessions w)
                     || set_has usernameSessionKey (usernameSessions w)
                  then reply sid (EError msgRejoinForbidden) w
                  else
                    let (assigned, w1) := assign_name name w in
                    let room' :=
                      push_user (mkUser sid assigned (reading now 0))
                                (reading now 1) (reading now 2) room in
                    let w2 := set_rooms (assoc_set c room' (rooms w1)) w1 in
                    let w3 := enter sid c w2 in
                    let count := List.length (users room') in
                    JS.log [JS.Str "User "; assigned;
                            JS.Str " joined room "; code] ;;;
                    Done (w3,
                          Deliver sid
                            (EJoinedRoom c assigned count (messages room'))
                          :: socket_to sid c (EUserJoined assigned count) w3)
              end
        end
    | _ => reply sid (EError msgRoomNotFound) w
    end.

Definition createRoom (sid : string) (now : Clock) (data : JS.value) (w : World)
  : outcome (World * list Output) :=
  name <- JS.get data "username" ;;
  cw <- generateUniqueRoomCode w ;;
  let (code, w1) := cw in
  let room :=
    mkRoom [] [] (reading now 0) (reading now 1 + ROOM_EXPIRY_TIME)%Z
           (reading now 2) None in
  let w2 := set_rooms (assoc_set code room (rooms w1)) w1 in
  JS.log [JS.Str "Room "; JS.Str code; JS.Str " created"] ;;;
  let (assigned, w3) := assign_name name w2 in
  let room' :=
    push_user (mkUser sid assigned (reading now 3))
              (reading now 4) (reading now 5) room in
  let w4 := set_rooms (assoc_set code room' (rooms w3)) w3 in
  let w5 := enter sid code w4 in
  let out :=
    [Deliver sid
       (EJoinedRoom code assigned (List.length (users room')) (messages room'))] in
  JS.log [JS.Str "User "; assigned;
          JS.Str " created and joined room "; JS.Str code] ;;;
  Done (w5, out).

(** [message.trim()] *)
Definition trim_value (message : JS.value) : outcome string :=
  match message with
  | JS.Str s => Done (JS.trim s)
  | _ => Throw JS.typeError
  end.

Definition sendMessage (sid : string) (now : Clock) (data : JS.value) (w : World)
  : outcome (World * list Output) :=
  message <- JS.get data "message" ;;
  match active_tag sid w with
  | None => reply sid (EError msgNotInRoom) w
  | Some (roomCode, room) =>
      match find (is_socket sid) (users room) with
      | None => reply sid (EError msgUserNotFound) w
      | Some user =>
          let (d, w1) := random w in
          text <- trim_value message ;;
          let messageObj :=
            mkMessage (reading now 0, d) (username user) text (reading now 1)
                      sid in
          let room' :=
            set_expiresAt (reading now 3 + ROOM_EXPIRY_TIME)%Z
              (set_lastActivity (reading now 2)
                 (set_messages (messages room ++ [messageObj]) room)) in
          let w2 := set_rooms (assoc_set roomCode room' (rooms w1)) w1 in
          JS.log [JS.Str "Message sent in room "; JS.Str roomCode;
                  JS.Str ": "; message] ;;;
          Done (w2, io_to roomCode (ENewMessage messageObj) w2)
      end
  end.

Definition typing (sid : string) (data : JS.value) (w : World)
  : outcome (World * list Output) :=
  match assoc_get sid (roomCodes w) with
  | Some roomCode =>
      if String.eqb roomCode "" then Done (w, [])
      else
        name <- JS.get data "username" ;;
        isTyping <- JS.get data "isTyping" ;;
        Done (w, socket_to sid roomCode (EUserTyping name isTyping) w)
  | None => Done (w, [])
  end.

(** The part the two departure handlers share line for line: the ledger
    entries, given the room after [splice]. *)
Definition record_left (sid roomCode : string) (user : User) (w : World)
  : outcome World :=
  userSessionKey <- JS.template [JS.Str sid; JS.Str "-"; JS.Str roomCode] ;;
  usernameSessionKey <-
    JS.template [username user; JS.Str "-"; JS.Str roomCode] ;;
  Done (set_usernameSessions
          (set_add usernameSessionKey (usernameSessions w))
          (set_userSessions (set_add userSessionKey (userSessions w)) w)).

(** [if (room.users.length === 0) { room.messages = []; rooms.delete(..);
    usedCodes.delete(..) }] *)
Definition cleanup_if_empty (roomCode : string) (room : Room) (w : World)
  : outcome World :=
  if List.length (users room) =? 0 then
    let w1 :=
      set_rooms (assoc_set roomCode (set_messages [] room) (rooms w)) w in
    let w2 := set_rooms (assoc_delete roomCode (rooms w1)) w1 in
    let w3 := set_usedCodes (set_delete roomCode (usedCodes w2)) w2 in
    JS.log [JS.Str "Empty room "; JS.Str roomCode; JS.Str " cleaned up"] ;;;
    Done w3
  else Done w.

Definition disconnect (sid : string) (w : World)
  : outcome (World * list Output) :=
  match active_tag sid w with
  | None => Done (w, [])
  | Some (roomCode, room) =>
      match findIndex (is_socket sid) (users room) with
      | None => Done (w, [])
      | Some userIndex =>
          match nth_error (users room) userIndex with
          | None => Throw JS.typeError
          | Some user =>
              let room' := set_users (splice1 userIndex (users room)) room in
              let w1 := set_rooms (assoc_set roomCode room' (rooms w)) w in
              w2 <- record_left sid roomCode user w1 ;;
              let out :=
                socket_to sid roomCode
                  (EUserLeft (username user) (List.length (users room'))) w2 in
              JS.log [JS.Str "User "; username user;
                      JS.Str " left room "; JS.Str roomCode] ;;;
              w3 <- cleanup_if_empty roomCode room' w2 ;;
              Done (w3, out)
          end
      end
  end.

Definition leaveRoom (sid : string) (w : World)
  : outcome (World * list Output) :=
  match active_tag sid w with
  | None => Done (w, [])
  | Some (roomCode, room) =>
      match findIndex (is_socket sid) (users room) with
      | None => Done (w, [])
      | Some userIndex =>
          match nth_error (users room) userIndex with
          | None => Throw JS.typeError
          | Some user =>
              let room' := set_users (splice1 userIndex (users room)) room in
              let w1 := set_rooms (assoc_set roomCode room' (rooms w)) w in
              let w1' :=
                set_roomCodes (assoc_delete sid (roomCodes w1))
                  (set_joined (socket_leave sid roomCode (joined w1)) w1) in
              w2 <- record_left sid roomCode user w1' ;;
              let out :=
                socket_to sid roomCode
                  (EUserLeft (username user) (List.length (users room'))) w2
                ++ [Deliver sid ELeftRoom] in
              w3 <- cleanup_if_empty roomCode room' w2 ;;
              Done (w3, out)
          end
      end
  end.

(** [voiceChatOffer], [voiceChatAnswer], [iceCandidate] *)
Definition relay (sid : string) (ev : OutEvent) (w : World)
  : outcome (World * list Output) :=
  match active_tag sid w with
  | Some (roomCode, _) => Done (w, socket_to sid roomCode ev w)
  | None => Done (w, [])
  end.

(** [startVoiceChat], [endVoiceChat] *)
Definition voiceChat (sid : string) (active : bool) (ev : OutEvent) (w : World)
  : outcome (World * list Output) :=
  match active_tag sid w with
  | Some (roomCode, room) =>
      let w1 :=
        set_rooms (assoc_set roomCode (set_inVoiceChat active room) (rooms w))
                  w in
      Done (w1, socket_to sid roomCode ev w1)
  | None => Done (w, [])
  end.

(** One turn of the [for ... of rooms.entries()] loop of the sweep. *)
Definition sweep_entry (now : Z) (acc : World * list Output)
           (entry : string * Room) : World * list Output :=
  let (w, out) := acc in
  let (code, room) := entry in
  if (now >? expiresAt room)%Z then
    let w1 := set_rooms (assoc_delete code (rooms w)) w in
    (set_usedCodes (set_delete code (usedCodes w1)) w1,
     out ++ io_to code ERoomExpired w)
  else acc.

Definition sweep (now : Z) (w : World) : World * list Output :=
  fold_left (sweep_entry now) (rooms w) (w, []).

Definition handle (sid : string) (now : Clock) (a : Action) (w : World)
  : outcome (World * list Output) :=
  match a with
  | AJoinRoom data => joinRoom sid now data w
  | ACreateRoom data => createRoom sid now data w
  | ASendMessage data => sendMessage sid now data w
  | ATyping data => typing sid data w
  | ADisconnect => disconnect sid (close_socket sid w)
  | ALeaveRoom => leaveRoom sid w
  | AVoiceChatOffer data => relay sid (EVoiceChatOffer data) w
  | AVoiceChatAnswer data => relay sid (EVoiceChatAnswer data) w
  | AIceCandidate data => relay sid (EIceCandidate data) w
  | AStartVoiceChat => voiceChat sid true EVoiceChatStarted w
  | AEndVoiceChat => voiceChat sid false EVoiceChatEnded w
  end.

(** One unit of work of the event loop.  A closed connection raises no
    further events. *)
Definition step (w : World) (e : Event) : outcome (World * list Output) :=
  match e with
  | FromSocket sid now a =>
      if set_has sid (closed w) then Done (w, []) else handle sid now a w
  | Tick now => Done (sweep now w)
  | GetGenerateRoomCode =>
      cw <- generateUniqueRoomCode w ;;
      Done (snd cw, [HttpJson (fst cw)])
  end.

(** A run of the event loop, outputs in order. *)
Fixpoint run (w : World) (es : list Event) : outcome (World * list Output) :=
  match es with
  | [] => Done (w, [])
  | e :: rest =>
      r <- step w e ;;
      r' <- run (fst r) rest ;;
      Done (fst r', snd r ++ snd r')
  end.

End Server.

(* ------------------------------------------------------------------ *)
(** ** Proof tactics *)

(** Case analysis on the first [bind], [match] or [if] of an outcome. *)
Ltac break_outcome H :=
  match type of H with
  | bind ?m _ = _ =>
      let E := fresh "E" in
      destruct m eqn:E; cbn [bind] in H; try discriminate H
  | (match ?x with _ => _ end) = _ =>
      let E := fresh "E" in
      destruct x eqn:E; try discriminate H
  | (let (_, _) := ?x in _) = _ =>
      let E := fresh "E" in
      destruct x eqn:E
  end.

(** Split a conjunction of closed equations and settle each by evaluation. *)
Ltac evaluate_all :=
  repeat match goal with |- _ /\ _ => split end;
  match goal with
  | |- _ = _ => vm_compute; reflexivity
  | |- _ <> _ => discriminate
  end.

(* ------------------------------------------------------------------ *)
(** ** The allocator *)

(** The code drawn from one value of the oracle. *)
Definition code_of (d : N) : string :=
  JS.padStart 4 "0" (JS.dec (JS.floor_random 10000 d)).

(** Worlds that differ in the cursor of the oracle only. *)
Definition cursor_only (w w' : World) : Prop := w' = set_cursor (cursor w') w.

(* ------------------------------------------------------------------ *)
(** ** The invariant and the reachable states *)

(** A listed participant has a display name that is truthy and converts to a
    string, and, while its connection is open, belongs to the group of the
    room's code. *)
Definition user_ok (w : World) (c : string) (u : User) : Prop :=
  JS.truthy (username u) = true
  /\ (exists s, JS.to_string (username u) = Done s)
  /\ (set_has (socketId u) (closed w) = false -> In (socketId u, c) (joined w)).

Definition room_ok (w : World) (c : string) (r : Room) : Prop :=
  JS.test_4digits c = true
  /\ In c (usedCodes w)
  /\ List.length (users r) <= 2
  /\ NoDup (map socketId (users r))
  /\ Forall (user_ok w c) (users r).

Record Inv (w : World) : Prop := mkInv {
  inv_rooms : forall c r, assoc_get c (rooms w) = Some r -> room_ok w c r;
  inv_joined : NoDup (joined w);
  inv_tags : forall sid c,
      assoc_get sid (roomCodes w) = Some c -> JS.test_4digits c = true
}.

(** The states the server passes through, from start-up, one completed unit
    of work after the other. *)
Inductive reachable (rnd : nat -> N) : World -> Prop :=
| reach_init : reachable rnd init
| reach_step fuel w e w' out :
    reachable rnd w -> step rnd fuel w e = Done (w', out) -> reachable rnd w'.

(* ------------------------------------------------------------------ *)
(** ** Outcomes of the handlers *)

(** The ledger keys: [`${socket.id}-${code}`] and [`${username}-${code}`]. *)
Definition session_key (who code : string) : string :=
  who +++ "-" +++ code +++ "".

(** The replies with which [joinRoom] turns a caller away. *)
Definition join_rejections : list OutEvent :=
  [EError msgInvalidCode; EError msgRoomNotFound; ERoomFull;
   EError msgAlreadyInRoom; EError msgRejoinForbidden].


(** State and outputs of an admitted [joinRoom]. *)
Definition join_success (rnd : nat -> N) (sid : string) (now : Clock) (c : string)
           (name : JS.value) (room : Room) (w : World) : World * list Output :=
  let (assigned, w1) := assign_name rnd name w in
  let room' :=
    push_user (mkUser sid assigned (reading now 0))
              (reading now 1) (reading now 2) room in
  let w3 := enter sid c (set_rooms (assoc_set c room' (rooms w1)) w1) in
  (w3,
   Deliver sid (EJoinedRoom c assigned (List.length (users room')) (messages room'))
   :: socket_to sid c (EUserJoined assigned (List.length (users room'))) w3).

Definition join_allowed (sid c : string) (name : JS.value) (room : Room)
           (w : World) : Prop :=
  JS.test_4digits c = true
  /\ assoc_get c (rooms w) = Some room
  /\ List.length (users room) < 2
  /\ find (is_socket sid) (users room) = None
  /\ exists nameText,
      JS.to_string (JS.or name (JS.Str "anonymous")) = Done nameText
      /\ set_has (session_key sid c) (userSessions w) = false
      /\ set_has (session_key nameText c) (usernameSessions w) = false.

(** State and outputs of [createRoom] once the allocator has answered. *)
Definition create_success (rnd : nat -> N) (sid : string) (now : Clock) (code : string)
           (name : JS.value) (w1 : World) : World * list Output :=
  let room :=
    mkRoom [] [] (reading now 0) (reading now 1 + ROOM_EXPIRY_TIME)%Z
           (reading now 2) None in
  let w2 := set_rooms (assoc_set code room (rooms w1)) w1 in
  let (assigned, w3) := assign_name rnd name w2 in
  let room' :=
    push_user (mkUser sid assigned (reading now 3))
              (reading now 4) (reading now 5) room in
  let w5 := enter sid code (set_rooms (assoc_set code room' (rooms w3)) w3) in
  (w5,
   [Deliver sid
      (EJoinedRoom code assigned (List.length (users room')) (messages room'))]).

(** State and outputs of an accepted [sendMessage]. *)
Definition send_success (rnd : nat -> N) (sid : string) (now : Clock) (c : string) (room : Room)
           (user : User) (text : string) (w : World) : World * list Output :=
  let (d, w1) := random rnd w in
  let messageObj :=
    mkMessage (reading now 0, d) (username user) text (reading now 1) sid in
  let room' :=
    set_expiresAt (reading now 3 + ROOM_EXPIRY_TIME)%Z
      (set_lastActivity (reading now 2)
         (set_messages (messages room ++ [messageObj]) room)) in
  let w2 := set_rooms (assoc_set c room' (rooms w1)) w1 in
  (w2, io_to c (ENewMessage messageObj) w2).

(** Removing a room and releasing its code. *)
Definition destroy (c : string) (w : World) : World :=
  set_usedCodes (set_delete c (usedCodes w))
    (set_rooms (assoc_delete c (rooms w)) w).

(** What a departure finds: the room of the caller's tag, and the caller's
    place in its participant list. *)
Definition departing (sid : string) (w : World) (c : string) (room : Room)
           (userIndex : nat) (user : User) : Prop :=
  active_tag sid w = Some (c, room)
  /\ findIndex (is_socket sid) (users room) = Some userIndex
  /\ nth_error (users room) userIndex = Some user.

(** The room once the caller is spliced out of it. *)
Definition without (userIndex : nat) (room : Room) : Room :=
  set_users (splice1 userIndex (users room)) room.

(** A departure, explicit or by disconnection, as one event. *)
Definition is_departure (a : Action) : Prop := a = ALeaveRoom \/ a = ADisconnect.

(** The codes whose entry the sweep finds expired, in store order. *)
Definition expired_codes (now : Z) (l : list (string * Room)) : list string :=
  map fst (filter (fun e => (now >? expiresAt (snd e))%Z) l).

Definition destroy_all (cs : list string) (w : World) : World :=
  fold_left (fun w c => destroy c w) cs w.

(** The event a signaling handler emits; the payload goes in as it came. *)
Definition signal_event (a : Action) : option OutEvent :=
  match a with
  | AVoiceChatOffer data => Some (EVoiceChatOffer data)
  | AVoiceChatAnswer data => Some (EVoiceChatAnswer data)
  | AIceCandidate data => Some (EIceCandidate data)
  | AStartVoiceChat => Some EVoiceChatStarted
  | AEndVoiceChat => Some EVoiceChatEnded
  | _ => None
  end.

(** The events that the handlers pass on or that shrink a room: typing,
    the five signaling events, and the two departures. *)
Definition is_signal (a : Action) : bool :=
  match a with
  | AVoiceChatOffer _ | AVoiceChatAnswer _ | AIceCandidate _
  | AStartVoiceChat | AEndVoiceChat => true
  | _ => false
  end.

Definition is_quiet (a : Action) : bool :=
  match a with
  | ATyping _ | ADisconnect | ALeaveRoom => true
  | _ => is_signal a
  end.

(* ------------------------------------------------------------------ *)
(** ** Relations between states and views of the outputs *)


(** Every room of [w'] was a room of [w] and has the deadline it had. *)
Definition keeps_deadlines (w w' : World) : Prop :=
  forall c r',
    assoc_get c (rooms w') = Some r' ->
    exists r, assoc_get c (rooms w) = Some r /\ expiresAt r' = expiresAt r.

(** Every room of [w'] was a room of [w] and has the history it had. *)
Definition keeps_histories (w w' : World) : Prop :=
  forall c r',
    assoc_get c (rooms w') = Some r' ->
    exists r, assoc_get c (rooms w) = Some r /\ messages r' = messages r.

(** How an event that is neither a creation, an admission nor a message can
    change the room store: not at all, by rewriting one room without touching
    its deadline or its history and without adding a participant, or by
    deleting one room. *)
Inductive rooms_edit (w w' : World) : Prop :=
| edit_none : rooms w' = rooms w -> rooms_edit w w'
| edit_room c room room' :
    assoc_get c (rooms w) = Some room ->
    expiresAt room' = expiresAt room ->
    messages room' = messages room ->
    incl (users room') (users room) ->
    rooms w' = assoc_set c room' (rooms w) ->
    rooms_edit w w'
| edit_delete c :
    rooms w' = assoc_delete c (rooms w) -> rooms_edit w w'.

(** The events delivered to one connection, in order. *)
Definition received (sid : string) (out : list Output) : list OutEvent :=
  flat_map (fun o => match o with
                     | Deliver r ev => if String.eqb r sid then [ev] else []
                     | HttpJson _ => []
                     end) out.

(* ------------------------------------------------------------------ *)
(** ** Shapes of payloads *)

Definition is_string (v : JS.value) : bool :=
  match v with JS.Str _ => true | _ => false end.

Definition present (v : JS.value) : bool :=
  match v with JS.Undefined | JS.Null => false | _ => true end.

(** ToString of the value returns: the value holds no object with an own
    [toString] field where the conversion reaches. *)
Definition converts (v : JS.value) : bool :=
  match JS.to_string v with Done _ => true | _ => false end.

(** The field [f] of a payload that is there. *)
Definition field (data : JS.value) (f : string) : JS.value :=
  match data with
  | JS.Obj fields => JS.lookup_field f fields
  | _ => JS.Undefined
  end.

(** The [code] is the string code of a room that has a free place and does
    not list the caller: [joinRoom] then gets as far as the ledger keys. *)
Definition reaches_the_ledger (sid : string) (code : JS.value) (w : World) : bool :=
  match code with
  | JS.Str c =>
      JS.test_4digits c
      && match assoc_get c (rooms w) with
         | Some room =>
             (List.length (users room) <? 2)
             && match find (is_socket sid) (users room) with
                | Some _ => false
                | None => true
                end
         | None => false
         end
  | _ => false
  end.

(** The caller is a listed participant of the room its tag names. *)
Definition speaks_in_a_room (sid : string) (w : World) : bool :=
  match active_tag sid w with
  | Some (_, room) =>
      match find (is_socket sid) (users room) with
      | Some _ => true
      | None => false
      end
  | None => false
  end.

(** [socket.roomCode] is truthy. *)
Definition tagged (sid : string) (w : World) : bool :=
  match assoc_get sid (roomCodes w) with
  | Some c => negb (String.eqb c "")
  | None => false
  end.

(** The payloads under which the handler of an event throws, in the state
    in which it starts:
    - no payload: for [joinRoom], [createRoom] and [sendMessage] always, for
      [typing] when the caller carries a room tag;
    - [joinRoom] with a [code] that does not convert to a string, or, once
      it has got as far as the ledger keys, with a truthy [username] that
      does not convert;
    - [createRoom], once the allocator has returned, with a truthy
      [username] that does not convert;
    - [sendMessage] of a listed participant of its tagged room with a
      [message] that is no string. *)
Definition faulting (rnd : nat -> N) (fuel : nat) (sid : string) (a : Action)
           (w : World) : bool :=
  match a with
  | AJoinRoom data =>
      negb (present data)
      || negb (converts (field data "code"))
      || (reaches_the_ledger sid (field data "code") w
          && JS.truthy (field data "username")
          && negb (converts (field data "username")))
  | ACreateRoom data =>
      negb (present data)
      || (match generateUniqueRoomCode rnd fuel w with
          | Done _ => true
          | _ => false
          end
          && JS.truthy (field data "username")
          && negb (converts (field data "username")))
  | ASendMessage data =>
      negb (present data)
      || (speaks_in_a_room sid w && negb (is_string (field data "message")))
  | ATyping data => negb (present data) && tagged sid w
  | _ => false
  end.

(* ------------------------------------------------------------------ *)
(** ** The display name "anonymous" *)

(** The value converts to the text "anonymous": the string itself, or for
    instance the array [["anonymous"]]. *)
Definition reads_anonymous (v : JS.value) : Prop :=
  JS.to_string v = Done "anonymous".

(** No listed participant has a display name that reads "anonymous". *)
Definition names_ok (rs : list (string * Room)) : Prop :=
  forall c r u,
    assoc_get c rs = Some r -> In u (users r) -> ~ reads_anonymous (username u).

(** The ledger has no name key of "anonymous" for a well-formed code. *)
Definition no_anonymous_key (keys : list string) : Prop :=
  forall c,
    JS.test_4digits c = true -> ~ In (session_key "anonymous" c) keys.

Definition NoAnon (w : World) : Prop :=
  names_ok (rooms w) /\ no_anonymous_key (usernameSessions w).

(** The payload of a creation or of a join that asks for a display name
    that reads "anonymous". *)
Definition supplies_anonymous (e : Event) : Prop :=
  match e with
  | FromSocket _ _ (AJoinRoom data) | FromSocket _ _ (ACreateRoom data) =>
      reads_anonymous (field data "username")
  | _ => False
  end.

(** During the run [es] a departure handler has removed from the room of
    code [c] a participant whose display name reads as the text [t]. *)
Definition left_under_name (rnd : nat -> N) (fuel : nat) (w0 : World)
           (es : list Event) (c t : string) : Prop :=
  exists es1 sid now a es2 w1 out1 room i user,
    es = es1 ++ FromSocket sid now a :: es2
    /\ run rnd fuel w0 es1 = Done (w1, out1)
    /\ set_has sid (closed w1) = false
    /\ is_departure a
    /\ departing sid w1 c room i user
    /\ JS.to_string (username user) = Done t.

(* ------------------------------------------------------------------ *)
(** ** Sample oracles, payloads and runs *)

(** The oracle whose every draw is 0: every sampled code is "0000". *)
Definition zeros : nat -> N := fun _ => 0%N.

(** The oracle whose draws count up from 0. *)
Definition counting : nat -> N := N.of_nat.

Definition named (n : string) : JS.value := JS.Obj [("username", JS.Str n)].

Definition join_payload (c n : string) : JS.value :=
  JS.Obj [("code", JS.Str c); ("username", JS.Str n)].

Definition nameless_join (c : string) : JS.value := JS.Obj [("code", JS.Str c)].

Definition text_payload (s : string) : JS.value := JS.Obj [("message", JS.Str s)].

Definition typing_payload : JS.value :=
  JS.Obj [("username", JS.Str "Bob"); ("isTyping", JS.Boolean true)].

(** The state after a run, [init] when the run does not complete. *)
Definition world_after (rnd : nat -> N) (fuel : nat) (es : list Event) : World :=
  match run rnd fuel init es with
  | Done (w, _) => w
  | _ => init
  end.

(** The outputs of a run, none when the run does not complete. *)
Definition output_after (rnd : nat -> N) (fuel : nat) (es : list Event)
  : list Output :=
  match run rnd fuel init es with
  | Done (_, out) => out
  | _ => []
  end.

Definition two_in_a_room : list Event :=
  [FromSocket "A" 0 (ACreateRoom (named "Ann"));
   FromSocket "B" 1 (AJoinRoom (join_payload "0000" "Bob"))].

Definition bob_leaves : list Event :=
  two_in_a_room ++ [FromSocket "B" 2 ALeaveRoom].

Definition alone_with_history : list Event :=
  [FromSocket "A" 0 (ACreateRoom (named "Ann"));
   FromSocket "A" 1 (ASendMessage (text_payload "note to self"))].

Definition bob_says_hello : Event :=
  FromSocket "B" 2 (ASendMessage (text_payload "  hello ")).

Definition stale_tag : list Event :=
  [FromSocket "A" 0 (ACreateRoom (named "Ann"));
   Tick 700000;
   FromSocket "B" 700001 (ACreateRoom (named "Bea"))].

(** A connection that creates a second room without leaving the first, and
    then disconnects. *)
Definition two_rooms_one_connection : list Event :=
  [FromSocket "A" 0 (ACreateRoom (named "Ann"));
   FromSocket "A" 1 (ACreateRoom (named "Ann"));
   FromSocket "A" 2 ADisconnect].

(** Ann writes in her room "0000", creates a second room, which the
    counting oracle numbers "0002", and disconnects. *)
Definition tagged_elsewhere_with_history : list Event :=
  [FromSocket "A" 0 (ACreateRoom (named "Ann"));
   FromSocket "A" 1 (ASendMessage (text_payload "secret"));
   FromSocket "A" 2 (ACreateRoom (named "Ann"));
   FromSocket "A" 3 ADisconnect].



(** The concrete scenario of the specification, with an oracle whose every
    draw is 4821. *)
Definition always_4821 : nat -> N := fun _ => 4821%N.

Definition scenario : list Event :=
  [FromSocket "A" 0 (ACreateRoom (named "Al"));
   FromSocket "B" 1 (AJoinRoom (join_payload "4821" "Bob"));
   FromSocket "B" 2 (ASendMessage (text_payload "hello"));
   FromSocket "B" 3 ALeaveRoom;
   FromSocket "A" 4 ALeaveRoom;
   FromSocket "C" 5 (ACreateRoom (named "Cleo"));
   FromSocket "B" 6 (AJoinRoom (join_payload "4821" "Bob"))].

Definition nameless_visitor_left : list Event :=
  [FromSocket "A" 0 (ACreateRoom (named "Ann"));
   FromSocket "C" 1 (AJoinRoom (nameless_join "0000"));
   FromSocket "C" 2 ALeaveRoom].

Definition anonymous_by_name : list Event :=
  nameless_visitor_left
  ++ [FromSocket "B" 3 (AJoinRoom (join_payload "0000" "anonymous"));
      FromSocket "B" 4 ALeaveRoom].

(** As [anonymous_by_name], with a display name that is no string but
    converts to "anonymous". *)
Definition anonymous_by_array : list Event :=
  nameless_visitor_left
  ++ [FromSocket "B" 3
        (AJoinRoom (JS.Obj [("code", JS.Str "0000");
                            ("username", JS.Arr [JS.Str "anonymous"])]));
      FromSocket "B" 4 ALeaveRoom].

(* ------------------------------------------------------------------ *)
(** ** Vocabulary of the further properties *)

(** How the event of connection [sid] with the clock [now] changes a room
    that is in the store before and after it: an admission, an accepted
    message, the departure of one of several participants, or a switch of
    the voice flag. *)
Inductive room_change (sid : string) (now : Clock) (r r' : Room) : Prop :=
| change_join u :
    socketId u = sid ->
    JS.truthy (username u) = true ->
    find (is_socket sid) (users r) = None ->
    r' = push_user u (reading now 1) (reading now 2) r ->
    room_change sid now r r'
| change_message m user text :
    find (is_socket sid) (users r) = Some user ->
    m = mkMessage (reading now 0, snd (msg_id m)) (username user)
                  (JS.trim text) (reading now 1) sid ->
    r' = set_expiresAt (reading now 3 + ROOM_EXPIRY_TIME)%Z
           (set_lastActivity (reading now 2)
              (set_messages (messages r ++ [m]) r)) ->
    room_change sid now r r'
| change_depart i :
    findIndex (is_socket sid) (users r) = Some i ->
    users (without i r) <> [] ->
    r' = without i r ->
    room_change sid now r r'
| change_voice b :
    r' = set_inVoiceChat b r ->
    room_change sid now r r'.

(** The room that [createRoom] installs for connection [sid]. *)
Definition created_room (sid : string) (name : JS.value) (now : Clock) : Room :=
  push_user (mkUser sid name (reading now 3)) (reading now 4) (reading now 5)
            (mkRoom [] [] (reading now 0) (reading now 1 + ROOM_EXPIRY_TIME)%Z
                    (reading now 2) None).

(** The codes of the active rooms, in store order. *)
Definition active_codes (w : World) : list string := map fst (rooms w).

(** The event is no [joinRoom] and no [createRoom] of connection [sid]. *)
Definition no_entry_by (sid : string) (e : Event) : Prop :=
  match e with
  | FromSocket sid' _ (AJoinRoom _) | FromSocket sid' _ (ACreateRoom _) =>
      sid' <> sid
  | _ => True
  end.

(** The clock of the event does not go back while its handler runs. *)
Definition clock_goes_forward (e : Event) : Prop :=
  match e with
  | FromSocket _ now _ => monotone now
  | _ => True
  end.

(** A clock that advances by one millisecond from reading to reading. *)
Definition ticking (start : Z) : Clock :=
  mkClock (fun k => (start + Z.of_nat k)%Z).

(** How one event of a connection changes the room store and the used-code
    set together: not at all; by rewriting one active room; by deleting one
    active room and releasing its code; or by installing a room under a code
    that is reserved with it. *)
Inductive store_edit (w w' : World) : Prop :=
| store_same :
    rooms w' = rooms w -> usedCodes w' = usedCodes w -> store_edit w w'
| store_rewrite c r r' :
    assoc_get c (rooms w) = Some r ->
    rooms w' = assoc_set c r' (rooms w) ->
    usedCodes w' = usedCodes w ->
    store_edit w w'
| store_delete c r :
    assoc_get c (rooms w) = Some r ->
    rooms w' = assoc_delete c (rooms w) ->
    usedCodes w' = set_delete c (usedCodes w) ->
    store_edit w w'
| store_install code r0 r' :
    rooms w' = assoc_set code r' (assoc_set code r0 (rooms w)) ->
    usedCodes w' = set_add code (usedCodes w) ->
    store_edit w w'.

(** The first and the last character of a text, if any, are no white
    space. *)
Definition no_outer_space (s : string) : Prop :=
  let l := list_ascii_of_string s in
  (forall x, hd_error l = Some x -> JS.is_space x = false)
  /\ (forall x, hd_error (rev l) = Some x -> JS.is_space x = false).

(** Two participants in a room, and three messages with white space around
    them. *)
Definition chat : list Event :=
  two_in_a_room
  ++ [FromSocket "A" 2 (ASendMessage (text_payload " hi Bob "));
      FromSocket "B" 3 (ASendMessage (text_payload "hi Ann"));
      FromSocket "A" 4 (ASendMessage (text_payload "   "))].

(* ------------------------------------------------------------------ *)
(** ** Facts about the containers *)

Section Containers.
Context {A : Type}.
Implicit Types (k : string) (m : list (string * A)).

Lemma assoc_get_In k m v : assoc_get k m = Some v -> In (k, v) m.
Proof.
  induction m as [|[k' v'] m IH]; simpl; [discriminate|].
  destruct (String.eqb_spec k' k) as [->|Hne]; intros H.
  - injection H as ->. now left.
  - right. auto.
Qed.

Lemma assoc_get_set_same k v m : assoc_get k (assoc_set k v m) = Some v.
Proof.
  induction m as [|[k' v'] m IH]; simpl.
  - now rewrite String.eqb_refl.
  - destruct (String.eqb_spec k' k) as [->|Hne]; simpl.
    + now rewrite String.eqb_refl.
    + destruct (String.eqb_spec k' k); [contradiction|assumption].
Qed.

Lemma assoc_get_set_other k k' v m :
  k' <> k -> assoc_get k' (assoc_set k v m) = assoc_get k' m.
Proof.
  intros Hne. induction m as [|[k0 v0] m IH]; simpl.
  - destruct (String.eqb_spec k k'); [congruence|reflexivity].
  - destruct (String.eqb_spec k0 k) as [->|Hk]; simpl.
    + destruct (String.eqb_spec k k'); [congruence|reflexivity].
    + destruct (String.eqb_spec k0 k'); [reflexivity|assumption].
Qed.

Lemma assoc_get_set k k' v m :
  assoc_get k' (assoc_set k v m)
  = if String.eqb k k' then Some v else assoc_get k' m.
Proof.
  destruct (String.eqb_spec k k') as [->|Hne].
  - apply assoc_get_set_same.
  - apply assoc_get_set_other. congruence.
Qed.

Lemma assoc_get_delete_same k m : assoc_get k (assoc_delete k m) = None.
Proof.
  induction m as [|[k' v'] m IH]; simpl; [reflexivity|].
  destruct (String.eqb_spec k' k) as [->|Hne]; simpl; [assumption|].
  destruct (String.eqb_spec k' k); [contradiction|assumption].
Qed.

Lemma assoc_get_delete_other k k' m :
  k' <> k -> assoc_get k' (assoc_delete k m) = assoc_get k' m.
Proof.
  intros Hne. induction m as [|[k0 v0] m IH]; simpl; [reflexivity|].
  destruct (String.eqb_spec k0 k) as [->|Hk]; simpl.
  - destruct (String.eqb_spec k k'); [congruence|assumption].
  - destruct (String.eqb_spec k0 k'); [reflexivity|assumption].
Qed.

Lemma assoc_get_delete k k' m :
  assoc_get k' (assoc_delete k m)
  = if String.eqb k k' then None else assoc_get k' m.
Proof.
  destruct (String.eqb_spec k k') as [->|Hne].
  - apply assoc_get_delete_same.
  - apply assoc_get_delete_other. congruence.
Qed.

Lemma assoc_has_false k m : assoc_has k m = false <-> assoc_get k m = None.
Proof.
  unfold assoc_has. destruct (assoc_get k m); split; intros H;
    try discriminate; reflexivity.
Qed.

End Containers.

Lemma set_has_In k s : set_has k s = true <-> In k s.
Proof.
  unfold set_has. rewrite existsb_exists. split.
  - intros (x & Hx & E). apply String.eqb_eq in E. now subst.
  - intros H. exists k. split; [assumption|apply String.eqb_refl].
Qed.

Lemma set_has_false k s : set_has k s = false <-> ~ In k s.
Proof.
  rewrite <- set_has_In. destruct (set_has k s); split; congruence.
Qed.

Lemma In_set_add k x s : In x (set_add k s) <-> x = k \/ In x s.
Proof.
  unfold set_add. destruct (set_has k s) eqn:E.
  - apply set_has_In in E. split; [now right|]. intros [->|H]; assumption.
  - rewrite in_app_iff. simpl. split.
    + intros [H|[H|[]]]; [now right|now left].
    + intros [->|H]; [right; now left|now left].
Qed.

Lemma In_set_delete k x s : In x (set_delete k s) <-> In x s /\ x <> k.
Proof.
  unfold set_delete. rewrite filter_In. split; intros [H1 H2]; split; trivial.
  - intros ->. now rewrite String.eqb_refl in H2.
  - now apply negb_true_iff, String.eqb_neq.
Qed.

Lemma set_has_add k x s :
  set_has x (set_add k s) = String.eqb x k || set_has x s.
Proof.
  apply eq_true_iff_eq. rewrite orb_true_iff, !set_has_In, In_set_add.
  now rewrite String.eqb_eq.
Qed.

(** [findIndex] followed by [splice] removes the first match. *)
Lemma findIndex_nth {A} (p : A -> bool) l i :
  findIndex p l = Some i -> exists x, nth_error l i = Some x /\ p x = true.
Proof.
  revert i. induction l as [|y l IH]; simpl; intros i; [discriminate|].
  destruct (p y) eqn:E.
  - intros [= <-]. simpl. eauto.
  - destruct (findIndex p l) as [j|]; [|discriminate].
    intros [= <-]. simpl. now apply IH.
Qed.

Lemma findIndex_find {A} (p : A -> bool) l :
  match findIndex p l with
  | Some i => exists x, find p l = Some x /\ nth_error l i = Some x
  | None => find p l = None
  end.
Proof.
  induction l as [|y l IH]; simpl; [reflexivity|].
  destruct (p y).
  - simpl. eauto.
  - destruct (findIndex p l); simpl; assumption.
Qed.

Lemma In_splice1 {A} (i : nat) (l : list A) x :
  In x (splice1 i l) -> In x l.
Proof.
  revert i. induction l as [|y l IH]; intros [|i]; simpl; auto.
  intros [->|H]; [now left|right; eauto].
Qed.

Lemma length_splice1 {A} (i : nat) (l : list A) :
  List.length (splice1 i l) <= List.length l.
Proof.
  revert i. induction l as [|y l IH]; intros [|i]; simpl; auto.
  specialize (IH i). lia.
Qed.

Lemma map_splice1 {A B} (f : A -> B) i (l : list A) :
  map f (splice1 i l) = splice1 i (map f l).
Proof.
  revert i. induction l as [|y l IH]; intros [|i]; simpl; auto.
  now rewrite IH.
Qed.

Lemma NoDup_splice1 {A} i (l : list A) : NoDup l -> NoDup (splice1 i l).
Proof.
  revert i. induction l as [|y l IH]; intros [|i] H; simpl; auto.
  - now inversion H.
  - inversion H; subst. constructor; [|auto].
    intros Hin. apply In_splice1 in Hin. contradiction.
Qed.

Lemma NoDup_splice1_gone {A} i (l : list A) x :
  NoDup l -> nth_error l i = Some x -> ~ In x (splice1 i l).
Proof.
  revert i. induction l as [|y l IH]; intros [|i] H; simpl; try discriminate.
  - intros [= ->]. now inversion H.
  - intros E [->|Hin].
    + inversion H; subst. apply nth_error_In in E. contradiction.
    + inversion H; subst. eapply IH; eauto.
Qed.

(* ------------------------------------------------------------------ *)
(** ** Conversion of values to strings *)

(** Induction on values that reaches the elements of an array. *)
Lemma value_ind_items (P : JS.value -> Prop) :
  P JS.Undefined -> P JS.Null -> (forall b, P (JS.Boolean b)) ->
  (forall n, P (JS.Num n)) -> (forall s, P (JS.Str s)) ->
  (forall items, Forall P items -> P (JS.Arr items)) ->
  (forall fields, P (JS.Obj fields)) ->
  forall v, P v.
Proof.
  intros HU HN HB HNum HS HA HO.
  fix IH 1.
  intros [| |b|n|s|items|fields];
    [exact HU|exact HN|apply HB|apply HNum|apply HS| |apply HO].
  apply HA. revert items. fix IHl 1.
  intros [|x rest]; constructor; [apply IH|apply IHl].
Qed.

(** ToString returns a string or throws a [TypeError]. *)
Lemma to_string_cases v :
  (exists s, JS.to_string v = Done s) \/ JS.to_string v = Throw JS.typeError.
Proof.
  induction v as [| |b|n|s|items IH|fields] using value_ind_items;
    cbn [JS.to_string]; eauto.
  - destruct b; eauto.
  - induction IH as [|x rest Hx _ IHrest]; cbn [JS.join]; [eauto|].
    assert (Hconv : (exists s, match x with
                               | JS.Undefined | JS.Null => Done ""
                               | _ => JS.to_string x
                               end = Done s)
                    \/ match x with
                       | JS.Undefined | JS.Null => Done ""
                       | _ => JS.to_string x
                       end = Throw JS.typeError)
      by (destruct x; eauto).
    destruct Hconv as [[s ->]| ->]; cbn [bind]; [|now right].
    destruct rest as [|y rest]; [eauto|].
    destruct IHrest as [[t Ht]|Ht]; cbn [JS.join] in Ht |- *; rewrite Ht;
      cbn [bind]; eauto.
  - destruct (JS.has_field _ _); eauto.
Qed.

Lemma get_field data f : present data = true -> JS.get data f = Done (field data f).
Proof. destruct data; cbn; try discriminate; reflexivity. Qed.

Lemma get_absent data f :
  present data = false -> JS.get data f = Throw JS.typeError.
Proof. destruct data; cbn; try discriminate; reflexivity. Qed.

Lemma get_Done_field data f v : JS.get data f = Done v -> v = field data f.
Proof. destruct data; cbn; try discriminate; now intros [= <-]. Qed.

(** What [`${username || 'anonymous'}`] converts. *)
Lemma to_string_or_anonymous name :
  JS.to_string (JS.or name (JS.Str "anonymous"))
  = if JS.truthy name then JS.to_string name else Done "anonymous".
Proof. unfold JS.or. destruct (JS.truthy name); reflexivity. Qed.

(* ------------------------------------------------------------------ *)
(** ** The code allocator *)

Lemma all_codes_4digits :
  forallb (fun n => JS.test_4digits (JS.padStart 4 "0" (JS.dec (N.of_nat n))))
          (seq 0 (100 * 100)) = true.
Proof. vm_compute. reflexivity. Qed.

Lemma code_of_4digits d : JS.test_4digits (code_of d) = true.
Proof.
  unfold code_of, JS.floor_random.
  assert (H : (d mod 10000 < 10000)%N) by (apply N.mod_lt; discriminate).
  rewrite <- (N2Nat.id (d mod 10000)%N).
  apply (proj1 (forallb_forall _ _) all_codes_4digits).
  apply in_seq. split; [apply Nat.le_0_l|].
  change (0 + 100 * 100) with (N.to_nat 10000).
  apply Nat.compare_lt_iff. rewrite <- N2Nat.inj_compare. exact H.
Qed.

Lemma test_4digits_length s : JS.test_4digits s = true -> String.length s = 4.
Proof.
  unfold JS.test_4digits.
  destruct s as [|a [|b [|c [|d [|e s]]]]]; simpl; try discriminate. reflexivity.
Qed.

Lemma cursor_only_refl w : cursor_only w w.
Proof. now destruct w. Qed.

Lemma cursor_only_trans w1 w2 w3 :
  cursor_only w1 w2 -> cursor_only w2 w3 -> cursor_only w1 w3.
Proof. unfold cursor_only. intros -> ->. reflexivity. Qed.

Section Allocator.
Variable rnd : nat -> N.

Lemma sample_code_eq w :
  sample_code rnd w = (code_of (rnd (cursor w)), set_cursor (S (cursor w)) w).
Proof. reflexivity. Qed.

Lemma attempt_loop_spec n attempts w :
  maxAttempts <= S (n + attempts) ->
  let '(code, attempts', w') := attempt_loop rnd n attempts w in
  JS.test_4digits code = true
  /\ cursor_only w w'
  /\ (set_has code (usedCodes w) = false \/ maxAttempts <= attempts').
Proof.
  revert attempts w. induction n as [|n IH]; intros attempts w Hn.
  - simpl. split; [apply code_of_4digits|]. split; [reflexivity|].
    right. lia.
  - cbn [attempt_loop]. rewrite sample_code_eq. cbn [usedCodes set_cursor].
    destruct (set_has (code_of (rnd (cursor w))) (usedCodes w)) eqn:Hu;
      cbn [andb].
    + destruct (Nat.ltb_spec (S attempts) maxAttempts) as [Hlt|Hge].
      * specialize (IH (S attempts) (set_cursor (S (cursor w)) w)).
        destruct (attempt_loop rnd n (S attempts) _) as [[c a] w'].
        destruct IH as (H1 & H2 & H3); [lia|].
        split; [assumption|]. split; [|assumption].
        eapply cursor_only_trans; [|exact H2]. reflexivity.
      * split; [apply code_of_4digits|]. split; [reflexivity|]. now right.
    + split; [apply code_of_4digits|]. split; [reflexivity|]. now left.
Qed.

Lemma fallback_loop_spec k w code w' :
  fallback_loop rnd k w = Done (code, w') ->
  JS.test_4digits code = true
  /\ cursor_only w w'
  /\ assoc_get code (rooms w) = None.
Proof.
  revert w. induction k as [|k IH]; intros w; [discriminate|].
  cbn [fallback_loop]. rewrite sample_code_eq. cbn [rooms set_cursor].
  destruct (assoc_has (code_of (rnd (cursor w))) (rooms w)) eqn:Hh.
  - intros H. apply IH in H. destruct H as (H1 & H2 & H3).
    split; [assumption|]. split; [|exact H3].
    eapply cursor_only_trans; [|exact H2]. reflexivity.
  - intros [= <- <-]. split; [apply code_of_4digits|].
    split; [reflexivity|]. now apply assoc_has_false.
Qed.

(** The fallback loop ends as soon as a draw misses the room store. *)
Lemma fallback_loop_total k w i :
  i < k ->
  assoc_has (code_of (rnd (cursor w + i))) (rooms w) = false ->
  exists r, fallback_loop rnd k w = Done r.
Proof.
  revert w i. induction k as [|k IH]; intros w i Hi Hfree; [lia|].
  cbn [fallback_loop]. rewrite sample_code_eq. cbn [rooms set_cursor].
  destruct (assoc_has (code_of (rnd (cursor w))) (rooms w)) eqn:Hh.
  - destruct i as [|i].
    + rewrite Nat.add_0_r in Hfree. congruence.
    + apply (IH (set_cursor (S (cursor w)) w) i); [lia|].
      cbn [cursor rooms set_cursor].
      now replace (S (cursor w) + i) with (cursor w + S i) by lia.
  - eauto.
Qed.

Lemma fallback_loop_never_throws k w e :
  fallback_loop rnd k w <> Throw e.
Proof.
  revert w. induction k as [|k IH]; intros w; [discriminate|].
  cbn [fallback_loop]. rewrite sample_code_eq.
  destruct (assoc_has _ _); [apply IH|discriminate].
Qed.

Variable fuel : nat.

Lemma generateUniqueRoomCode_spec w code w' :
  generateUniqueRoomCode rnd fuel w = Done (code, w') ->
  JS.test_4digits code = true
  /\ (exists n, w' = set_usedCodes (set_add code (usedCodes w)) (set_cursor n w))
  /\ (set_has code (usedCodes w) = false \/ assoc_get code (rooms w) = None).
Proof.
  unfold generateUniqueRoomCode.
  pose proof (attempt_loop_spec maxAttempts 0 w) as Hloop.
  destruct (attempt_loop rnd maxAttempts 0 w) as [[c a] w1].
  destruct Hloop as (Hc & Hw1 & Hexit); [lia|].
  destruct (maxAttempts <=? a) eqn:Ha.
  - destruct (fallback_loop rnd fuel w1) as [[c2 w2]| |] eqn:Hfb;
      simpl; try discriminate.
    intros [= <- <-]. apply fallback_loop_spec in Hfb.
    destruct Hfb as (H1 & H2 & H3). split; [assumption|].
    pose proof (cursor_only_trans _ _ _ Hw1 H2) as Hw2.
    split.
    + exists (cursor w2). unfold cursor_only in Hw2. rewrite Hw2.
      reflexivity.
    + right. unfold cursor_only in Hw1. rewrite Hw1 in H3. exact H3.
  - simpl. intros [= <- <-]. split; [assumption|]. split.
    + exists (cursor w1). unfold cursor_only in Hw1. rewrite Hw1.
      reflexivity.
    + apply Nat.leb_gt in Ha. destruct Hexit as [H|H]; [now left|lia].
Qed.

Lemma generateUniqueRoomCode_never_throws w e :
  generateUniqueRoomCode rnd fuel w <> Throw e.
Proof.
  unfold generateUniqueRoomCode.
  destruct (attempt_loop rnd maxAttempts 0 w) as [[c a] w1].
  destruct (maxAttempts <=? a).
  - destruct (fallback_loop rnd fuel w1) as [[c2 w2]| |] eqn:Hfb;
      simpl; try discriminate.
    now apply fallback_loop_never_throws in Hfb.
  - simpl. discriminate.
Qed.

End Allocator.

(* ------------------------------------------------------------------ *)
(** ** The invariant of the reachable states *)

Lemma Inv_init : Inv init.
Proof. split; simpl; try discriminate. constructor. Qed.

(** [room_ok] reads the used codes, the groups and the closed connections. *)
Lemma room_ok_ext w w' c r :
  room_ok w c r ->
  (In c (usedCodes w) -> In c (usedCodes w')) ->
  (forall sid, set_has sid (closed w') = false -> In (sid, c) (joined w) ->
               set_has sid (closed w) = false /\ In (sid, c) (joined w')) ->
  (forall sid, set_has sid (closed w') = false -> set_has sid (closed w) = false) ->
  room_ok w' c r.
Proof.
  intros (H1 & H2 & H3 & H4 & H5) Hu Hj Hc.
  repeat split; auto.
  eapply Forall_impl; [|exact H5].
  intros u (U1 & U2 & U3). repeat split; auto.
  intros Hopen. apply Hj; auto.
Qed.

Lemma Inv_cursor w n : Inv w -> Inv (set_cursor n w).
Proof. intros [H1 H2 H3]. split; auto. Qed.

Lemma Inv_userSessions w l : Inv w -> Inv (set_userSessions l w).
Proof. intros [H1 H2 H3]. split; auto. Qed.

Lemma Inv_usernameSessions w l : Inv w -> Inv (set_usernameSessions l w).
Proof. intros [H1 H2 H3]. split; auto. Qed.

Lemma Inv_used_add w c :
  Inv w -> Inv (set_usedCodes (set_add c (usedCodes w)) w).
Proof.
  intros [H1 H2 H3]. split; auto. cbn [rooms set_usedCodes].
  intros c' r Hr. apply (room_ok_ext w); auto; cbn.
  intros H. apply In_set_add. now right.
Qed.

Lemma Inv_set_room w c r :
  Inv w -> room_ok w c r -> Inv (set_rooms (assoc_set c r (rooms w)) w).
Proof.
  intros [H1 H2 H3] Hr. split; auto. cbn [rooms set_rooms].
  intros c' r'. rewrite assoc_get_set.
  destruct (String.eqb_spec c c') as [<-|Hne].
  - intros [= <-]. apply (room_ok_ext w); auto.
  - intros Hg. apply (room_ok_ext w); auto.
Qed.

Lemma NoDup_socket_join sid c j : NoDup j -> NoDup (socket_join sid c j).
Proof.
  intros H. unfold socket_join.
  destruct (existsb (same_pair sid c) j) eqn:E; [assumption|].
  apply NoDup_app; [assumption|repeat constructor; intros []|].
  intros p Hp [<-|[]].
  assert (existsb (same_pair sid c) j = true); [|congruence].
  apply existsb_exists. exists (sid, c). split; [assumption|].
  unfold same_pair. cbn. now rewrite !String.eqb_refl.
Qed.

Lemma In_socket_join sid c j p :
  In p (socket_join sid c j) <-> p = (sid, c) \/ In p j.
Proof.
  unfold socket_join. destruct (existsb (same_pair sid c) j) eqn:E.
  - split; [now right|]. intros [->|H]; [|assumption].
    apply existsb_exists in E. destruct E as ([a b] & Hin & Hp).
    unfold same_pair in Hp. cbn in Hp. apply andb_true_iff in Hp.
    destruct Hp as [Ha Hb]. apply String.eqb_eq in Ha, Hb. now subst.
  - rewrite in_app_iff. cbn. split.
    + intros [H|[H|[]]]; [now right|now left].
    + intros [->|H]; [right; now left|now left].
Qed.

Lemma Inv_enter w sid c :
  Inv w -> JS.test_4digits c = true -> Inv (enter sid c w).
Proof.
  intros [H1 H2 H3] Hc. split.
  - intros c' r Hr. apply (room_ok_ext w); auto. cbn.
    intros s Hs Hin. split; [assumption|]. apply In_socket_join. now right.
  - cbn. now apply NoDup_socket_join.
  - cbn. intros s c'. rewrite assoc_get_set.
    destruct (String.eqb sid s); [intros [= <-]; assumption|apply H3].
Qed.

Lemma Inv_destroy w c :
  Inv w ->
  Inv (set_usedCodes (set_delete c (usedCodes w))
         (set_rooms (assoc_delete c (rooms w)) w)).
Proof.
  intros [H1 H2 H3]. split; auto. cbn.
  intros c' r. rewrite assoc_get_delete.
  destruct (String.eqb_spec c c') as [<-|Hne]; [discriminate|].
  intros Hr. apply (room_ok_ext w); auto. cbn.
  intros Hin. apply In_set_delete. split; [assumption|congruence].
Qed.

Lemma Inv_close w sid : Inv w -> Inv (close_socket sid w).
Proof.
  intros [H1 H2 H3]. split; auto.
  - intros c r Hr. apply (room_ok_ext w); auto; cbn.
    + intros s Hs Hin. apply orb_false_iff in Hs. destruct Hs as [Hne Hs].
      split; [assumption|]. apply filter_In. split; [assumption|].
      cbn. apply negb_true_iff. apply String.eqb_neq.
      apply String.eqb_neq in Hne. congruence.
    + intros s Hs. apply orb_false_iff in Hs. tauto.
  - cbn. now apply NoDup_filter.
Qed.

Lemma Inv_socket_leave w sid c :
  Inv w ->
  (forall r, assoc_get c (rooms w) = Some r -> ~ In sid (map socketId (users r))) ->
  Inv (set_joined (socket_leave sid c (joined w)) w).
Proof.
  intros [H1 H2 H3] Hout. split; auto.
  - cbn [rooms set_joined]. intros c' r Hr.
    destruct (H1 c' r Hr) as (R1 & R2 & R3 & R4 & R5).
    repeat split; auto.
    apply Forall_forall. intros u Hu.
    rewrite Forall_forall in R5. destruct (R5 u Hu) as (U1 & U2 & U3).
    repeat split; auto. cbn. intros Hopen.
    apply filter_In. split; [auto|].
    apply negb_true_iff. unfold same_pair. cbn.
    apply andb_false_iff.
    destruct (String.eqb_spec (socketId u) sid) as [E|]; [|now left].
    destruct (String.eqb_spec c' c) as [->|]; [|now right].
    exfalso. apply (Hout r Hr). rewrite <- E. now apply in_map.
  - cbn. now apply NoDup_filter.
Qed.

Lemma Inv_untag w sid :
  Inv w -> Inv (set_roomCodes (assoc_delete sid (roomCodes w)) w).
Proof.
  intros [H1 H2 H3]. split; auto. cbn.
  intros s c. rewrite assoc_get_delete.
  destruct (String.eqb sid s); [discriminate|apply H3].
Qed.

(* ------------------------------------------------------------------ *)
(** ** What each handler does when it returns *)

Lemma active_tag_Some sid w c room :
  active_tag sid w = Some (c, room) ->
  assoc_get sid (roomCodes w) = Some c
  /\ String.eqb c "" = false
  /\ assoc_get c (rooms w) = Some room.
Proof.
  unfold active_tag. intros H.
  destruct (assoc_get sid (roomCodes w)) as [c'|]; [|discriminate].
  destruct (String.eqb c' "") eqn:E; [discriminate|].
  destruct (assoc_get c' (rooms w)) as [r|] eqn:Er; [|discriminate].
  injection H as <- <-. auto.
Qed.

Section Handlers.
Variable rnd : nat -> N.
Variable fuel : nat.

Lemma joinRoom_inv sid now data w w' out :
  joinRoom rnd sid now data w = Done (w', out) ->
  (w' = w /\ exists ev, out = [Deliver sid ev] /\ In ev join_rejections)
  \/ (exists c name room,
         JS.get data "code" = Done (JS.Str c)
         /\ JS.get data "username" = Done name
         /\ join_allowed sid c name room w
         /\ (w', out) = join_success rnd sid now c name room w).
Proof.
  unfold joinRoom, reply, join_rejections. intros H.
  break_outcome H. break_outcome H. break_outcome H.
  destruct (JS.test_4digits a1) eqn:Hd; cbn [negb] in H;
    [|injection H as <- <-; left; cbn; eauto 10].
  destruct a; try (injection H as <- <-; left; cbn; eauto 10).
  cbn in E1. injection E1 as <-.
  break_outcome H; [|injection H as <- <-; left; cbn; eauto 10].
  destruct (2 <=? List.length (users r)) eqn:Hlen;
    [injection H as <- <-; left; cbn; eauto 10|].
  break_outcome H; [injection H as <- <-; left; cbn; eauto 10|].
  cbn [JS.template JS.to_string bind] in H.
  destruct (JS.to_string (JS.or a0 (JS.Str "anonymous"))) as [t| |] eqn:Et;
    cbn [bind] in H; try discriminate H.
  destruct (set_has _ (userSessions w) || set_has _ (usernameSessions w)) eqn:Hs;
    [injection H as <- <-; left; cbn; eauto 10|].
  apply orb_false_iff in Hs. destruct Hs as [Hs1 Hs2].
  right. exists s, a0, r. split; [reflexivity|]. split; [reflexivity|].
  split.
  - unfold join_allowed. apply Nat.leb_gt in Hlen. repeat split; eauto.
  - unfold join_success.
    destruct (assign_name rnd a0 w) as [assigned w1].
    break_outcome H. injection H as <- <-. reflexivity.
Qed.

Lemma createRoom_inv sid now data w w' out :
  createRoom rnd fuel sid now data w = Done (w', out) ->
  exists name code w1,
    JS.get data "username" = Done name
    /\ generateUniqueRoomCode rnd fuel w = Done (code, w1)
    /\ (exists t, JS.to_string (fst (assign_name rnd name w1)) = Done t)
    /\ (w', out) = create_success rnd sid now code name w1.
Proof.
  unfold createRoom. intros H.
  break_outcome H. break_outcome H. destruct a0 as [code w1].
  cbn [JS.log JS.template JS.to_string bind] in H.
  exists a, code, w1. split; [reflexivity|]. split; [reflexivity|].
  unfold create_success.
  match type of H with
  | context [assign_name rnd a (set_rooms ?rs w1)] =>
      replace (assign_name rnd a (set_rooms rs w1))
        with (let (n, w3) := assign_name rnd a w1 in (n, set_rooms rs w3)) in *
        by (unfold assign_name; destruct (JS.truthy a); reflexivity)
  end.
  destruct (assign_name rnd a w1) as [assigned w3]. cbn [fst].
  unfold JS.log in H. cbn [JS.template JS.to_string bind] in H.
  destruct (JS.to_string assigned) as [t| |] eqn:Et; cbn [bind] in H;
    try discriminate H.
  injection H as <- <-. eauto.
Qed.

Lemma sendMessage_inv sid now data w w' out :
  sendMessage rnd sid now data w = Done (w', out) ->
  (w' = w
   /\ (out = [Deliver sid (EError msgNotInRoom)]
       \/ out = [Deliver sid (EError msgUserNotFound)]))
  \/ (exists c room user s,
         JS.get data "message" = Done (JS.Str s)
         /\ active_tag sid w = Some (c, room)
         /\ find (is_socket sid) (users room) = Some user
         /\ (w', out) = send_success rnd sid now c room user (JS.trim s) w).
Proof.
  unfold sendMessage, reply. intros H.
  break_outcome H.
  destruct (active_tag sid w) as [[c room]|];
    [|injection H as <- <-; left; auto].
  destruct (find (is_socket sid) (users room)) as [user|] eqn:Ef;
    [|injection H as <- <-; left; auto].
  cbn [random] in H.
  destruct a; cbn [trim_value bind] in H; try discriminate H.
  cbn [JS.log JS.template JS.to_string bind] in H.
  injection H as <- <-. right. exists c, room, user, s. auto.
Qed.

Lemma typing_inv sid data w w' out :
  typing sid data w = Done (w', out) ->
  w' = w
  /\ (out = []
      \/ exists c name isTyping,
          assoc_get sid (roomCodes w) = Some c
          /\ out = socket_to sid c (EUserTyping name isTyping) w).
Proof.
  unfold typing. intros H.
  destruct (assoc_get sid (roomCodes w)) as [c|];
    [|injection H as <- <-; auto].
  destruct (String.eqb c ""); [injection H as <- <-; auto|].
  break_outcome H. break_outcome H. injection H as <- <-. eauto 10.
Qed.

Lemma assoc_delete_set {A} k (v : A) m :
  assoc_delete k (assoc_set k v m) = assoc_delete k m.
Proof.
  unfold assoc_delete. induction m as [|[k' v'] m IH]; simpl.
  - now rewrite String.eqb_refl.
  - destruct (String.eqb k' k) eqn:E; simpl.
    + now rewrite String.eqb_refl.
    + now rewrite E, IH.
Qed.

Lemma record_left_inv sid c user w w2 :
  record_left sid c user w = Done w2 ->
  exists t,
    JS.to_string (username user) = Done t
    /\ w2 = set_usernameSessions
              (set_add (t +++ "-" +++ c +++ "") (usernameSessions w))
              (set_userSessions
                 (set_add (sid +++ "-" +++ c +++ "") (userSessions w)) w).
Proof.
  unfold record_left. cbn [JS.template JS.to_string bind]. intros H.
  destruct (JS.to_string (username user)) as [t| |]; cbn [bind] in H;
    try discriminate H.
  injection H as <-. eauto.
Qed.

Lemma cleanup_if_empty_inv c room w w3 :
  cleanup_if_empty c room w = Done w3 ->
  w3 = if List.length (users room) =? 0 then destroy c w else w.
Proof.
  unfold cleanup_if_empty, destroy.
  destruct (List.length (users room) =? 0).
  - unfold JS.log. cbn [JS.template JS.to_string bind rooms set_rooms].
    rewrite assoc_delete_set. now intros [= <-].
  - now intros [= <-].
Qed.

Lemma disconnect_inv sid w w' out :
  disconnect sid w = Done (w', out) ->
  (w' = w /\ out = [])
  \/ (exists c room userIndex user w2,
         departing sid w c room userIndex user
         /\ record_left sid c user
              (set_rooms (assoc_set c (without userIndex room) (rooms w)) w)
            = Done w2
         /\ cleanup_if_empty c (without userIndex room) w2 = Done w'
         /\ out = socket_to sid c
                    (EUserLeft (username user)
                       (List.length (users (without userIndex room)))) w2).
Proof.
  unfold disconnect. intros H.
  destruct (active_tag sid w) as [[c room]|] eqn:Et;
    [|injection H as <- <-; auto].
  destruct (findIndex (is_socket sid) (users room)) as [i|] eqn:Ei;
    [|injection H as <- <-; auto].
  destruct (nth_error (users room) i) as [user|] eqn:En; [|discriminate H].
  break_outcome H. break_outcome H. break_outcome H.
  injection H as <- <-. right. exists c, room, i, user, a.
  unfold departing, without. auto.
Qed.

Lemma leaveRoom_inv sid w w' out :
  leaveRoom sid w = Done (w', out) ->
  (w' = w /\ out = [])
  \/ (exists c room userIndex user w2,
         departing sid w c room userIndex user
         /\ record_left sid c user
              (set_roomCodes (assoc_delete sid (roomCodes w))
                 (set_joined (socket_leave sid c (joined w))
                    (set_rooms
                       (assoc_set c (without userIndex room) (rooms w)) w)))
            = Done w2
         /\ cleanup_if_empty c (without userIndex room) w2 = Done w'
         /\ out = socket_to sid c
                    (EUserLeft (username user)
                       (List.length (users (without userIndex room)))) w2
                  ++ [Deliver sid ELeftRoom]).
Proof.
  unfold leaveRoom. intros H.
  destruct (active_tag sid w) as [[c room]|] eqn:Et;
    [|injection H as <- <-; auto].
  destruct (findIndex (is_socket sid) (users room)) as [i|] eqn:Ei;
    [|injection H as <- <-; auto].
  destruct (nth_error (users room) i) as [user|] eqn:En; [|discriminate H].
  break_outcome H. break_outcome H.
  injection H as <- <-. right. exists c, room, i, user, a.
  unfold departing, without. auto.
Qed.

End Handlers.

(* ------------------------------------------------------------------ *)
(** ** The handlers keep the invariant *)

Lemma find_is_socket_None sid l :
  find (is_socket sid) l = None -> ~ In sid (map socketId l).
Proof.
  induction l as [|u l IH]; simpl; [tauto|].
  unfold is_socket at 1. destruct (String.eqb_spec (socketId u) sid); [discriminate|].
  intros H [E|Hin]; [contradiction|]. now apply IH.
Qed.

Lemma find_is_socket_Some sid l u :
  find (is_socket sid) l = Some u -> In u l /\ socketId u = sid.
Proof.
  intros H. apply find_some in H. destruct H as [H1 H2].
  split; [assumption|]. now apply String.eqb_eq.
Qed.

Lemma room_ok_same_users w c r r' :
  users r' = users r -> room_ok w c r -> room_ok w c r'.
Proof. unfold room_ok. now intros ->. Qed.

Lemma room_ok_without w c r i : room_ok w c r -> room_ok w c (without i r).
Proof.
  intros (H1 & H2 & H3 & H4 & H5). unfold without, room_ok.
  cbn [users set_users]. repeat split; auto.
  - pose proof (length_splice1 i (users r)). lia.
  - rewrite map_splice1. now apply NoDup_splice1.
  - apply Forall_forall. intros u Hu. apply In_splice1 in Hu.
    rewrite Forall_forall in H5. auto.
Qed.

Section Preservation.
Variable rnd : nat -> N.
Variable fuel : nat.

Lemma assign_name_cursor name w :
  cursor_only w (snd (assign_name rnd name w)).
Proof.
  unfold assign_name. destruct (JS.truthy name); cbn; [apply cursor_only_refl|].
  reflexivity.
Qed.

Lemma assign_name_truthy name w :
  JS.truthy (fst (assign_name rnd name w)) = true.
Proof.
  unfold assign_name. destruct (JS.truthy name) eqn:E; cbn; [assumption|].
  reflexivity.
Qed.

Lemma assign_name_to_string name w fallback t :
  JS.to_string (JS.or name fallback) = Done t ->
  exists s, JS.to_string (fst (assign_name rnd name w)) = Done s.
Proof.
  unfold assign_name, JS.or. destruct (JS.truthy name); cbn; eauto.
Qed.

Lemma Inv_cursor_only w w' : cursor_only w w' -> Inv w -> Inv w'.
Proof. unfold cursor_only. intros -> H. now apply Inv_cursor. Qed.

Lemma joinRoom_Inv sid now data w w' out :
  Inv w -> joinRoom rnd sid now data w = Done (w', out) -> Inv w'.
Proof.
  intros HI H. apply joinRoom_inv in H.
  destruct H as [[-> _]|(c & name & room & _ & _ & Hadm & Hs)]; [assumption|].
  destruct Hadm as (Hc & Hroom & Hlen & Hfind & t & Ht & _ & _).
  unfold join_success in Hs.
  pose proof (assign_name_cursor name w) as Hcur.
  pose proof (assign_name_truthy name w) as Htr.
  pose proof (assign_name_to_string name w _ _ Ht) as Hstr.
  destruct (assign_name rnd name w) as [assigned w1]. cbn [fst snd] in *.
  injection Hs as -> _.
  pose proof (Inv_cursor_only _ _ Hcur HI) as HI1.
  apply (Inv_set_room (enter sid c w1) c); [now apply Inv_enter|].
  assert (Hroom1 : assoc_get c (rooms w1) = Some room).
  { unfold cursor_only in Hcur. rewrite Hcur. exact Hroom. }
  destruct (inv_rooms _ (Inv_enter _ sid c HI1 Hc) c room Hroom1)
    as (R1 & R2 & R3 & R4 & R5).
  repeat split; auto; cbn [users push_user set_users set_expiresAt set_lastActivity].
  - rewrite length_app. cbn. lia.
  - rewrite map_app. cbn. apply NoDup_app; auto.
    + repeat constructor. intros [].
    + intros s Hs [<-|[]]. now apply (find_is_socket_None _ _ Hfind).
  - apply Forall_app. split; [assumption|]. repeat constructor; cbn; auto.
    intros _. apply In_socket_join. now left.
Qed.

Lemma createRoom_Inv sid now data w w' out :
  Inv w -> createRoom rnd fuel sid now data w = Done (w', out) -> Inv w'.
Proof.
  intros HI H. apply createRoom_inv in H.
  destruct H as (name & code & w1 & _ & Hgen & (t & Ht) & Hs).
  apply generateUniqueRoomCode_spec in Hgen.
  destruct Hgen as (Hc & (n & ->) & _).
  set (w1 := set_usedCodes _ _) in *.
  assert (HI1 : Inv w1)
    by (apply (Inv_used_add (set_cursor n w)); now apply Inv_cursor).
  assert (Hused : In code (usedCodes w1))
    by (cbn; apply In_set_add; now left).
  unfold create_success in Hs.
  set (room0 := mkRoom [] [] _ _ _ None) in *.
  set (w2 := set_rooms (assoc_set code room0 (rooms w1)) w1) in *.
  assert (HI2 : Inv w2).
  { apply Inv_set_room; [assumption|].
    repeat split; auto; cbn; try lia; constructor. }
  pose proof (assign_name_cursor name w2) as Hcur.
  pose proof (assign_name_truthy name w2) as Htr.
  assert (Hstr : exists s, JS.to_string (fst (assign_name rnd name w2)) = Done s).
  { exists t. rewrite <- Ht. unfold assign_name.
    destruct (JS.truthy name); reflexivity. }
  destruct (assign_name rnd name w2) as [assigned w3]. cbn [fst snd] in *.
  injection Hs as -> _.
  pose proof (Inv_cursor_only _ _ Hcur HI2) as HI3.
  apply (Inv_set_room (enter sid code w3) code); [now apply Inv_enter|].
  assert (Hused3 : In code (usedCodes w3)).
  { unfold cursor_only in Hcur. rewrite Hcur. exact Hused. }
  repeat split; auto; cbn; try lia.
  - repeat constructor. intros [].
  - repeat constructor; cbn; auto.
    intros _. apply In_socket_join. now left.
Qed.

Lemma sendMessage_Inv sid now data w w' out :
  Inv w -> sendMessage rnd sid now data w = Done (w', out) -> Inv w'.
Proof.
  intros HI H. apply sendMessage_inv in H.
  destruct H as [[-> _]|(c & room & user & s & _ & Ht & _ & Hs)]; [assumption|].
  apply active_tag_Some in Ht. destruct Ht as (_ & _ & Hroom).
  unfold send_success in Hs. cbn [random] in Hs. injection Hs as -> _.
  apply (Inv_set_room (set_cursor _ w)); [now apply Inv_cursor|].
  eapply room_ok_same_users; [|apply (inv_rooms _ (Inv_cursor _ _ HI) c room Hroom)].
  reflexivity.
Qed.

Lemma relay_Inv sid ev w w' out :
  Inv w -> relay sid ev w = Done (w', out) -> Inv w'.
Proof.
  unfold relay. intros HI H.
  destruct (active_tag sid w) as [[c r]|]; now injection H as <- _.
Qed.

Lemma voiceChat_Inv sid b ev w w' out :
  Inv w -> voiceChat sid b ev w = Done (w', out) -> Inv w'.
Proof.
  unfold voiceChat. intros HI H.
  destruct (active_tag sid w) as [[c r]|] eqn:Et; injection H as <- _;
    [|assumption].
  apply active_tag_Some in Et. destruct Et as (_ & _ & Hroom).
  apply Inv_set_room; [assumption|].
  eapply room_ok_same_users; [|apply (inv_rooms _ HI c r Hroom)]. reflexivity.
Qed.

Lemma cleanup_Inv c room w w' :
  Inv w -> cleanup_if_empty c room w = Done w' -> Inv w'.
Proof.
  intros HI H. apply cleanup_if_empty_inv in H. subst w'.
  destruct (_ =? 0); [now apply Inv_destroy|assumption].
Qed.

Lemma record_left_Inv sid c user w w' :
  Inv w -> record_left sid c user w = Done w' -> Inv w'.
Proof.
  intros HI H. apply record_left_inv in H. destruct H as (t & _ & ->).
  now apply Inv_usernameSessions, Inv_userSessions.
Qed.

Lemma departing_gone sid w c room i user :
  Inv w -> departing sid w c room i user ->
  socketId user = sid
  /\ ~ In sid (map socketId (users (without i room))).
Proof.
  intros HI (Ht & Hi & Hn).
  apply active_tag_Some in Ht. destruct Ht as (_ & _ & Hroom).
  destruct (findIndex_nth _ _ _ Hi) as (x & Hx & Hp).
  rewrite Hn in Hx. injection Hx as <-.
  apply String.eqb_eq in Hp. split; [assumption|].
  destruct (inv_rooms _ HI c room Hroom) as (_ & _ & _ & Hnd & _).
  unfold without. cbn. rewrite map_splice1. rewrite <- Hp.
  apply NoDup_splice1_gone; [assumption|].
  now apply map_nth_error.
Qed.

Lemma disconnect_Inv sid w w' out :
  Inv w -> disconnect sid w = Done (w', out) -> Inv w'.
Proof.
  intros HI H. apply disconnect_inv in H.
  destruct H as [[-> _]|(c & room & i & user & w2 & Hd & Hrec & Hcl & _)];
    [assumption|].
  destruct Hd as (Ht & _ & _).
  apply active_tag_Some in Ht. destruct Ht as (_ & _ & Hroom).
  eapply cleanup_Inv; [|exact Hcl].
  eapply record_left_Inv; [|exact Hrec].
  apply Inv_set_room; [assumption|].
  apply room_ok_without. now apply (inv_rooms _ HI).
Qed.

Lemma leaveRoom_Inv sid w w' out :
  Inv w -> leaveRoom sid w = Done (w', out) -> Inv w'.
Proof.
  intros HI H. apply leaveRoom_inv in H.
  destruct H as [[-> _]|(c & room & i & user & w2 & Hd & Hrec & Hcl & _)];
    [assumption|].
  pose proof (departing_gone _ _ _ _ _ _ HI Hd) as [_ Hgone].
  destruct Hd as (Ht & _ & _).
  apply active_tag_Some in Ht. destruct Ht as (_ & _ & Hroom).
  eapply cleanup_Inv; [|exact Hcl].
  eapply record_left_Inv; [|exact Hrec].
  set (w1 := set_rooms (assoc_set c (without i room) (rooms w)) w).
  apply (Inv_untag (set_joined (socket_leave sid c (joined w1)) w1)).
  apply (Inv_socket_leave w1).
  - apply Inv_set_room; [assumption|].
    apply room_ok_without. now apply (inv_rooms _ HI).
  - subst w1. cbn [rooms set_rooms]. intros r. rewrite assoc_get_set_same.
    now intros [= <-].
Qed.

End Preservation.

(* ------------------------------------------------------------------ *)
(** ** The expiry sweep *)

Lemma sweep_fold now l w out :
  fold_left (sweep_entry now) l (w, out)
  = (destroy_all (expired_codes now l) w,
     out ++ flat_map (fun c => io_to c ERoomExpired w) (expired_codes now l)).
Proof.
  revert w out. induction l as [|[c r] l IH]; intros w out.
  - cbn. now rewrite app_nil_r.
  - cbn [fold_left sweep_entry]. unfold expired_codes. cbn [filter snd].
    destruct (now >? expiresAt r)%Z.
    + fold (destroy c w). rewrite IH. cbn [map fst flat_map destroy_all fold_left].
      rewrite <- app_assoc. reflexivity.
    + apply IH.
Qed.

Lemma sweep_eq now w :
  sweep now w
  = (destroy_all (expired_codes now (rooms w)) w,
     flat_map (fun c => io_to c ERoomExpired w) (expired_codes now (rooms w))).
Proof. unfold sweep. now rewrite sweep_fold. Qed.

Lemma destroy_all_rooms cs w c :
  assoc_get c (rooms (destroy_all cs w))
  = if set_has c cs then None else assoc_get c (rooms w).
Proof.
  revert w. induction cs as [|c' cs IH]; intros w; [reflexivity|].
  cbn [destroy_all fold_left]. fold (destroy_all cs (destroy c' w)).
  rewrite IH. cbn [set_has existsb]. fold (set_has c cs).
  destruct (set_has c cs); [now rewrite orb_true_r|].
  rewrite orb_false_r. cbn [destroy rooms set_usedCodes set_rooms].
  rewrite assoc_get_delete. rewrite (String.eqb_sym c c'). reflexivity.
Qed.

Lemma destroy_all_usedCodes cs w c :
  In c (usedCodes (destroy_all cs w)) <-> In c (usedCodes w) /\ ~ In c cs.
Proof.
  revert w. induction cs as [|c' cs IH]; intros w; [cbn; tauto|].
  cbn [destroy_all fold_left]. fold (destroy_all cs (destroy c' w)).
  rewrite IH. cbn [destroy usedCodes set_usedCodes set_rooms].
  rewrite In_set_delete. cbn [In]. intuition congruence.
Qed.

Lemma destroy_all_frame cs w :
  userSessions (destroy_all cs w) = userSessions w
  /\ usernameSessions (destroy_all cs w) = usernameSessions w
  /\ roomCodes (destroy_all cs w) = roomCodes w
  /\ joined (destroy_all cs w) = joined w
  /\ closed (destroy_all cs w) = closed w
  /\ cursor (destroy_all cs w) = cursor w.
Proof.
  revert w. induction cs as [|c' cs IH]; intros w; [cbn; auto 10|].
  cbn [destroy_all fold_left]. fold (destroy_all cs (destroy c' w)).
  apply (IH (destroy c' w)).
Qed.

Lemma destroy_all_Inv cs w : Inv w -> Inv (destroy_all cs w).
Proof.
  revert w. induction cs as [|c' cs IH]; intros w HI; [assumption|].
  cbn [destroy_all fold_left]. apply IH. now apply Inv_destroy.
Qed.

Lemma In_expired_codes now l c r :
  In (c, r) l -> (now > expiresAt r)%Z -> In c (expired_codes now l).
Proof.
  intros Hin Hexp. unfold expired_codes.
  apply (in_map fst _ (c, r)). apply filter_In. split; [assumption|].
  cbn. now apply Z.gtb_gt.
Qed.

(* ------------------------------------------------------------------ *)
(** ** Reachable states *)

Section Reachability.
Variable rnd : nat -> N.

Lemma handle_Inv fuel sid now a w w' out :
  Inv w -> handle rnd fuel sid now a w = Done (w', out) -> Inv w'.
Proof.
  intros HI. destruct a; cbn [handle].
  - now apply joinRoom_Inv.
  - now apply createRoom_Inv.
  - now apply sendMessage_Inv.
  - intros H. apply typing_inv in H. now destruct H as [-> _].
  - apply disconnect_Inv. now apply Inv_close.
  - now apply leaveRoom_Inv.
  - now apply relay_Inv.
  - now apply relay_Inv.
  - now apply relay_Inv.
  - now apply voiceChat_Inv.
  - now apply voiceChat_Inv.
Qed.

Lemma step_Inv fuel e w w' out :
  Inv w -> step rnd fuel w e = Done (w', out) -> Inv w'.
Proof.
  intros HI. destruct e as [sid now a|now|]; cbn [step].
  - destruct (set_has sid (closed w)); [now intros [= <- _]|].
    now apply handle_Inv.
  - rewrite sweep_eq. intros [= <- _]. now apply destroy_all_Inv.
  - intros H. break_outcome H. destruct a as [code w1]. injection H as <- _.
    apply generateUniqueRoomCode_spec in E. destruct E as (_ & (n & ->) & _).
    apply (Inv_used_add (set_cursor n w)). now apply Inv_cursor.
Qed.

Lemma reachable_Inv w : reachable rnd w -> Inv w.
Proof.
  induction 1 as [|fuel w e w' out _ IH Hstep]; [apply Inv_init|].
  eapply step_Inv; eassumption.
Qed.

Lemma run_reachable fuel es w w' out :
  reachable rnd w -> run rnd fuel w es = Done (w', out) -> reachable rnd w'.
Proof.
  revert w w' out. induction es as [|e es IH]; intros w w' out Hw; cbn [run].
  - now intros [= <- _].
  - intros H. break_outcome H. break_outcome H. injection H as <- _.
    destruct a as [w1 o1], a0 as [w2 o2]. cbn [fst snd] in *.
    eapply IH; [|exact E0]. eapply reach_step; eassumption.
Qed.

End Reachability.

(** Why [user_ok] speaks of open connections: the handlers act on the room
    named by the caller's [roomCode] only, so a connection that created a
    second room stays listed in the first one after it has disconnected,
    until the sweep removes that room. *)
Example listed_connection_may_be_closed :
  let w := world_after counting 0 two_rooms_one_connection in
  map (fun cr => (fst cr, map socketId (users (snd cr)))) (rooms w)
  = [("0000", ["A"])]
  /\ closed w = ["A"]
  /\ joined w = []
  /\ step counting 0 w (Tick 700000)
     = Done (set_usedCodes [] (set_rooms [] w), []).
Proof. cbv zeta. evaluate_all. Qed.

(* ------------------------------------------------------------------ *)
(** ** The scenario of the specification *)

(** Al creates a room and is given "4821"; Bob joins and both see two
    participants; Bob's "hello" reaches both; Bob leaves and Al sees one
    participant; Al leaves and the room and its code are released; Cleo's new
    room is given "4821" again, and Bob is still refused. *)
Example scenario_outputs :
  output_after always_4821 0 scenario
  = [Deliver "A" (EJoinedRoom "4821" (JS.Str "Al") 1 []);
     Deliver "B" (EJoinedRoom "4821" (JS.Str "Bob") 2 []);
     Deliver "A" (EUserJoined (JS.Str "Bob") 2);
     Deliver "A" (ENewMessage (mkMessage (2%Z, 4821%N) (JS.Str "Bob") "hello" 2 "B"));
     Deliver "B" (ENewMessage (mkMessage (2%Z, 4821%N) (JS.Str "Bob") "hello" 2 "B"));
     Deliver "A" (EUserLeft (JS.Str "Bob") 1);
     Deliver "B" ELeftRoom;
     Deliver "A" ELeftRoom;
     Deliver "C" (EJoinedRoom "4821" (JS.Str "Cleo") 1 []);
     Deliver "B" (EError msgRejoinForbidden)]
  /\ usedCodes (world_after always_4821 0 (firstn 5 scenario)) = []
  /\ rooms (world_after always_4821 0 (firstn 5 scenario)) = [].
Proof. evaluate_all. Qed.

(* ------------------------------------------------------------------ *)
(** ** Capacity of a room *)

Lemma get_Done_any data f v f' :
  JS.get data f = Done v -> exists v', JS.get data f' = Done v'.
Proof. destruct data; simpl; try discriminate; eauto. Qed.

(** C1. After every sequence of events (createRoom and joinRoom among them)
    no room lists more than 2 participants, and a [joinRoom] for the code of a
    room that lists 2 participants replies [roomFull] to the caller and
    returns the state as it was: rooms, messages, deadlines, ledger and all. *)
Theorem room_never_exceeds_two rnd fuel es w out :
  run rnd fuel init es = Done (w, out) ->
  (forall c room,
      assoc_get c (rooms w) = Some room -> List.length (users room) <= 2)
  /\ (forall sid now data c room,
         JS.get data "code" = Done (JS.Str c) ->
         assoc_get c (rooms w) = Some room ->
         List.length (users room) = 2 ->
         joinRoom rnd sid now data w = Done (w, [Deliver sid ERoomFull])).
Proof.
  intros Hrun.
  assert (HI : Inv w).
  { eapply reachable_Inv, run_reachable; [apply reach_init|exact Hrun]. }
  split.
  - intros c room Hroom. now destruct (inv_rooms _ HI c room Hroom) as (_ & _ & H & _).
  - intros sid now data c room Hcode Hroom Hlen.
    destruct (inv_rooms _ HI c room Hroom) as (Hc & _).
    destruct (get_Done_any _ _ _ "username" Hcode) as [name Hname].
    unfold joinRoom. rewrite Hcode, Hname. cbn [bind JS.to_string].
    rewrite Hc. cbn [negb]. rewrite Hroom, Hlen. reflexivity.
Qed.

Lemma room_never_exceeds_two_witness :
  let w := world_after zeros 0 two_in_a_room in
  joinRoom zeros "C" 2 (join_payload "0000" "Cy") w
  = Done (w, [Deliver "C" ERoomFull]).
Proof.
  intros w.
  refine (proj2 (room_never_exceeds_two zeros 0 two_in_a_room w _ _)
                "C" 2%Z (join_payload "0000" "Cy") "0000" _ _ _ _).
  - vm_compute. reflexivity.
  - reflexivity.
  - vm_compute. reflexivity.
  - reflexivity.
Defined.

(* ------------------------------------------------------------------ *)
(** ** The session ledger *)




Section Ledger.
Variable rnd : nat -> N.




Lemma assign_name_frame name w :
  exists n, snd (assign_name rnd name w) = set_cursor n w.
Proof.
  exists (cursor (snd (assign_name rnd name w))).
  apply assign_name_cursor.
Qed.





End Ledger.

(* ------------------------------------------------------------------ *)
(** ** Departures *)

Lemma departing_intro sid w c room user :
  active_tag sid w = Some (c, room) ->
  find (is_socket sid) (users room) = Some user ->
  exists i, departing sid w c room i user.
Proof.
  intros Ht Hf. pose proof (findIndex_find (is_socket sid) (users room)) as H.
  destruct (findIndex (is_socket sid) (users room)) as [i|] eqn:Ei.
  - destruct H as (x & Hx & Hn). rewrite Hf in Hx. injection Hx as <-.
    exists i. repeat split; assumption.
  - congruence.
Qed.

Lemma leaveRoom_departing sid w c room i user :
  departing sid w c room i user ->
  leaveRoom sid w
  = (w2 <- record_left sid c user
             (set_roomCodes (assoc_delete sid (roomCodes w))
                (set_joined (socket_leave sid c (joined w))
                   (set_rooms (assoc_set c (without i room) (rooms w)) w))) ;;
     w3 <- cleanup_if_empty c (without i room) w2 ;;
     Done (w3,
           socket_to sid c
             (EUserLeft (username user) (List.length (users (without i room))))
             w2
           ++ [Deliver sid ELeftRoom])).
Proof. unfold leaveRoom. intros (-> & -> & ->). reflexivity. Qed.

Lemma disconnect_departing sid w c room i user :
  departing sid w c room i user ->
  disconnect sid w
  = (w2 <- record_left sid c user
             (set_rooms (assoc_set c (without i room) (rooms w)) w) ;;
     JS.log [JS.Str "User "; username user; JS.Str " left room "; JS.Str c] ;;;
     w3 <- cleanup_if_empty c (without i room) w2 ;;
     Done (w3,
           socket_to sid c
             (EUserLeft (username user) (List.length (users (without i room))))
             w2)).
Proof. unfold disconnect. intros (-> & -> & ->). reflexivity. Qed.

Lemma departing_close sid w c room i user :
  departing sid w c room i user ->
  departing sid (close_socket sid w) c room i user.
Proof. intros H. exact H. Qed.

Section DepartureFacts.
Variable rnd : nat -> N.

(** The state in which the ledger entries of a departure are written. *)
Lemma departure_records fuel sid now a w c room i user w' out :
  is_departure a ->
  departing sid w c room i user ->
  handle rnd fuel sid now a w = Done (w', out) ->
  exists w1 w2,
    record_left sid c user w1 = Done w2
    /\ cleanup_if_empty c (without i room) w2 = Done w'
    /\ rooms w1 = assoc_set c (without i room) (rooms w)
    /\ usedCodes w1 = usedCodes w
    /\ userSessions w1 = userSessions w
    /\ usernameSessions w1 = usernameSessions w.
Proof.
  intros [->| ->] Hd; cbn [handle].
  - rewrite (leaveRoom_departing _ _ _ _ _ _ Hd). intros H.
    break_outcome H. break_outcome H. injection H as <- _.
    refine (ex_intro _ _ (ex_intro _ a (conj E (conj E0 _)))).
    cbn. auto.
  - rewrite (disconnect_departing _ _ _ _ _ _ (departing_close _ _ _ _ _ _ Hd)).
    intros H. break_outcome H. break_outcome H. break_outcome H.
    injection H as <- _.
    refine (ex_intro _ _ (ex_intro _ a (conj E (conj E1 _)))).
    cbn. auto.
Qed.


End DepartureFacts.




(* ------------------------------------------------------------------ *)
(** ** The allocator on reachable states *)

Section AllocatorDraws.
Variable rnd : nat -> N.

(** The first loop reads one draw per attempt and stops at [maxAttempts]. *)
Lemma attempt_loop_draws n attempts w :
  let '(code, attempts', w') := attempt_loop rnd n attempts w in
  attempts < attempts'
  /\ cursor w' = cursor w + (attempts' - attempts)
  /\ (attempts' <= maxAttempts \/ attempts' = S attempts).
Proof.
  revert attempts w. induction n as [|n IH]; intros attempts w.
  - cbn [attempt_loop]. rewrite sample_code_eq. cbn [cursor set_cursor].
    repeat split; try lia.
  - cbn [attempt_loop]. rewrite sample_code_eq. cbn [usedCodes set_cursor].
    destruct (set_has _ (usedCodes w) && (S attempts <? maxAttempts)) eqn:Hc.
    + apply andb_true_iff in Hc. destruct Hc as [_ Hlt].
      apply Nat.ltb_lt in Hlt.
      specialize (IH (S attempts) (set_cursor (S (cursor w)) w)).
      destruct (attempt_loop rnd n (S attempts) _) as [[c a] w'].
      destruct IH as (H1 & H2 & H3). cbn [cursor set_cursor] in H2.
      repeat split; try lia.
    + cbn [cursor set_cursor]. repeat split; try lia.
Qed.

Lemma fallback_loop_cursor k w r :
  fallback_loop rnd k w = Done r -> cursor w < cursor (snd r).
Proof.
  revert w r. induction k as [|k IH]; intros w r; [discriminate|].
  cbn [fallback_loop]. rewrite sample_code_eq.
  destruct (assoc_has _ _).
  - intros H. apply IH in H. cbn [cursor set_cursor] in H. lia.
  - intros [= <-]. cbn. lia.
Qed.

Lemma generateUniqueRoomCode_total fuel w i :
  i < fuel ->
  assoc_has (code_of (rnd (cursor w + maxAttempts + i))) (rooms w) = false ->
  exists code w', generateUniqueRoomCode rnd fuel w = Done (code, w').
Proof.
  intros Hi Hfree. unfold generateUniqueRoomCode.
  pose proof (attempt_loop_draws maxAttempts 0 w) as Hd.
  assert (Hm : maxAttempts <= S (maxAttempts + 0)) by lia.
  pose proof (attempt_loop_spec rnd maxAttempts 0 w Hm) as Hs.
  destruct (attempt_loop rnd maxAttempts 0 w) as [[c a] w1].
  destruct Hd as (D1 & D2 & D3). destruct Hs as (_ & Hcur & _).
  destruct (Nat.leb_spec maxAttempts a) as [Hge|Hlt].
  - assert (Ha : a = maxAttempts).
    { destruct D3 as [D3|D3]; [lia|]. unfold maxAttempts in *. lia. }
    destruct (fallback_loop_total rnd fuel w1 i Hi) as [[c2 w2] Hfb].
    + unfold cursor_only in Hcur. rewrite Hcur at 2. cbn [rooms set_cursor].
      rewrite D2, Ha, Nat.sub_0_r. exact Hfree.
    + rewrite Hfb. cbn. eauto.
  - cbn. eauto.
Qed.

Lemma generateUniqueRoomCode_draws fuel w code w' :
  generateUniqueRoomCode rnd fuel w = Done (code, w') ->
  cursor w' < cursor w + maxAttempts ->
  set_has code (usedCodes w) = false.
Proof.
  unfold generateUniqueRoomCode.
  pose proof (attempt_loop_draws maxAttempts 0 w) as Hd.
  assert (Hm : maxAttempts <= S (maxAttempts + 0)) by lia.
  pose proof (attempt_loop_spec rnd maxAttempts 0 w Hm) as Hs.
  destruct (attempt_loop rnd maxAttempts 0 w) as [[c a] w1].
  destruct Hd as (D1 & D2 & D3). destruct Hs as (_ & Hcur & Hexit).
  destruct (Nat.leb_spec maxAttempts a) as [Hge|Hlt].
  - destruct (fallback_loop rnd fuel w1) as [[c2 w2]| |] eqn:Hfb;
      cbn; try discriminate.
    intros [= <- <-]. cbn [cursor set_usedCodes].
    apply fallback_loop_cursor in Hfb. cbn [snd] in Hfb. lia.
  - cbn. intros [= <- <-] _. destruct Hexit as [H|H]; [exact H|lia].
Qed.

End AllocatorDraws.

(** C3, as amended.  In every reachable state a call of the allocator that
    returns yields a 4-digit decimal string that is the code of no active
    room and is in the used-code set on return; the code was outside the
    used-code set whenever fewer than [maxAttempts] draws were read (after
    that the fallback only avoids the codes of active rooms).  The call does
    return as soon as one of the draws after the first [maxAttempts] misses
    the room store. *)
Theorem allocator_code rnd fuel0 es w out0 fuel :
  run rnd fuel0 init es = Done (w, out0) ->
  (forall code w',
      generateUniqueRoomCode rnd fuel w = Done (code, w') ->
      JS.test_4digits code = true
      /\ assoc_get code (rooms w) = None
      /\ (cursor w' < cursor w + maxAttempts ->
          set_has code (usedCodes w) = false)
      /\ usedCodes w' = set_add code (usedCodes w)
      /\ In code (usedCodes w'))
  /\ (forall i,
         i < fuel ->
         assoc_has (code_of (rnd (cursor w + maxAttempts + i))) (rooms w) = false ->
         exists code w', generateUniqueRoomCode rnd fuel w = Done (code, w')).
Proof.
  intros Hrun.
  assert (HI : Inv w).
  { eapply reachable_Inv, run_reachable; [apply reach_init|exact Hrun]. }
  split.
  - intros code w' Hgen.
    pose proof (generateUniqueRoomCode_draws _ _ _ _ _ Hgen) as Hdraws.
    apply generateUniqueRoomCode_spec in Hgen.
    destruct Hgen as (Hc & (n & ->) & Hfresh).
    split; [assumption|]. split; [|split; [assumption|split]].
    + destruct Hfresh as [Hfresh|Hfresh]; [|assumption].
      destruct (assoc_get code (rooms w)) as [room|] eqn:Hroom; [|reflexivity].
      destruct (inv_rooms _ HI code room Hroom) as (_ & Hused & _).
      apply set_has_false in Hfresh. contradiction.
    + reflexivity.
    + cbn. apply In_set_add. now left.
  - intros i. apply generateUniqueRoomCode_total.
Qed.

Lemma allocator_code_witness :
  generateUniqueRoomCode counting 1 (world_after counting 0 two_in_a_room)
  = Done ("0001", set_usedCodes ["0000"; "0001"]
                    (set_cursor 2 (world_after counting 0 two_in_a_room)))
  /\ JS.test_4digits "0001" = true
  /\ assoc_get "0001" (rooms (world_after counting 0 two_in_a_room)) = None.
Proof.
  assert (H : generateUniqueRoomCode counting 1
                (world_after counting 0 two_in_a_room)
              = Done ("0001", set_usedCodes ["0000"; "0001"]
                                (set_cursor 2 (world_after counting 0 two_in_a_room))))
    by (vm_compute; reflexivity).
  split; [exact H|].
  assert (R : run counting 0 init two_in_a_room
              = Done (world_after counting 0 two_in_a_room,
                      output_after counting 0 two_in_a_room))
    by (vm_compute; reflexivity).
  destruct (proj1 (allocator_code counting 0 two_in_a_room _ _ 1 R) _ _ H)
    as (A & B & _).
  split; assumption.
Defined.

(** C3 as stated fails on the used-code set: the HTTP endpoint reserves
    "0000" without creating a room; when the next [maxAttempts] draws all
    collide with it, the fallback, which looks at the room store only, returns
    "0000" again while it is in the used-code set. *)
Lemma allocator_returns_a_used_code :
  run zeros 1 init [GetGenerateRoomCode]
  = Done (mkWorld [] ["0000"] [] [] [] [] [] 1, [HttpJson "0000"])
  /\ set_has "0000" (usedCodes (mkWorld [] ["0000"] [] [] [] [] [] 1)) = true
  /\ generateUniqueRoomCode zeros 1 (mkWorld [] ["0000"] [] [] [] [] [] 1)
     = Done ("0000", mkWorld [] ["0000"] [] [] [] [] [] 102).
Proof. evaluate_all. Qed.

(* ------------------------------------------------------------------ *)
(** ** Destruction of a room *)

Lemma cleanup_if_empty_eq c room w :
  cleanup_if_empty c room w
  = Done (if List.length (users room) =? 0 then destroy c w else w).
Proof.
  unfold cleanup_if_empty, destroy. destruct (_ =? 0); [|reflexivity].
  unfold JS.log. cbn [JS.template JS.to_string bind rooms set_rooms].
  now rewrite assoc_delete_set.
Qed.

Lemma record_left_eq sid c user w t :
  JS.to_string (username user) = Done t ->
  record_left sid c user w
  = Done (set_usernameSessions
            (set_add (session_key t c) (usernameSessions w))
            (set_userSessions (set_add (session_key sid c) (userSessions w)) w)).
Proof.
  intros Ht. unfold record_left. cbn [JS.template JS.to_string bind].
  rewrite Ht. reflexivity.
Qed.

Lemma departing_user_ok sid w c room i user :
  Inv w -> departing sid w c room i user ->
  room_ok w c room /\ In user (users room) /\ user_ok w c user.
Proof.
  intros HI (Ht & _ & Hn). apply active_tag_Some in Ht.
  destruct Ht as (_ & _ & Hroom).
  pose proof (inv_rooms _ HI c room Hroom) as Hok.
  apply nth_error_In in Hn. split; [assumption|]. split; [assumption|].
  destruct Hok as (_ & _ & _ & _ & Hall). rewrite Forall_forall in Hall. auto.
Qed.

Section Destruction.
Variable rnd : nat -> N.

(** A departure of a listed participant always completes; the state it
    leaves is the ledger update followed by the clean-up. *)
Lemma departure_completes fuel sid now a w c room i user :
  Inv w -> is_departure a -> departing sid w c room i user ->
  exists w2 out,
    handle rnd fuel sid now a w
    = Done (if List.length (users (without i room)) =? 0
            then destroy c w2 else w2, out)
    /\ rooms w2 = assoc_set c (without i room) (rooms w)
    /\ usedCodes w2 = usedCodes w
    /\ (a = ALeaveRoom ->
        out = socket_to sid c
                (EUserLeft (username user)
                   (List.length (users (without i room)))) w2
              ++ [Deliver sid ELeftRoom])
    /\ (a = ADisconnect ->
        out = socket_to sid c
                (EUserLeft (username user)
                   (List.length (users (without i room)))) w2).
Proof.
  intros HI Ha Hd.
  destruct (departing_user_ok _ _ _ _ _ _ HI Hd) as (_ & _ & _ & (t & Ht) & _).
  destruct Ha as [->| ->]; cbn [handle].
  - rewrite (leaveRoom_departing _ _ _ _ _ _ Hd).
    rewrite (record_left_eq _ _ _ _ _ Ht). cbn [bind].
    rewrite cleanup_if_empty_eq. cbn [bind].
    eexists _, _. split; [reflexivity|]. cbn.
    repeat split; auto; discriminate.
  - rewrite (disconnect_departing _ _ _ _ _ _ (departing_close _ _ _ _ _ _ Hd)).
    rewrite (record_left_eq _ _ _ _ _ Ht). cbn [bind].
    unfold JS.log. cbn [JS.template JS.to_string bind]. rewrite Ht.
    cbn [bind]. rewrite cleanup_if_empty_eq. cbn [bind].
    eexists _, _. split; [reflexivity|]. cbn.
    repeat split; auto; discriminate.
Qed.

Lemma destroy_gone c w :
  assoc_get c (rooms (destroy c w)) = None /\ ~ In c (usedCodes (destroy c w)).
Proof.
  unfold destroy. cbn. split; [apply assoc_get_delete_same|].
  rewrite In_set_delete. tauto.
Qed.

Lemma sweep_gone now w c room :
  assoc_get c (rooms w) = Some room ->
  (now > expiresAt room)%Z ->
  assoc_get c (rooms (fst (sweep now w))) = None
  /\ ~ In c (usedCodes (fst (sweep now w))).
Proof.
  intros Hroom Hexp. rewrite sweep_eq. cbn [fst].
  assert (Hin : In c (expired_codes now (rooms w))).
  { eapply In_expired_codes; [apply assoc_get_In; exact Hroom|assumption]. }
  split.
  - rewrite destroy_all_rooms. apply set_has_In in Hin. now rewrite Hin.
  - rewrite destroy_all_usedCodes. tauto.
Qed.

Lemma createRoom_fresh_room fuel sid now data w w' out :
  createRoom rnd fuel sid now data w = Done (w', out) ->
  exists code assigned room',
    out = [Deliver sid (EJoinedRoom code assigned 1 [])]
    /\ assoc_get code (rooms w') = Some room'
    /\ messages room' = []
    /\ users room' = [mkUser sid assigned (reading now 3)]
    /\ expiresAt room' = (reading now 5 + ROOM_EXPIRY_TIME)%Z.
Proof.
  intros H. apply createRoom_inv in H.
  destruct H as (name & code & w1 & _ & _ & _ & Hs).
  unfold create_success in Hs.
  destruct (assign_name rnd name _) as [assigned w3].
  injection Hs as -> ->.
  eexists code, assigned, _. split; [reflexivity|].
  cbn [rooms enter set_roomCodes set_joined set_rooms].
  rewrite assoc_get_set_same. auto.
Qed.

(** [createRoom] returns when the payload is there, the name it carries, if
    truthy, converts to a string, and the allocator finds a code. *)
Lemma createRoom_completes fuel sid now data w name i :
  JS.get data "username" = Done name ->
  (JS.truthy name = true -> exists s, JS.to_string name = Done s) ->
  i < fuel ->
  assoc_has (code_of (rnd (cursor w + maxAttempts + i))) (rooms w) = false ->
  exists w' out, createRoom rnd fuel sid now data w = Done (w', out).
Proof.
  intros Hname Hconv Hi Hfree.
  destruct (generateUniqueRoomCode_total rnd fuel w i Hi Hfree)
    as (code & w1 & Hgen).
  unfold createRoom. rewrite Hname. cbn [bind]. rewrite Hgen. cbn [bind].
  unfold JS.log at 1. cbn [JS.template JS.to_string bind].
  match goal with
  | |- context [assign_name rnd name ?w2] =>
      assert (Hs : exists s, JS.to_string (fst (assign_name rnd name w2)) = Done s)
        by (unfold assign_name; destruct (JS.truthy name); cbn; eauto);
      destruct (assign_name rnd name w2) as [assigned w3]
  end.
  cbn [fst] in Hs. destruct Hs as [s Hs].
  unfold JS.log. cbn [JS.template JS.to_string bind]. rewrite Hs. cbn [bind].
  eauto.
Qed.

End Destruction.

(** C4, as amended.  In every reachable state: when [leaveRoom] or a
    disconnection comes from the only participant of the room that the
    caller's [roomCode] tag names, and when the sweep finds a room past its
    deadline, the event completes and afterwards the room store has no entry
    under the code (so no history is kept for it) and the code is out of the
    used-code set.  A [createRoom] that returns installs a room whose history
    is empty, which is the history its creator is sent; and [createRoom]
    does return when its payload is there, the name it carries, if truthy,
    converts to a string, and the allocator finds a code: one of its draws
    after the first [maxAttempts] misses the room store. *)
Theorem destruction_clears_and_creation_starts_empty rnd fuel0 es w out0 :
  run rnd fuel0 init es = Done (w, out0) ->
  (forall fuel sid now a c room user,
      is_departure a ->
      set_has sid (closed w) = false ->
      active_tag sid w = Some (c, room) ->
      users room = [user] ->
      socketId user = sid ->
      exists w' out,
        step rnd fuel w (FromSocket sid now a) = Done (w', out)
        /\ assoc_get c (rooms w') = None
        /\ ~ In c (usedCodes w'))
  /\ (forall fuel now c room,
         assoc_get c (rooms w) = Some room ->
         (now > expiresAt room)%Z ->
         exists w' out,
           step rnd fuel w (Tick now) = Done (w', out)
           /\ assoc_get c (rooms w') = None
           /\ ~ In c (usedCodes w'))
  /\ (forall fuel sid now data w' out,
         step rnd fuel w (FromSocket sid now (ACreateRoom data)) = Done (w', out) ->
         set_has sid (closed w) = false ->
         exists code assigned room',
           out = [Deliver sid (EJoinedRoom code assigned 1 [])]
           /\ assoc_get code (rooms w') = Some room'
           /\ messages room' = [])
  /\ (forall fuel sid now data name i,
         JS.get data "username" = Done name ->
         (JS.truthy name = true -> exists s, JS.to_string name = Done s) ->
         i < fuel ->
         assoc_has (code_of (rnd (cursor w + maxAttempts + i))) (rooms w) = false ->
         exists w' out,
           step rnd fuel w (FromSocket sid now (ACreateRoom data)) = Done (w', out)).
Proof.
  intros Hrun.
  assert (HI : Inv w).
  { eapply reachable_Inv, run_reachable; [apply reach_init|exact Hrun]. }
  split; [|split; [|split]].
  - intros fuel sid now a c room user Ha Hopen Htag Husers Hsid.
    assert (Hd : departing sid w c room 0 user).
    { split; [assumption|]. rewrite Husers. cbn. unfold is_socket.
      rewrite Hsid, String.eqb_refl. auto. }
    destruct (departure_completes rnd fuel sid now a w c room 0 user HI Ha Hd)
      as (w2 & out & Hstep & _).
    cbn [step]. rewrite Hopen, Hstep.
    unfold without. rewrite Husers. cbn [splice1 users set_users List.length Nat.eqb].
    eexists _, out. split; [reflexivity|]. apply destroy_gone.
  - intros fuel now c room Hroom Hexp. cbn [step].
    exists (fst (sweep now w)), (snd (sweep now w)).
    split; [now destruct (sweep now w)|]. now apply (sweep_gone now w c room).
  - intros fuel sid now data w' out Hstep Hopen.
    cbn [step handle] in Hstep. rewrite Hopen in Hstep.
    apply createRoom_fresh_room in Hstep.
    destruct Hstep as (code & assigned & room' & H1 & H2 & H3 & _).
    exists code, assigned, room'. auto.
  - intros fuel sid now data name i Hname Hconv Hi Hfree. cbn [step handle].
    destruct (set_has sid (closed w)); [eauto|].
    now apply (createRoom_completes rnd fuel sid now data w name i).
Qed.

Lemma destruction_clears_and_creation_starts_empty_witness :
  exists w' out,
    step zeros 0 (world_after zeros 0 alone_with_history)
         (FromSocket "A" 2 ADisconnect) = Done (w', out)
    /\ assoc_get "0000" (rooms w') = None
    /\ ~ In "0000" (usedCodes w').
Proof.
  assert (R : run zeros 0 init alone_with_history
              = Done (world_after zeros 0 alone_with_history,
                      output_after zeros 0 alone_with_history))
    by (vm_compute; reflexivity).
  eapply (proj1 (destruction_clears_and_creation_starts_empty
                   zeros 0 alone_with_history _ _ R)
                0 "A" 2%Z ADisconnect "0000" _ _).
  - right. reflexivity.
  - vm_compute. reflexivity.
  - vm_compute. reflexivity.
  - vm_compute. reflexivity.
  - reflexivity.
Defined.

(** C4 as stated fails for a last participant whose tag names another room:
    Ann writes "secret" in her room "0000", creates a second room, "0002",
    and disconnects.  The handler empties and destroys "0002"; room "0000",
    which lists nobody but her closed connection, stays in the store with
    its code and its history, and Bea, who joins it next, is sent the
    message. *)
Lemma history_survives_the_last_participant :
  set_has "A" (closed (world_after counting 0 tagged_elsewhere_with_history))
  = true
  /\ map (fun cr => (fst cr,
                     map socketId (users (snd cr)),
                     map msg_message (messages (snd cr))))
         (rooms (world_after counting 0 tagged_elsewhere_with_history))
     = [("0000", ["A"], ["secret"])]
  /\ usedCodes (world_after counting 0 tagged_elsewhere_with_history) = ["0000"]
  /\ received "B"
       (output_after counting 0
          (tagged_elsewhere_with_history
           ++ [FromSocket "B" 4 (AJoinRoom (join_payload "0000" "Bea"))]))
     = [EJoinedRoom "0000" (JS.Str "Bea") 2
          [mkMessage (1%Z, 1%N) (JS.Str "Ann") "secret" 1 "A"]].
Proof. evaluate_all. Qed.

(* ------------------------------------------------------------------ *)
(** ** Broadcasts *)

Lemma In_group sid c w : In sid (group c w) <-> In (sid, c) (joined w).
Proof.
  unfold group. rewrite in_map_iff. split.
  - intros ([a b] & E & Hin). apply filter_In in Hin. destruct Hin as [Hin Hb].
    cbn in *. apply String.eqb_eq in Hb. now subst.
  - intros Hin. exists (sid, c). split; [reflexivity|].
    apply filter_In. split; [assumption|]. cbn. apply String.eqb_refl.
Qed.

Lemma NoDup_group c w : NoDup (joined w) -> NoDup (group c w).
Proof.
  unfold group. induction (joined w) as [|[a b] l IH]; intros H; cbn.
  - constructor.
  - inversion H as [|? ? Hnotin Hl]; subst.
    destruct (String.eqb_spec b c) as [->|Hne]; cbn; [|auto].
    constructor; [|auto].
    rewrite in_map_iff. intros ([a' b'] & E & Hin).
    apply filter_In in Hin. destruct Hin as [Hin Hb]. cbn in *.
    apply String.eqb_eq in Hb. subst. contradiction.
Qed.

Lemma received_broadcast_out sid ev g :
  ~ In sid g -> received sid (map (fun r => Deliver r ev) g) = [].
Proof.
  induction g as [|r g IH]; cbn; [reflexivity|]. intros H.
  destruct (String.eqb_spec r sid) as [->|Hne]; [tauto|]. cbn. apply IH. tauto.
Qed.

Lemma received_broadcast_in sid ev g :
  NoDup g -> In sid g -> received sid (map (fun r => Deliver r ev) g) = [ev].
Proof.
  induction g as [|r g IH]; cbn; [tauto|]. intros Hnd Hin.
  inversion Hnd as [|? ? Hr Hg]; subst.
  destruct (String.eqb_spec r sid) as [->|Hne].
  - cbn. f_equal. apply received_broadcast_out. assumption.
  - cbn. apply IH; [assumption|]. destruct Hin; [contradiction|assumption].
Qed.

Lemma received_socket_to_self sid c ev w : received sid (socket_to sid c ev w) = [].
Proof.
  unfold socket_to. apply received_broadcast_out.
  rewrite filter_In. intros [_ H]. now rewrite String.eqb_refl in H.
Qed.

Lemma received_socket_to_other sid p c ev w :
  NoDup (joined w) -> In (p, c) (joined w) -> p <> sid ->
  received p (socket_to sid c ev w) = [ev].
Proof.
  intros Hnd Hin Hne. unfold socket_to. apply received_broadcast_in.
  - apply NoDup_filter. now apply NoDup_group.
  - apply filter_In. split; [now apply In_group|].
    apply negb_true_iff. now apply String.eqb_neq.
Qed.




(* ------------------------------------------------------------------ *)
(** ** Expiry *)

(** C6.  In every reachable state a tick of the sweeper completes, and for
    every room whose deadline has passed, whatever the number of its
    participants: [roomExpired] is emitted to every listed participant whose
    connection is open (a closed connection is in no group and cannot be
    addressed), the room is out of the room store and its code is out of the
    used-code set. *)
Theorem sweep_expires_rooms rnd fuel0 es w out0 fuel now c room :
  run rnd fuel0 init es = Done (w, out0) ->
  assoc_get c (rooms w) = Some room ->
  (now > expiresAt room)%Z ->
  exists w' out,
    step rnd fuel w (Tick now) = Done (w', out)
    /\ (forall p,
           In p (users room) ->
           set_has (socketId p) (closed w) = false ->
           In (Deliver (socketId p) ERoomExpired) out)
    /\ assoc_get c (rooms w') = None
    /\ ~ In c (usedCodes w').
Proof.
  intros Hrun Hroom Hexp.
  assert (HI : Inv w).
  { eapply reachable_Inv, run_reachable; [apply reach_init|exact Hrun]. }
  cbn [step]. exists (fst (sweep now w)), (snd (sweep now w)).
  split; [now destruct (sweep now w)|].
  split; [|now apply (sweep_gone now w c room)].
  intros p Hp Hopen. rewrite sweep_eq. cbn [snd].
  apply in_flat_map. exists c. split.
  - eapply In_expired_codes; [apply assoc_get_In; exact Hroom|assumption].
  - unfold io_to. apply (in_map (fun r => Deliver r ERoomExpired)).
    apply In_group.
    destruct (inv_rooms _ HI c room Hroom) as (_ & _ & _ & _ & Hall).
    rewrite Forall_forall in Hall. destruct (Hall p Hp) as (_ & _ & Hj). auto.
Qed.

Lemma sweep_expires_rooms_witness :
  step zeros 0 (world_after zeros 0 two_in_a_room) (Tick 700000)
  = Done (set_usedCodes [] (set_rooms [] (world_after zeros 0 two_in_a_room)),
          [Deliver "A" ERoomExpired; Deliver "B" ERoomExpired])
  /\ exists w' out,
      step zeros 0 (world_after zeros 0 two_in_a_room) (Tick 700000)
      = Done (w', out)
      /\ (forall p,
             In p [mkUser "A" (JS.Str "Ann") 0; mkUser "B" (JS.Str "Bob") 1] ->
             set_has (socketId p) (closed (world_after zeros 0 two_in_a_room))
             = false ->
             In (Deliver (socketId p) ERoomExpired) out)
      /\ assoc_get "0000" (rooms w') = None
      /\ ~ In "0000" (usedCodes w').
Proof.
  split; [vm_compute; reflexivity|].
  assert (R : run zeros 0 init two_in_a_room
              = Done (world_after zeros 0 two_in_a_room,
                      output_after zeros 0 two_in_a_room))
    by (vm_compute; reflexivity).
  apply (sweep_expires_rooms
           zeros 0 two_in_a_room _ _ 0 700000%Z "0000"
           (mkRoom [mkUser "A" (JS.Str "Ann") 0; mkUser "B" (JS.Str "Bob") 1]
                   [] 0 600001 1 None) R).
  - vm_compute. reflexivity.
  - reflexivity.
Defined.

(* ------------------------------------------------------------------ *)
(** ** Which events move the deadline of a room *)

Lemma rooms_edit_keeps w w' :
  rooms_edit w w' -> keeps_deadlines w w' /\ keeps_histories w w'.
Proof.
  intros [E|c room room' Hroom He Hm _ E|c E]; split; intros c' r'; rewrite E.
  - eauto.
  - eauto.
  - rewrite assoc_get_set. destruct (String.eqb_spec c c') as [<-|_]; [|eauto].
    intros [= <-]. eauto.
  - rewrite assoc_get_set. destruct (String.eqb_spec c c') as [<-|_]; [|eauto].
    intros [= <-]. eauto.
  - rewrite assoc_get_delete. destruct (String.eqb c c'); [discriminate|eauto].
  - rewrite assoc_get_delete. destruct (String.eqb c c'); [discriminate|eauto].
Qed.

Section Quiet.
Variable rnd : nat -> N.

Lemma departure_rooms_edit c room i user sid w1 w2 w w' :
  assoc_get c (rooms w) = Some room ->
  rooms w1 = assoc_set c (without i room) (rooms w) ->
  record_left sid c user w1 = Done w2 ->
  cleanup_if_empty c (without i room) w2 = Done w' ->
  rooms_edit w w'.
Proof.
  intros Hroom Hw1 Hrec Hcl.
  apply record_left_inv in Hrec. destruct Hrec as (t & _ & ->).
  apply cleanup_if_empty_inv in Hcl. subst w'.
  destruct (_ =? 0).
  - apply edit_delete with (c := c). cbn. rewrite Hw1.
    apply assoc_delete_set.
  - apply edit_room with (c := c) (room := room) (room' := without i room);
      auto.
    intros u Hu. now apply In_splice1 in Hu.
Qed.

Lemma quiet_rooms_edit fuel sid now a w w' out :
  is_quiet a = true ->
  handle rnd fuel sid now a w = Done (w', out) ->
  rooms_edit w w'.
Proof.
  destruct a; cbn [is_quiet is_signal handle]; try discriminate; intros _ H.
  - apply typing_inv in H. destruct H as [-> _]. now apply edit_none.
  - apply disconnect_inv in H.
    destruct H as [[-> _]|(c & room & i & user & w2 & Hd & Hrec & Hcl & _)];
      [now apply edit_none|].
    destruct Hd as (Ht & _). apply active_tag_Some in Ht.
    destruct Ht as (_ & _ & Hroom).
    eapply departure_rooms_edit; [exact Hroom| |exact Hrec|exact Hcl].
    reflexivity.
  - apply leaveRoom_inv in H.
    destruct H as [[-> _]|(c & room & i & user & w2 & Hd & Hrec & Hcl & _)];
      [now apply edit_none|].
    destruct Hd as (Ht & _). apply active_tag_Some in Ht.
    destruct Ht as (_ & _ & Hroom).
    eapply departure_rooms_edit; [exact Hroom| |exact Hrec|exact Hcl].
    reflexivity.
  - unfold relay in H. destruct (active_tag sid w) as [[c r]|];
      injection H as <- _; now apply edit_none.
  - unfold relay in H. destruct (active_tag sid w) as [[c r]|];
      injection H as <- _; now apply edit_none.
  - unfold relay in H. destruct (active_tag sid w) as [[c r]|];
      injection H as <- _; now apply edit_none.
  - unfold voiceChat in H. destruct (active_tag sid w) as [[c r]|] eqn:Et;
      injection H as <- _; [|now apply edit_none].
    apply active_tag_Some in Et. destruct Et as (_ & _ & Hroom).
    eapply edit_room; [exact Hroom| | | |reflexivity];
      try reflexivity; apply incl_refl.
  - unfold voiceChat in H. destruct (active_tag sid w) as [[c r]|] eqn:Et;
      injection H as <- _; [|now apply edit_none].
    apply active_tag_Some in Et. destruct Et as (_ & _ & Hroom).
    eapply edit_room; [exact Hroom| | | |reflexivity];
      try reflexivity; apply incl_refl.
Qed.

Lemma joinRoom_resets fuel sid now data w w' out :
  handle rnd fuel sid now (AJoinRoom data) w = Done (w', out) ->
  (w' = w /\ exists ev, out = [Deliver sid ev] /\ In ev join_rejections)
  \/ (exists c room',
         JS.get data "code" = Done (JS.Str c)
         /\ assoc_get c (rooms w') = Some room'
         /\ expiresAt room' = (reading now 2 + ROOM_EXPIRY_TIME)%Z).
Proof.
  cbn [handle]. intros H. apply joinRoom_inv in H.
  destruct H as [H|(c & name & room & Hc & _ & _ & Hs)]; [now left|].
  right. unfold join_success in Hs.
  destruct (assign_name rnd name w) as [assigned w1].
  injection Hs as -> _. eexists c, _. split; [assumption|].
  cbn [rooms enter set_roomCodes set_joined set_rooms].
  rewrite assoc_get_set_same. auto.
Qed.

Lemma sendMessage_resets fuel sid now data w w' out :
  handle rnd fuel sid now (ASendMessage data) w = Done (w', out) ->
  (w' = w /\ exists msg, out = [Deliver sid (EError msg)])
  \/ (exists c room room',
         active_tag sid w = Some (c, room)
         /\ assoc_get c (rooms w') = Some room'
         /\ expiresAt room' = (reading now 3 + ROOM_EXPIRY_TIME)%Z).
Proof.
  cbn [handle]. intros H. apply sendMessage_inv in H.
  destruct H as [[-> [-> | ->]]|(c & room & user & s & _ & Ht & _ & Hs)];
    [left; eauto|left; eauto|].
  right. unfold send_success in Hs. cbn [random] in Hs.
  injection Hs as -> _. eexists c, room, _. split; [assumption|].
  cbn [rooms set_rooms]. rewrite assoc_get_set_same. auto.
Qed.

End Quiet.

(** C7, as amended.  An admitted [joinRoom], an accepted [sendMessage] and a
    [createRoom] set the deadline of their room to now, the last reading of
    [Date.now()] in the handler, plus [ROOM_EXPIRY_TIME]; typing, the
    signaling events, [leaveRoom] and disconnection leave the deadline of
    every room of the store as it was. *)
Theorem deadline_moves_on_create_join_message_only rnd fuel sid now a w w' out :
  handle rnd fuel sid now a w = Done (w', out) ->
  match a with
  | AJoinRoom data =>
      (w' = w /\ exists ev, out = [Deliver sid ev] /\ In ev join_rejections)
      \/ (exists c room',
             JS.get data "code" = Done (JS.Str c)
             /\ assoc_get c (rooms w') = Some room'
             /\ expiresAt room' = (reading now 2 + ROOM_EXPIRY_TIME)%Z)
  | ASendMessage _ =>
      (w' = w /\ exists msg, out = [Deliver sid (EError msg)])
      \/ (exists c room room',
             active_tag sid w = Some (c, room)
             /\ assoc_get c (rooms w') = Some room'
             /\ expiresAt room' = (reading now 3 + ROOM_EXPIRY_TIME)%Z)
  | ACreateRoom _ =>
      exists code assigned room',
        out = [Deliver sid (EJoinedRoom code assigned 1 [])]
        /\ assoc_get code (rooms w') = Some room'
        /\ expiresAt room' = (reading now 5 + ROOM_EXPIRY_TIME)%Z
  | _ => keeps_deadlines w w'
  end.
Proof.
  intros H. destruct a.
  - eapply joinRoom_resets; exact H.
  - cbn [handle] in H. apply createRoom_fresh_room in H.
    destruct H as (code & assigned & room' & H1 & H2 & _ & _ & H3).
    exists code, assigned, room'. auto.
  - eapply sendMessage_resets; exact H.
  - eapply rooms_edit_keeps, quiet_rooms_edit; [|exact H]; reflexivity.
  - eapply rooms_edit_keeps, quiet_rooms_edit; [|exact H]; reflexivity.
  - eapply rooms_edit_keeps, quiet_rooms_edit; [|exact H]; reflexivity.
  - eapply rooms_edit_keeps, quiet_rooms_edit; [|exact H]; reflexivity.
  - eapply rooms_edit_keeps, quiet_rooms_edit; [|exact H]; reflexivity.
  - eapply rooms_edit_keeps, quiet_rooms_edit; [|exact H]; reflexivity.
  - eapply rooms_edit_keeps, quiet_rooms_edit; [|exact H]; reflexivity.
  - eapply rooms_edit_keeps, quiet_rooms_edit; [|exact H]; reflexivity.
Qed.

Lemma deadline_moves_on_create_join_message_only_witness :
  keeps_deadlines (world_after zeros 0 two_in_a_room)
                  (world_after zeros 0 two_in_a_room)
  /\ exists room',
      assoc_get "0000" (rooms (world_after zeros 0 (two_in_a_room ++ [bob_says_hello])))
      = Some room'
      /\ expiresAt room' = (2 + ROOM_EXPIRY_TIME)%Z.
Proof.
  split.
  - apply (deadline_moves_on_create_join_message_only
             zeros 0 "B" 5000%Z (ATyping typing_payload)
             (world_after zeros 0 two_in_a_room)
             (world_after zeros 0 two_in_a_room)
             [Deliver "A" (EUserTyping (JS.Str "Bob") (JS.Boolean true))]).
    vm_compute. reflexivity.
  - assert (H : handle zeros 0 "B" 2%Z (ASendMessage (text_payload "  hello "))
                       (world_after zeros 0 two_in_a_room)
                = Done (world_after zeros 0 (two_in_a_room ++ [bob_says_hello]),
                        [Deliver "A" (ENewMessage
                                           (mkMessage (2%Z, 0%N) (JS.Str "Bob")
                                                      "hello" 2 "B"));
                            Deliver "B" (ENewMessage
                                           (mkMessage (2%Z, 0%N) (JS.Str "Bob")
                                                      "hello" 2 "B"))]))
      by (vm_compute; reflexivity).
    destruct (deadline_moves_on_create_join_message_only _ _ _ _ _ _ _ _ H)
      as [[_ [msg Hmsg]]|(c & room & room' & Ht & Hr & He)].
    + vm_compute in Hmsg. discriminate Hmsg.
    + assert (Ht' : active_tag "B" (world_after zeros 0 two_in_a_room)
                    = Some ("0000",
                            mkRoom [mkUser "A" (JS.Str "Ann") 0;
                                    mkUser "B" (JS.Str "Bob") 1]
                                   [] 0 600001 1 None))
        by (vm_compute; reflexivity).
      rewrite Ht' in Ht. injection Ht as <- _. eauto.
Defined.

(** C7 as stated fails for typing, signaling and leaving: after Ann's
    creation at time 0 and Bob's admission at time 1 the deadline of room
    "0000" is 600001, and it still is after Bob, at time 5000, types, sends an
    offer, starts a voice chat, or leaves. *)
Lemma deadline_kept_by_typing_signal_and_leave :
  let deadline trace :=
    option_map expiresAt
               (assoc_get "0000" (rooms (world_after zeros 0 trace))) in
  deadline two_in_a_room = Some 600001%Z
  /\ deadline (two_in_a_room ++ [FromSocket "B" 5000 (ATyping typing_payload)])
     = Some 600001%Z
  /\ deadline (two_in_a_room ++ [FromSocket "B" 5000 (AVoiceChatOffer JS.Null)])
     = Some 600001%Z
  /\ deadline (two_in_a_room ++ [FromSocket "B" 5000 AStartVoiceChat])
     = Some 600001%Z
  /\ deadline (two_in_a_room ++ [FromSocket "B" 5000 ALeaveRoom])
     = Some 600001%Z
  /\ (5000 + ROOM_EXPIRY_TIME)%Z <> 600001%Z.
Proof. cbv zeta. evaluate_all. Qed.

(* ------------------------------------------------------------------ *)
(** ** Signaling relay *)

Lemma signal_outputs rnd fuel sid now a ev w :
  signal_event a = Some ev ->
  exists w',
    handle rnd fuel sid now a w
    = Done (w', match active_tag sid w with
                | Some (c, _) => socket_to sid c ev w
                | None => []
                end)
    /\ joined w' = joined w.
Proof.
  destruct a; cbn [signal_event handle]; try discriminate; intros [= <-];
    unfold relay, voiceChat; destruct (active_tag sid w) as [[c r]|];
    eexists; split; reflexivity.
Qed.

(** C8, as amended.  In every reachable state a signaling event completes and
    forwards only when the caller's room tag (set by its last create or join,
    cleared by [leaveRoom]) names an active room: then the event, with the
    payload as received, goes to every member of the group of that code but
    the caller, among them every other listed participant whose connection is
    open; it is never delivered to the caller and no history changes. *)
Theorem signal_is_relayed_to_the_others
        rnd fuel0 es w out0 fuel sid now a ev :
  run rnd fuel0 init es = Done (w, out0) ->
  signal_event a = Some ev ->
  exists w' out,
    handle rnd fuel sid now a w = Done (w', out)
    /\ keeps_histories w w'
    /\ received sid out = []
    /\ (forall o, In o out -> exists r, o = Deliver r ev /\ r <> sid)
    /\ match active_tag sid w with
       | None => out = []
       | Some (c, room) =>
           out = socket_to sid c ev w
           /\ forall p,
               In p (users room) ->
               socketId p <> sid ->
               set_has (socketId p) (closed w) = false ->
               received (socketId p) out = [ev]
       end.
Proof.
  intros Hrun Hev.
  assert (HI : Inv w).
  { eapply reachable_Inv, run_reachable; [apply reach_init|exact Hrun]. }
  destruct (signal_outputs rnd fuel sid now a ev w Hev) as (w' & Hstep & Hj).
  eexists w', _. split; [exact Hstep|].
  split.
  { eapply rooms_edit_keeps, quiet_rooms_edit; [|exact Hstep].
    destruct a; try discriminate; reflexivity. }
  destruct (active_tag sid w) as [[c room]|] eqn:Et.
  - split; [apply received_socket_to_self|]. split.
    + intros o Ho. unfold socket_to in Ho. apply in_map_iff in Ho.
      destruct Ho as (r & <- & Hr). exists r. split; [reflexivity|].
      apply filter_In in Hr. destruct Hr as [_ Hr].
      apply negb_true_iff in Hr. now apply String.eqb_neq.
    + split; [reflexivity|]. intros p Hp Hne Hopen.
      apply active_tag_Some in Et. destruct Et as (_ & _ & Hroom).
      destruct (inv_rooms _ HI c room Hroom) as (_ & _ & _ & _ & Hall).
      rewrite Forall_forall in Hall. destruct (Hall p Hp) as (_ & _ & Hin).
      apply received_socket_to_other; auto. apply (inv_joined _ HI).
  - split; [reflexivity|]. split; [intros o []|reflexivity].
Qed.

Lemma signal_is_relayed_to_the_others_witness :
  handle zeros 0 "B" 9 (AVoiceChatOffer (JS.Str "sdp"))
         (world_after zeros 0 two_in_a_room)
  = Done (world_after zeros 0 two_in_a_room,
          [Deliver "A" (EVoiceChatOffer (JS.Str "sdp"))])
  /\ exists w' out,
      handle zeros 0 "B" 9 (AVoiceChatOffer (JS.Str "sdp"))
             (world_after zeros 0 two_in_a_room) = Done (w', out)
      /\ received "B" out = []
      /\ received "A" out = [EVoiceChatOffer (JS.Str "sdp")].
Proof.
  split; [vm_compute; reflexivity|].
  assert (R : run zeros 0 init two_in_a_room
              = Done (world_after zeros 0 two_in_a_room,
                      output_after zeros 0 two_in_a_room))
    by (vm_compute; reflexivity).
  destruct (signal_is_relayed_to_the_others
              zeros 0 two_in_a_room _ _ 0 "B" 9%Z
              (AVoiceChatOffer (JS.Str "sdp")) _ R eq_refl)
    as (w' & out & Hstep & _ & Hself & _ & Hothers).
  exists w', out. split; [exact Hstep|]. split; [exact Hself|].
  assert (Ht : active_tag "B" (world_after zeros 0 two_in_a_room)
               = Some ("0000",
                       mkRoom [mkUser "A" (JS.Str "Ann") 0; mkUser "B" (JS.Str "Bob") 1]
                              [] 0 600001 1 None))
    by (vm_compute; reflexivity).
  rewrite Ht in Hothers. destruct Hothers as [_ Hothers].
  apply (Hothers (mkUser "A" (JS.Str "Ann") 0)).
  - now left.
  - discriminate.
  - vm_compute. reflexivity.
Defined.

(** C8 as stated fails on who may relay: Ann's room "0000" expires and is
    swept, Bea's new room is given the code "0000" again, and Ann, whose tag
    still names "0000" and who is a participant of no room, has her offer
    forwarded to Bea. *)
Lemma stale_tag_relays_to_a_stranger :
  map (fun cr => (fst cr, map socketId (users (snd cr))))
      (rooms (world_after zeros 0 stale_tag))
  = [("0000", ["B"])]
  /\ handle zeros 0 "A" 700002 (AVoiceChatOffer (JS.Str "sdp"))
            (world_after zeros 0 stale_tag)
     = Done (world_after zeros 0 stale_tag,
             [Deliver "B" (EVoiceChatOffer (JS.Str "sdp"))]).
Proof. evaluate_all. Qed.

(* ------------------------------------------------------------------ *)
(** ** Malformed payloads *)

Section NoFault.
Variable rnd : nat -> N.

Lemma to_string_assigned name w :
  JS.to_string (fst (assign_name rnd name w))
  = if JS.truthy name then JS.to_string name
    else Done ("User" +++ JS.dec (JS.floor_random 1000 (rnd (cursor w)))).
Proof. unfold assign_name. destruct (JS.truthy name); reflexivity. Qed.

Lemma joinRoom_faults fuel sid now data w e :
  joinRoom rnd sid now data w = Throw e
  <-> e = JS.typeError /\ faulting rnd fuel sid (AJoinRoom data) w = true.
Proof.
  cbn [faulting]. unfold joinRoom, reply.
  destruct (present data) eqn:Hp; cbn [negb orb].
  2:{ rewrite (get_absent _ _ Hp). cbn [bind]. split; [now intros [= <-]|].
      now intros [-> _]. }
  rewrite !(get_field _ _ Hp). cbn [bind].
  set (code := field data "code"). set (name := field data "username").
  destruct (to_string_cases code) as [[s Hs]|Hs];
    unfold converts at 1; rewrite Hs; cbn [bind negb orb].
  2:{ split; [now intros [= <-]|now intros [-> _]]. }
  assert (Hquiet : forall (r : outcome (World * list Output)) w0 out0,
             r = Done (w0, out0) ->
             reaches_the_ledger sid code w = false ->
             r = Throw e
             <-> e = JS.typeError
                 /\ reaches_the_ledger sid code w && JS.truthy name
                    && negb (converts name) = true).
  { intros r w0 out0 -> ->. cbn. split; [discriminate|now intros [_ H]]. }
  destruct code as [| |b|n|c|items|fields] eqn:Ecode;
    try (destruct (JS.test_4digits s); cbn [negb];
         eapply Hquiet; reflexivity).
  cbn in Hs. injection Hs as <-. cbn [reaches_the_ledger].
  destruct (JS.test_4digits c); cbn [negb andb];
    [|split; [discriminate|now intros [_ H]]].
  destruct (assoc_get c (rooms w)) as [room|];
    [|split; [discriminate|now intros [_ H]]].
  rewrite Nat.ltb_antisym.
  destruct (2 <=? List.length (users room)); cbn [negb andb];
    [split; [discriminate|now intros [_ H]]|].
  destruct (find (is_socket sid) (users room));
    [split; [discriminate|now intros [_ H]]|].
  cbn [JS.template JS.to_string bind]. rewrite to_string_or_anonymous.
  pose proof (to_string_assigned name w) as Has.
  destruct (JS.truthy name) eqn:Htr; cbn [andb].
  - destruct (to_string_cases name) as [[t Ht]|Ht];
      unfold converts; rewrite Ht in *; cbn [bind negb].
    + destruct (_ || _); [split; [discriminate|now intros [_ H]]|].
      destruct (assign_name rnd name w) as [assigned w1]. cbn [fst] in Has.
      unfold JS.log. cbn [JS.template JS.to_string bind]. rewrite Has.
      cbn [bind]. split; [discriminate|now intros [_ H]].
    + split; [now intros [= <-]|now intros [-> _]].
  - cbn [bind]. destruct (_ || _); [split; [discriminate|now intros [_ H]]|].
    destruct (assign_name rnd name w) as [assigned w1]. cbn [fst] in Has.
    unfold JS.log. cbn [JS.template JS.to_string bind]. rewrite Has.
    cbn [bind]. split; [discriminate|now intros [_ H]].
Qed.

Lemma createRoom_faults fuel sid now data w e :
  createRoom rnd fuel sid now data w = Throw e
  <-> e = JS.typeError /\ faulting rnd fuel sid (ACreateRoom data) w = true.
Proof.
  cbn [faulting]. unfold createRoom.
  destruct (present data) eqn:Hp; cbn [negb orb].
  2:{ rewrite (get_absent _ _ Hp). cbn [bind]. split; [now intros [= <-]|].
      now intros [-> _]. }
  rewrite (get_field _ _ Hp). cbn [bind].
  set (name := field data "username").
  destruct (generateUniqueRoomCode rnd fuel w) as [[code w1]|e'|] eqn:Hgen;
    cbn [bind andb].
  - unfold JS.log at 1. cbn [JS.template JS.to_string bind].
    match goal with
    | |- context [assign_name rnd name ?w2] =>
        pose proof (to_string_assigned name w2) as Has;
        destruct (assign_name rnd name w2) as [assigned w3]
    end.
    cbn [fst] in Has. unfold JS.log. cbn [JS.template JS.to_string bind].
    rewrite Has. destruct (JS.truthy name); cbn [andb bind].
    + destruct (to_string_cases name) as [[t Ht]|Ht];
        unfold converts; rewrite Ht; cbn [bind negb].
      * split; [discriminate|now intros [_ H]].
      * split; [now intros [= <-]|now intros [-> _]].
    + split; [discriminate|now intros [_ H]].
  - now apply generateUniqueRoomCode_never_throws in Hgen.
  - split; [discriminate|now intros [_ H]].
Qed.

Lemma sendMessage_faults fuel sid now data w e :
  sendMessage rnd sid now data w = Throw e
  <-> e = JS.typeError /\ faulting rnd fuel sid (ASendMessage data) w = true.
Proof.
  cbn [faulting]. unfold sendMessage, reply, speaks_in_a_room.
  destruct (present data) eqn:Hp; cbn [negb orb].
  2:{ rewrite (get_absent _ _ Hp). cbn [bind]. split; [now intros [= <-]|].
      now intros [-> _]. }
  rewrite (get_field _ _ Hp). cbn [bind].
  destruct (active_tag sid w) as [[c room]|];
    [|split; [discriminate|now intros [_ H]]].
  destruct (find (is_socket sid) (users room));
    [|split; [discriminate|now intros [_ H]]].
  cbn [random andb].
  destruct (field data "message"); cbn [trim_value bind is_string negb];
    try (split; [now intros [= <-]|now intros [-> _]]).
  unfold JS.log. cbn [JS.template JS.to_string bind].
  split; [discriminate|now intros [_ H]].
Qed.

Lemma typing_faults fuel sid data w e :
  typing sid data w = Throw e
  <-> e = JS.typeError /\ faulting rnd fuel sid (ATyping data) w = true.
Proof.
  cbn [faulting]. unfold typing, tagged.
  destruct (assoc_get sid (roomCodes w)) as [c|];
    [|rewrite andb_false_r; split; [discriminate|now intros [_ H]]].
  destruct (String.eqb c ""); cbn [negb];
    [rewrite andb_false_r; split; [discriminate|now intros [_ H]]|].
  rewrite andb_true_r.
  destruct (present data) eqn:Hp; cbn [negb].
  - rewrite !(get_field _ _ Hp). cbn [bind].
    split; [discriminate|now intros [_ H]].
  - rewrite (get_absent _ _ Hp). cbn [bind].
    split; [now intros [= <-]|now intros [-> _]].
Qed.

Lemma departure_no_fault fuel sid now a w e :
  Inv w -> is_departure a -> handle rnd fuel sid now a w <> Throw e.
Proof.
  intros HI Ha.
  destruct (active_tag sid w) as [[c room]|] eqn:Et.
  - destruct (findIndex (is_socket sid) (users room)) as [i|] eqn:Ei.
    + destruct (findIndex_nth _ _ _ Ei) as (user & Hn & _).
      assert (Hd : departing sid w c room i user) by (repeat split; assumption).
      destruct (departure_completes rnd fuel sid now a w c room i user HI Ha Hd)
        as (w2 & out & Hstep & _).
      rewrite Hstep. discriminate.
    + destruct Ha as [->| ->]; cbn [handle].
      * unfold leaveRoom. rewrite Et, Ei. discriminate.
      * unfold disconnect.
        change (active_tag sid (close_socket sid w)) with (active_tag sid w).
        rewrite Et, Ei. discriminate.
  - destruct Ha as [->| ->]; cbn [handle].
    + unfold leaveRoom. rewrite Et. discriminate.
    + unfold disconnect.
      change (active_tag sid (close_socket sid w)) with (active_tag sid w).
      rewrite Et. discriminate.
Qed.

(** An event faults exactly under the payloads of [faulting]. *)
Lemma handle_faults fuel sid now a w e :
  Inv w ->
  handle rnd fuel sid now a w = Throw e
  <-> e = JS.typeError /\ faulting rnd fuel sid a w = true.
Proof.
  intros HI.
  assert (Hnever : forall r : outcome (World * list Output),
             r <> Throw e ->
             r = Throw e <-> e = JS.typeError /\ false = true).
  { intros r Hr. split; [contradiction|now intros [_ H]]. }
  destruct a as [d|d|d|d| | |d|d|d| |]; cbn [handle].
  - apply joinRoom_faults.
  - apply createRoom_faults.
  - apply sendMessage_faults.
  - apply typing_faults.
  - apply Hnever. apply (departure_no_fault fuel sid now ADisconnect);
      [assumption|now right].
  - apply Hnever. apply (departure_no_fault fuel sid now ALeaveRoom);
      [assumption|now left].
  - apply Hnever.
    destruct (signal_outputs rnd fuel sid now (AVoiceChatOffer d) _ w eq_refl)
      as (w' & E & _). cbn [handle] in E. rewrite E. discriminate.
  - apply Hnever.
    destruct (signal_outputs rnd fuel sid now (AVoiceChatAnswer d) _ w eq_refl)
      as (w' & E & _). cbn [handle] in E. rewrite E. discriminate.
  - apply Hnever.
    destruct (signal_outputs rnd fuel sid now (AIceCandidate d) _ w eq_refl)
      as (w' & E & _). cbn [handle] in E. rewrite E. discriminate.
  - apply Hnever.
    destruct (signal_outputs rnd fuel sid now AStartVoiceChat _ w eq_refl)
      as (w' & E & _). cbn [handle] in E. rewrite E. discriminate.
  - apply Hnever.
    destruct (signal_outputs rnd fuel sid now AEndVoiceChat _ w eq_refl)
      as (w' & E & _). cbn [handle] in E. rewrite E. discriminate.
Qed.

(** The reply to a [code] that converts to a string: the invalid-code error
    when the text is not 4 digits, and the room-not-found error when it is
    but the value is no string (the room store is keyed by strings). *)
Lemma joinRoom_odd_code sid now data s w :
  present data = true ->
  JS.to_string (field data "code") = Done s ->
  (JS.test_4digits s = false ->
   joinRoom rnd sid now data w = Done (w, [Deliver sid (EError msgInvalidCode)]))
  /\ (JS.test_4digits s = true ->
      is_string (field data "code") = false ->
      joinRoom rnd sid now data w
      = Done (w, [Deliver sid (EError msgRoomNotFound)])).
Proof.
  intros Hp Hs. unfold joinRoom, reply. rewrite !(get_field _ _ Hp).
  cbn [bind]. rewrite Hs. cbn [bind]. split.
  - intros ->. reflexivity.
  - intros -> Hstr. cbn [negb].
    destruct (field data "code"); try discriminate; reflexivity.
Qed.

End NoFault.

(** C9, as amended.  In every reachable state the handler of an event
    throws, and then a [TypeError], exactly under the payloads of
    [faulting]: no payload at all ([joinRoom], [createRoom], [sendMessage],
    and [typing] from a connection that carries a room tag); a [code] of
    [joinRoom] that does not convert to a string; a truthy [username] that
    does not convert, for a [joinRoom] that has got as far as the ledger
    keys and for a [createRoom] whose allocation has returned; a [message]
    that is no string, for [sendMessage] from a listed participant of its
    tagged room.  Nothing else faults: not a field that is missing or is
    null, a boolean, a number, an array or an object without a [toString]
    field, not [leaveRoom], disconnection or a signaling event, not the
    sweep, not the allocation endpoint.  A [joinRoom] whose [code] converts
    to a text that is not 4 digits is answered with the invalid-code error,
    one whose [code] converts to 4 digits without being a string with the
    room-not-found error, and neither changes anything. *)
Theorem events_fault_exactly_on_malformed_payloads rnd fuel0 es w out0 :
  run rnd fuel0 init es = Done (w, out0) ->
  (forall fuel sid now a e,
      step rnd fuel w (FromSocket sid now a) = Throw e
      <-> e = JS.typeError
          /\ set_has sid (closed w) = false
          /\ faulting rnd fuel sid a w = true)
  /\ (forall fuel now e, step rnd fuel w (Tick now) <> Throw e)
  /\ (forall fuel e, step rnd fuel w GetGenerateRoomCode <> Throw e)
  /\ (forall sid now data s,
         present data = true ->
         JS.to_string (field data "code") = Done s ->
         (JS.test_4digits s = false ->
          joinRoom rnd sid now data w
          = Done (w, [Deliver sid (EError msgInvalidCode)]))
         /\ (JS.test_4digits s = true ->
             is_string (field data "code") = false ->
             joinRoom rnd sid now data w
             = Done (w, [Deliver sid (EError msgRoomNotFound)]))).
Proof.
  intros Hrun.
  assert (HI : Inv w).
  { eapply reachable_Inv, run_reachable; [apply reach_init|exact Hrun]. }
  split; [|split; [|split]].
  - intros fuel sid now a e. cbn [step].
    destruct (set_has sid (closed w)).
    + split; [discriminate|]. now intros (_ & H & _).
    + rewrite (handle_faults rnd fuel sid now a w e HI). tauto.
  - intros fuel now e. cbn [step]. discriminate.
  - intros fuel e. cbn [step].
    destruct (generateUniqueRoomCode rnd fuel w) as [[code w1]|e'|] eqn:Hgen;
      cbn [bind]; try discriminate.
    now apply generateUniqueRoomCode_never_throws in Hgen.
  - intros sid now data s. apply joinRoom_odd_code.
Qed.

Lemma events_fault_exactly_on_malformed_payloads_witness :
  step zeros 0 (world_after zeros 0 two_in_a_room)
       (FromSocket "C" 7
          (AJoinRoom (JS.Obj [("code", JS.Num 1234);
                              ("username", JS.Arr [JS.Str "Cy"])])))
  = Done (world_after zeros 0 two_in_a_room,
          [Deliver "C" (EError msgRoomNotFound)])
  /\ step zeros 0 (world_after zeros 0 two_in_a_room)
          (FromSocket "B" 7 (ASendMessage (text_payload "")))
     <> Throw JS.typeError
  /\ step zeros 0 (world_after zeros 0 two_in_a_room)
          (FromSocket "C" 7 (ACreateRoom (JS.Obj [("username", JS.Obj [])])))
     <> Throw JS.typeError.
Proof.
  assert (R : run zeros 0 init two_in_a_room
              = Done (world_after zeros 0 two_in_a_room,
                      output_after zeros 0 two_in_a_room))
    by (vm_compute; reflexivity).
  destruct (events_fault_exactly_on_malformed_payloads zeros 0 two_in_a_room _ _ R)
    as (Hfault & _ & _ & Hcode).
  split; [|split].
  - cbn [step]. replace (set_has "C" (closed (world_after zeros 0 two_in_a_room)))
      with false by (vm_compute; reflexivity).
    apply (Hcode "C" 7%Z _ "1234"); reflexivity.
  - intros H. apply Hfault in H. destruct H as (_ & _ & H).
    vm_compute in H. discriminate H.
  - intros H. apply Hfault in H. destruct H as (_ & _ & H).
    vm_compute in H. discriminate H.
Defined.

(** C9 as stated fails: with no payload at all [joinRoom], [createRoom],
    [sendMessage] and, from a connection in a room, [typing] throw a
    [TypeError] that nothing catches; so do a participant's [sendMessage]
    whose [message] is missing or is not a string, and a [joinRoom] whose
    [code] is an object with a [toString] field. *)
Lemma missing_payload_faults :
  step zeros 0 init (FromSocket "A" 0 (AJoinRoom JS.Undefined))
  = Throw JS.typeError
  /\ step zeros 0 init (FromSocket "A" 0 (ACreateRoom JS.Undefined))
     = Throw JS.typeError
  /\ step zeros 0 init (FromSocket "A" 0 (ASendMessage JS.Undefined))
     = Throw JS.typeError
  /\ step zeros 0 (world_after zeros 0 two_in_a_room)
          (FromSocket "B" 2 (ATyping JS.Undefined))
     = Throw JS.typeError
  /\ step zeros 0 (world_after zeros 0 two_in_a_room)
          (FromSocket "B" 2 (ASendMessage (JS.Obj [])))
     = Throw JS.typeError
  /\ step zeros 0 (world_after zeros 0 two_in_a_room)
          (FromSocket "B" 2 (ASendMessage (JS.Obj [("message", JS.Num 5)])))
     = Throw JS.typeError
  /\ step zeros 0 init
          (FromSocket "A" 0
             (AJoinRoom (JS.Obj [("code", JS.Obj [("toString", JS.Null)])])))
     = Throw JS.typeError.
Proof. evaluate_all. Qed.

(* ------------------------------------------------------------------ *)
(** ** The name-based check and the name "anonymous" *)

Lemma length_append a b :
  String.length (a +++ b) = String.length a + String.length b.
Proof. induction a as [|x a IH]; cbn; [reflexivity|]. now rewrite IH. Qed.

Lemma append_inj_same_length a a' b b' :
  String.length b = String.length b' ->
  a +++ b = a' +++ b' -> a = a' /\ b = b'.
Proof.
  revert a'. induction a as [|x a IH]; intros [|x' a'] Hlen E; cbn in E.
  - auto.
  - apply (f_equal String.length) in E. cbn in E. rewrite length_append in E. lia.
  - apply (f_equal String.length) in E. cbn in E. rewrite length_append in E. lia.
  - injection E as -> E. destruct (IH a' Hlen E) as [-> ->]. auto.
Qed.

Lemma session_key_inj t t' c c' :
  String.length c = String.length c' ->
  session_key t c = session_key t' c' -> t = t' /\ c = c'.
Proof.
  unfold session_key. intros Hlen E.
  apply append_inj_same_length in E.
  - destruct E as [-> E]. split; [reflexivity|].
    cbn in E. injection E as E.
    apply (append_inj_same_length c c' "" "") in E; [tauto|reflexivity].
  - cbn. rewrite !length_append. cbn. lia.
Qed.

Lemma names_ok_set rs c r :
  names_ok rs ->
  (forall u, In u (users r) -> ~ reads_anonymous (username u)) ->
  names_ok (assoc_set c r rs).
Proof.
  intros H Hr c' r' u. rewrite assoc_get_set.
  destruct (String.eqb c c'); [intros [= <-]; apply Hr|apply H].
Qed.

Lemma names_ok_delete rs c : names_ok rs -> names_ok (assoc_delete c rs).
Proof.
  intros H c' r' u. rewrite assoc_get_delete.
  destruct (String.eqb c c'); [discriminate|apply H].
Qed.

Lemma names_ok_edit w w' : rooms_edit w w' -> names_ok (rooms w) -> names_ok (rooms w').
Proof.
  intros [E|c room room' Hroom _ _ Hincl E|c E] H; rewrite E.
  - assumption.
  - apply names_ok_set; [assumption|]. intros u Hu. apply (H c room); auto.
  - now apply names_ok_delete.
Qed.

Section Anonymous.
Variable rnd : nat -> N.

Lemma assign_name_not_anonymous name w :
  ~ reads_anonymous name ->
  ~ reads_anonymous (fst (assign_name rnd name w)).
Proof.
  unfold assign_name, reads_anonymous.
  destruct (JS.truthy name); cbn; [auto|discriminate].
Qed.

(** What a completed departure adds to the name ledger. *)
Lemma departure_name_record fuel sid now a w c room i user w' out :
  is_departure a ->
  departing sid w c room i user ->
  handle rnd fuel sid now a w = Done (w', out) ->
  exists t,
    JS.to_string (username user) = Done t
    /\ usernameSessions w' = set_add (session_key t c) (usernameSessions w).
Proof.
  intros Ha Hd H.
  destruct (departure_records _ _ _ _ _ _ _ _ _ _ _ _ Ha Hd H)
    as (w1 & w2 & Hrec & Hcl & _ & _ & _ & Hn).
  apply record_left_inv in Hrec. destruct Hrec as (t & Ht & ->).
  apply cleanup_if_empty_inv in Hcl. subst w'.
  exists t. split; [assumption|]. rewrite <- Hn.
  destruct (_ =? 0); reflexivity.
Qed.

Lemma departure_NoAnon fuel sid now a w w' out :
  Inv w -> NoAnon w -> is_departure a ->
  handle rnd fuel sid now a w = Done (w', out) -> NoAnon w'.
Proof.
  intros HI [Hnames Hkeys] Ha H. split.
  - eapply names_ok_edit; [|exact Hnames].
    eapply quiet_rooms_edit; [|exact H]. now destruct Ha as [->| ->].
  - destruct (active_tag sid w) as [[c room]|] eqn:Et.
    + destruct (findIndex (is_socket sid) (users room)) as [i|] eqn:Ei.
      * destruct (findIndex_nth _ _ _ Ei) as (user & Hn & _).
        assert (Hd : departing sid w c room i user)
          by (repeat split; assumption).
        destruct (departure_name_record _ _ _ _ _ _ _ _ _ _ _ Ha Hd H)
          as (t & Ht & ->).
        destruct (departing_user_ok _ _ _ _ _ _ HI Hd) as ((Hc & _) & Hin & _).
        apply active_tag_Some in Et. destruct Et as (_ & _ & Hroom).
        intros c' Hc' Hk. apply In_set_add in Hk.
        destruct Hk as [Hk|Hk]; [|now apply (Hkeys c')].
        apply session_key_inj in Hk.
        -- destruct Hk as [<- _]. exact (Hnames c room user Hroom Hin Ht).
        -- now rewrite (test_4digits_length _ Hc), (test_4digits_length _ Hc').
      * assert (E : w' = w \/ w' = close_socket sid w).
        { destruct Ha as [->| ->]; cbn [handle] in H.
          - unfold leaveRoom in H. rewrite Et, Ei in H. injection H as <- _. auto.
          - unfold disconnect in H.
            change (active_tag sid (close_socket sid w))
              with (active_tag sid w) in H.
            rewrite Et, Ei in H. injection H as <- _. auto. }
        destruct E as [->| ->]; exact Hkeys.
    + assert (E : w' = w \/ w' = close_socket sid w).
      { destruct Ha as [->| ->]; cbn [handle] in H.
        - unfold leaveRoom in H. rewrite Et in H. injection H as <- _. auto.
        - unfold disconnect in H.
          change (active_tag sid (close_socket sid w))
            with (active_tag sid w) in H.
          rewrite Et in H. injection H as <- _. auto. }
      destruct E as [->| ->]; exact Hkeys.
Qed.

Lemma handle_NoAnon fuel sid now a w w' out :
  Inv w -> NoAnon w ->
  ~ supplies_anonymous (FromSocket sid now a) ->
  handle rnd fuel sid now a w = Done (w', out) -> NoAnon w'.
Proof.
  intros HI HN Hsup H.
  destruct a as [d|d|d|d| | |d|d|d| |];
    try (eapply departure_NoAnon; [exact HI|exact HN| |exact H];
         first [now left|now right]);
    destruct HN as [Hnames Hkeys]; cbn [handle supplies_anonymous] in *.
  - apply joinRoom_inv in H.
    destruct H as [[-> _]|(c & name & room & _ & Hname & Hadm & Hs)];
      [now split|].
    destruct Hadm as (_ & Hroom & _).
    assert (Hne : ~ reads_anonymous name)
      by (rewrite (get_Done_field _ _ _ Hname); exact Hsup).
    pose proof (assign_name_not_anonymous name w Hne) as Has.
    pose proof (assign_name_cursor rnd name w) as Hcur.
    unfold join_success in Hs.
    destruct (assign_name rnd name w) as [assigned w1]. cbn [fst snd] in *.
    unfold cursor_only in Hcur. injection Hs as -> _. rewrite Hcur.
    split; cbn; [|exact Hkeys].
    apply names_ok_set; [assumption|]. cbn. intros u Hu.
    apply in_app_iff in Hu. destruct Hu as [Hu|[<-|[]]]; [|exact Has].
    now apply (Hnames c room).
  - apply createRoom_inv in H.
    destruct H as (name & code & w1 & Hname & Hgen & _ & Hs).
    apply generateUniqueRoomCode_spec in Hgen.
    destruct Hgen as (_ & (n & ->) & _).
    assert (Hne : ~ reads_anonymous name)
      by (rewrite (get_Done_field _ _ _ Hname); exact Hsup).
    unfold create_success in Hs.
    match type of Hs with
    | context [assign_name rnd name ?w2] =>
        pose proof (assign_name_not_anonymous name w2 Hne) as Has;
        pose proof (assign_name_cursor rnd name w2) as Hcur;
        destruct (assign_name rnd name w2) as [assigned w3]
    end.
    cbn [fst snd] in *. unfold cursor_only in Hcur.
    injection Hs as -> _. rewrite Hcur.
    split; cbn; [|exact Hkeys].
    apply names_ok_set; [apply names_ok_set; [assumption|intros u []]|].
    cbn. intros u [<-|[]]. exact Has.
  - apply sendMessage_inv in H.
    destruct H as [[-> _]|(c & room & user & s & _ & Ht & _ & Hs)];
      [now split|].
    apply active_tag_Some in Ht. destruct Ht as (_ & _ & Hroom).
    unfold send_success in Hs. cbn [random] in Hs. injection Hs as -> _.
    split; cbn; [|exact Hkeys].
    apply names_ok_set; [assumption|]. cbn. intros u Hu.
    now apply (Hnames c room u).
  - apply typing_inv in H. destruct H as [-> _]. now split.
  - unfold relay in H. destruct (active_tag sid w) as [[c r]|];
      injection H as <- _; now split.
  - unfold relay in H. destruct (active_tag sid w) as [[c r]|];
      injection H as <- _; now split.
  - unfold relay in H. destruct (active_tag sid w) as [[c r]|];
      injection H as <- _; now split.
  - split.
    + eapply names_ok_edit; [|exact Hnames].
      eapply (quiet_rooms_edit rnd fuel sid now AStartVoiceChat);
        [reflexivity|exact H].
    + unfold voiceChat in H. destruct (active_tag sid w) as [[c r]|];
        injection H as <- _; exact Hkeys.
  - split.
    + eapply names_ok_edit; [|exact Hnames].
      eapply (quiet_rooms_edit rnd fuel sid now AEndVoiceChat);
        [reflexivity|exact H].
    + unfold voiceChat in H. destruct (active_tag sid w) as [[c r]|];
        injection H as <- _; exact Hkeys.
Qed.

Lemma step_NoAnon fuel e w w' out :
  Inv w -> NoAnon w -> ~ supplies_anonymous e ->
  step rnd fuel w e = Done (w', out) -> NoAnon w'.
Proof.
  intros HI HN Hsup. destruct e as [sid now a|now|]; cbn [step].
  - destruct (set_has sid (closed w)); [now intros [= <- _]|].
    now apply handle_NoAnon.
  - rewrite sweep_eq. intros [= <- _]. destruct HN as [Hnames Hkeys].
    destruct (destroy_all_frame (expired_codes now (rooms w)) w)
      as (_ & E & _).
    split; [|now rewrite E].
    intros c r u. rewrite destroy_all_rooms.
    destruct (set_has c _); [discriminate|apply Hnames].
  - intros H. break_outcome H. destruct a as [code w1]. injection H as <- _.
    apply generateUniqueRoomCode_spec in E. destruct E as (_ & (n & ->) & _).
    exact HN.
Qed.

Lemma run_NoAnon fuel es w w' out :
  reachable rnd w -> NoAnon w ->
  Forall (fun e => ~ supplies_anonymous e) es ->
  run rnd fuel w es = Done (w', out) -> NoAnon w'.
Proof.
  revert w w' out. induction es as [|e es IH]; intros w w' out Hw HN Hall;
    cbn [run].
  - now intros [= <- _].
  - intros H. break_outcome H. break_outcome H. injection H as <- _.
    destruct a as [w1 o1], a0 as [w2 o2]. cbn [fst snd] in *.
    inversion Hall as [|? ? He Hes]; subst.
    eapply (IH w1); [eapply reach_step; eassumption| |exact Hes|exact E0].
    exact (step_NoAnon fuel e w w1 o1 (reachable_Inv rnd w Hw) HN He E).
Qed.

(** The name ledger changes by the record of a departure only. *)
Lemma handle_name_keys fuel sid now a w w' out :
  handle rnd fuel sid now a w = Done (w', out) ->
  usernameSessions w' = usernameSessions w
  \/ (is_departure a
      /\ exists c room i user t,
          departing sid w c room i user
          /\ JS.to_string (username user) = Done t
          /\ usernameSessions w'
             = set_add (session_key t c) (usernameSessions w)).
Proof.
  intros H.
  assert (Hdep : is_departure a ->
                 usernameSessions w' = usernameSessions w
                 \/ (is_departure a
                     /\ exists c room i user t,
                         departing sid w c room i user
                         /\ JS.to_string (username user) = Done t
                         /\ usernameSessions w'
                            = set_add (session_key t c) (usernameSessions w))).
  { intros Ha.
    destruct (active_tag sid w) as [[c room]|] eqn:Et.
    - destruct (findIndex (is_socket sid) (users room)) as [i|] eqn:Ei.
      + destruct (findIndex_nth _ _ _ Ei) as (user & Hn & _).
        assert (Hd : departing sid w c room i user)
          by (repeat split; assumption).
        destruct (departure_name_record _ _ _ _ _ _ _ _ _ _ _ Ha Hd H)
          as (t & Ht & E).
        right. split; [assumption|]. exists c, room, i, user, t. auto.
      + left. destruct Ha as [->| ->]; cbn [handle] in H.
        * unfold leaveRoom in H. rewrite Et, Ei in H. now injection H as <- _.
        * unfold disconnect in H.
          change (active_tag sid (close_socket sid w))
            with (active_tag sid w) in H.
          rewrite Et, Ei in H. now injection H as <- _.
    - left. destruct Ha as [->| ->]; cbn [handle] in H.
      + unfold leaveRoom in H. rewrite Et in H. now injection H as <- _.
      + unfold disconnect in H.
        change (active_tag sid (close_socket sid w))
          with (active_tag sid w) in H.
        rewrite Et in H. now injection H as <- _. }
  destruct a as [d|d|d|d| | |d|d|d| |];
    try (apply Hdep; first [now left|now right]); clear Hdep; left;
    cbn [handle] in H.
  - apply joinRoom_inv in H.
    destruct H as [[-> _]|(c & name & room & _ & _ & _ & Hs)]; [reflexivity|].
    unfold join_success in Hs.
    destruct (assign_name_frame rnd name w) as [n Hn].
    destruct (assign_name rnd name w) as [assigned w1]. cbn [snd] in Hn.
    subst w1. now injection Hs as -> _.
  - apply createRoom_inv in H.
    destruct H as (name & code & w1 & _ & Hgen & _ & Hs).
    apply generateUniqueRoomCode_spec in Hgen.
    destruct Hgen as (_ & (n & ->) & _).
    unfold create_success in Hs.
    match type of Hs with
    | context [assign_name rnd name ?w2] =>
        destruct (assign_name_frame rnd name w2) as [m Hm];
        destruct (assign_name rnd name w2) as [assigned w3]
    end.
    cbn [snd] in Hm. subst w3. now injection Hs as -> _.
  - apply sendMessage_inv in H.
    destruct H as [[-> _]|(c & room & user & s & _ & _ & _ & Hs)];
      [reflexivity|].
    unfold send_success in Hs. cbn [random] in Hs. now injection Hs as -> _.
  - apply typing_inv in H. now destruct H as [-> _].
  - unfold relay in H. destruct (active_tag sid w) as [[c r]|];
      now injection H as <- _.
  - unfold relay in H. destruct (active_tag sid w) as [[c r]|];
      now injection H as <- _.
  - unfold relay in H. destruct (active_tag sid w) as [[c r]|];
      now injection H as <- _.
  - unfold voiceChat in H. destruct (active_tag sid w) as [[c r]|];
      now injection H as <- _.
  - unfold voiceChat in H. destruct (active_tag sid w) as [[c r]|];
      now injection H as <- _.
Qed.

(** Every key of the name ledger was recorded by the departure of a
    participant whose display name reads as the text of the key. *)
Lemma run_name_key_provenance fuel es :
  forall w0 w out k,
    run rnd fuel w0 es = Done (w, out) ->
    In k (usernameSessions w) ->
    In k (usernameSessions w0)
    \/ exists c t, k = session_key t c /\ left_under_name rnd fuel w0 es c t.
Proof.
  induction es as [|e es IH]; intros w0 w out k; cbn [run].
  - intros [= <- _]. now left.
  - intros H Hk. break_outcome H. break_outcome H. injection H as <- _.
    destruct a as [w1 o1], a0 as [w2 o2]. cbn [fst snd] in *.
    destruct (IH w1 w2 o2 k E0 Hk)
      as [Hk1|(c & t & -> & es1 & sid & now & a & es2 & w3 & o3 & room & i
               & user & -> & Hrun1 & Hopen & Ha & Hd & Ht)].
    + destruct e as [sid now a|now|]; cbn [step] in E.
      * destruct (set_has sid (closed w0)) eqn:Hopen;
          [injection E as <- _; now left|].
        destruct (handle_name_keys _ _ _ _ _ _ _ E)
          as [Hsame|(Ha & c & room & i & user & t & Hd & Ht & Hadd)].
        -- left. now rewrite <- Hsame.
        -- rewrite Hadd in Hk1. apply In_set_add in Hk1.
           destruct Hk1 as [->|Hk1]; [|now left].
           right. exists c, t. split; [reflexivity|].
           exists [], sid, now, a, es, w0, [], room, i, user. auto 10.
      * rewrite sweep_eq in E. injection E as <- _. left.
        destruct (destroy_all_frame (expired_codes now (rooms w0)) w0)
          as (_ & Hsame & _).
        now rewrite <- Hsame.
      * break_outcome E. destruct a as [code w4]. injection E as <- _.
        apply generateUniqueRoomCode_spec in E1.
        destruct E1 as (_ & (n & ->) & _). now left.
    + right. exists c, t. split; [reflexivity|].
      exists (e :: es1), sid, now, a, es2, w3, (o1 ++ o3), room, i, user.
      split; [reflexivity|]. split; [|auto].
      cbn [run]. rewrite E. cbn [bind fst snd]. rewrite Hrun1. reflexivity.
Qed.

End Anonymous.

Section NamelessJoin.
Variable rnd : nat -> N.

(** A join without a display name that has passed the checks on the room
    and on the caller's identity is decided by the ledger key of the name
    "anonymous". *)
Lemma joinRoom_nameless sid now data c name room w :
  JS.get data "code" = Done (JS.Str c) ->
  JS.get data "username" = Done name ->
  JS.truthy name = false ->
  JS.test_4digits c = true ->
  assoc_get c (rooms w) = Some room ->
  List.length (users room) < 2 ->
  find (is_socket sid) (users room) = None ->
  set_has (session_key sid c) (userSessions w) = false ->
  joinRoom rnd sid now data w
  = if set_has (session_key "anonymous" c) (usernameSessions w)
    then Done (w, [Deliver sid (EError msgRejoinForbidden)])
    else Done (join_success rnd sid now c name room w).
Proof.
  intros Hcode Hname Hfalsy Hc Hroom Hlen Hfind Hid.
  unfold joinRoom, reply. rewrite Hcode, Hname. cbn [bind JS.to_string].
  rewrite Hc. cbn [negb]. rewrite Hroom.
  destruct (Nat.leb_spec 2 (List.length (users room))) as [|_]; [lia|].
  rewrite Hfind. unfold JS.or. rewrite Hfalsy.
  cbn [JS.template JS.to_string bind].
  fold (session_key sid c). fold (session_key "anonymous" c).
  rewrite Hid. cbn [orb].
  destruct (set_has (session_key "anonymous" c) (usernameSessions w));
    [reflexivity|].
  unfold join_success, assign_name. rewrite Hfalsy. cbn [random].
  reflexivity.
Qed.

End NamelessJoin.

(** C10, as amended.  In every reachable state:
    - a [joinRoom] without a display name that has passed the checks on the
      room and on the caller's identity is refused exactly when the name
      ledger holds the key of the name "anonymous" for that code;
    - the departure, by [leaveRoom] or by disconnection, of a listed
      participant of its tagged room completes and records the key of the
      display name the participant was assigned;
    - so the departure of a participant with a generated name [User<n>]
      leaves the outcome of that check as it was, for every code;
    - the name ledger holds the key of "anonymous" for a code only when,
      earlier in the run, a departure handler has removed from the room of
      that very code a participant whose display name converts to the text
      "anonymous" (the string, or for instance the array [["anonymous"]]);
    - and in a run in which no payload of [joinRoom] or [createRoom] carries
      a name that converts to "anonymous" the name ledger never holds that
      key for a 4-digit code, so no join without a name is ever refused by
      the name-based check. *)
Theorem nameless_join_and_generated_names rnd fuel0 es w out0 :
  run rnd fuel0 init es = Done (w, out0) ->
  (forall sid now data c name room,
      JS.get data "code" = Done (JS.Str c) ->
      JS.get data "username" = Done name ->
      JS.truthy name = false ->
      assoc_get c (rooms w) = Some room ->
      List.length (users room) < 2 ->
      find (is_socket sid) (users room) = None ->
      set_has (session_key sid c) (userSessions w) = false ->
      joinRoom rnd sid now data w
      = if set_has (session_key "anonymous" c) (usernameSessions w)
        then Done (w, [Deliver sid (EError msgRejoinForbidden)])
        else Done (join_success rnd sid now c name room w))
  /\ (forall fuel sid now a c room user,
         is_departure a ->
         set_has sid (closed w) = false ->
         active_tag sid w = Some (c, room) ->
         find (is_socket sid) (users room) = Some user ->
         exists w' out t,
           step rnd fuel w (FromSocket sid now a) = Done (w', out)
           /\ JS.to_string (username user) = Done t
           /\ usernameSessions w' = set_add (session_key t c) (usernameSessions w)
           /\ (forall n c',
                  username user = JS.Str ("User" +++ JS.dec n) ->
                  set_has (session_key "anonymous" c') (usernameSessions w')
                  = set_has (session_key "anonymous" c') (usernameSessions w)))
  /\ (forall c,
         JS.test_4digits c = true ->
         set_has (session_key "anonymous" c) (usernameSessions w) = true ->
         left_under_name rnd fuel0 init es c "anonymous")
  /\ (Forall (fun e => ~ supplies_anonymous e) es ->
      forall c,
        JS.test_4digits c = true ->
        set_has (session_key "anonymous" c) (usernameSessions w) = false).
Proof.
  intros Hrun.
  assert (Hreach : reachable rnd w).
  { eapply run_reachable; [apply reach_init|exact Hrun]. }
  pose proof (reachable_Inv _ _ Hreach) as HI.
  split; [|split; [|split]].
  - intros sid now data c name room Hcode Hname Hfalsy Hroom Hlen Hfind Hid.
    destruct (inv_rooms _ HI c room Hroom) as (Hc & _).
    now apply joinRoom_nameless.
  - intros fuel sid now a c room user Ha Hopen Htag Hfind.
    destruct (departing_intro _ _ _ _ _ Htag Hfind) as [i Hd].
    destruct (departure_completes rnd fuel sid now a w c room i user HI Ha Hd)
      as (w2 & out & Hstep & _).
    destruct (departure_name_record _ _ _ _ _ _ _ _ _ _ _ _ Ha Hd Hstep)
      as (t & Ht & Hkeys).
    eexists _, out, t. cbn [step]. rewrite Hopen.
    split; [exact Hstep|]. split; [exact Ht|]. split; [exact Hkeys|].
    intros n c' Hgen. rewrite Hkeys, set_has_add.
    rewrite Hgen in Ht. cbn in Ht. injection Ht as <-. reflexivity.
  - intros c Hc Hk. apply set_has_In in Hk.
    destruct (run_name_key_provenance rnd fuel0 es init w out0 _ Hrun Hk)
      as [[]|(c' & t & Hkey & Hleft)].
    pose proof Hleft
      as (es1 & sid & now & a & es2 & w1 & o1 & room & i & user
          & _ & Hrun1 & _ & _ & (Htag & _) & _).
    assert (HI1 : Inv w1).
    { eapply reachable_Inv, run_reachable; [apply reach_init|exact Hrun1]. }
    apply active_tag_Some in Htag. destruct Htag as (Htag & _).
    pose proof (inv_tags _ HI1 sid c' Htag) as Hc'.
    apply session_key_inj in Hkey;
      [|now rewrite (test_4digits_length _ Hc), (test_4digits_length _ Hc')].
    destruct Hkey as [<- <-]. exact Hleft.
  - intros Hall c Hc. apply set_has_false.
    assert (HN : NoAnon w).
    { eapply run_NoAnon; [apply reach_init| |exact Hall|exact Hrun].
      split; [intros c0 r u; discriminate|intros c0 _ []]. }
    destruct HN as [_ Hkeys]. now apply Hkeys.
Qed.

Lemma nameless_join_and_generated_names_witness :
  usernameSessions (world_after zeros 0 nameless_visitor_left) = ["User0-0000"]
  /\ set_has (session_key "anonymous" "0000")
             (usernameSessions (world_after zeros 0 nameless_visitor_left))
     = false
  /\ joinRoom zeros "D" 3 (nameless_join "0000")
              (world_after zeros 0 nameless_visitor_left)
     = Done (join_success zeros "D" 3 "0000" JS.Undefined
               (mkRoom [mkUser "A" (JS.Str "Ann") 0] [] 0 600001 1 None)
               (world_after zeros 0 nameless_visitor_left)).
Proof.
  assert (R : run zeros 0 init nameless_visitor_left
              = Done (world_after zeros 0 nameless_visitor_left,
                      output_after zeros 0 nameless_visitor_left))
    by (vm_compute; reflexivity).
  destruct (nameless_join_and_generated_names
              zeros 0 nameless_visitor_left _ _ R) as (Hjoin & _ & _ & Hnever).
  assert (Hkey : set_has (session_key "anonymous" "0000")
                         (usernameSessions
                            (world_after zeros 0 nameless_visitor_left))
                 = false).
  { apply Hnever; [|reflexivity].
    repeat (constructor; [intros H; cbn in H; first [discriminate H|exact H]|]).
    constructor. }
  split; [vm_compute; reflexivity|]. split; [exact Hkey|].
  rewrite (Hjoin "D" 3%Z (nameless_join "0000") "0000" JS.Undefined
                 (mkRoom [mkUser "A" (JS.Str "Ann") 0] [] 0 600001 1 None)).
  - rewrite Hkey. reflexivity.
  - reflexivity.
  - reflexivity.
  - reflexivity.
  - vm_compute. reflexivity.
  - vm_compute. lia.
  - reflexivity.
  - vm_compute. reflexivity.
Defined.

(** C10 as stated fails when somebody asks for the display name "anonymous":
    Cy joins room "0000" without a name (and is called User0) and leaves; Bo
    joins as "anonymous" and leaves; Di, a connection that never was in the
    room, then joins without a name and is refused by the name-based check
    alone. *)
Lemma nameless_join_blocked_by_the_name_anonymous :
  let w := world_after zeros 0 anonymous_by_name in
  userSessions w = ["C-0000"; "B-0000"]
  /\ usernameSessions w = ["User0-0000"; "anonymous-0000"]
  /\ set_has (session_key "D" "0000") (userSessions w) = false
  /\ set_has (session_key "anonymous" "0000") (usernameSessions w) = true
  /\ joinRoom zeros "D" 5 (nameless_join "0000") w
     = Done (w, [Deliver "D" (EError msgRejoinForbidden)]).
Proof. cbv zeta. evaluate_all. Qed.

(** The name need not be a string: the array [["anonymous"]] is truthy, is
    kept as the display name, and converts to the text "anonymous" when the
    ledger key is built on departure. *)
Example array_name_reads_anonymous :
  JS.truthy (JS.Arr [JS.Str "anonymous"]) = true
  /\ JS.to_string (JS.Arr [JS.Str "anonymous"]) = Done "anonymous"
  /\ usernameSessions (world_after zeros 0 anonymous_by_array)
     = ["User0-0000"; "anonymous-0000"]
  /\ joinRoom zeros "D" 5 (nameless_join "0000")
              (world_after zeros 0 anonymous_by_array)
     = Done (world_after zeros 0 anonymous_by_array,
             [Deliver "D" (EError msgRejoinForbidden)]).
Proof. evaluate_all. Qed.

(* ------------------------------------------------------------------ *)
(** ** What one event does to one room *)

Section RoomCases.
Variable rnd : nat -> N.

Lemma handle_room_cases fuel sid now a w w' out c r' :
  Inv w ->
  handle rnd fuel sid now a w = Done (w', out) ->
  assoc_get c (rooms w') = Some r' ->
  assoc_get c (rooms w) = Some r'
  \/ (exists r, assoc_get c (rooms w) = Some r /\ room_change sid now r r')
  \/ (exists data name,
         a = ACreateRoom data
         /\ assoc_get c (rooms w) = None
         /\ JS.truthy name = true
         /\ r' = created_room sid name now).
Proof.
  intros HI H Hr'.
  destruct a as [d|d|d|d| | |d|d|d| |]; cbn [handle] in H.
  - (* joinRoom *)
    apply joinRoom_inv in H.
    destruct H as [[-> _]|(c0 & name & room & _ & _ & Hadm & Hs)]; [now left|].
    destruct Hadm as (_ & Hroom & _ & Hfind & _).
    pose proof (assign_name_truthy rnd name w) as Htr.
    pose proof (assign_name_cursor rnd name w) as Hcur.
    unfold join_success in Hs.
    destruct (assign_name rnd name w) as [assigned w1]. cbn [fst snd] in *.
    unfold cursor_only in Hcur. injection Hs as -> _.
    cbn [rooms enter set_roomCodes set_joined set_rooms] in Hr'.
    rewrite Hcur in Hr'. cbn [rooms set_cursor] in Hr'.
    rewrite assoc_get_set in Hr'.
    destruct (String.eqb_spec c0 c) as [<-|_]; [|now left].
    injection Hr' as <-. right. left. exists room. split; [assumption|].
    eapply change_join with (u := mkUser sid assigned (reading now 0)); auto.
  - (* createRoom *)
    apply createRoom_inv in H.
    destruct H as (name & code & w1 & _ & Hgen & _ & Hs).
    apply generateUniqueRoomCode_spec in Hgen.
    destruct Hgen as (_ & (n & ->) & Hfresh).
    assert (Hnone : assoc_get code (rooms w) = None).
    { destruct Hfresh as [Hf|Hf]; [|assumption].
      destruct (assoc_get code (rooms w)) as [room|] eqn:Hroom; [|reflexivity].
      destruct (inv_rooms _ HI code room Hroom) as (_ & Hused & _).
      apply set_has_false in Hf. contradiction. }
    unfold create_success in Hs.
    match type of Hs with
    | context [assign_name rnd name ?w2] =>
        pose proof (assign_name_truthy rnd name w2) as Htr;
        pose proof (assign_name_cursor rnd name w2) as Hcur;
        destruct (assign_name rnd name w2) as [assigned w3]
    end.
    cbn [fst snd] in *. unfold cursor_only in Hcur. injection Hs as -> _.
    cbn [rooms enter set_roomCodes set_joined set_rooms] in Hr'.
    rewrite Hcur in Hr'. cbn [rooms set_cursor set_rooms set_usedCodes] in Hr'.
    rewrite !assoc_get_set in Hr'.
    destruct (String.eqb_spec code c) as [<-|_]; [|now left].
    injection Hr' as <-. right. right. exists d, assigned. auto.
  - (* sendMessage *)
    apply sendMessage_inv in H.
    destruct H as [[-> _]|(c0 & room & user & s & _ & Ht & Hf & Hs)]; [now left|].
    apply active_tag_Some in Ht. destruct Ht as (_ & _ & Hroom).
    unfold send_success in Hs. cbn [random] in Hs. injection Hs as -> _.
    cbn [rooms set_rooms set_cursor] in Hr'. rewrite assoc_get_set in Hr'.
    destruct (String.eqb_spec c0 c) as [<-|_]; [|now left].
    injection Hr' as <-. right. left. exists room. split; [assumption|].
    eapply change_message with (user := user) (text := s); [exact Hf| |reflexivity].
    reflexivity.
  - (* typing *)
    apply typing_inv in H. destruct H as [-> _]. now left.
  - (* disconnect *)
    apply disconnect_inv in H.
    destruct H as [[-> _]|(c0 & room & i & user & w2 & Hd & Hrec & Hcl & _)];
      [now left|].
    destruct Hd as (Ht & Hi & _). apply active_tag_Some in Ht.
    destruct Ht as (_ & _ & Hroom).
    apply record_left_inv in Hrec. destruct Hrec as (t & _ & ->).
    apply cleanup_if_empty_inv in Hcl. subst w'.
    destruct (List.length (users (without i room)) =? 0) eqn:Hlen.
    + cbn [destroy rooms set_rooms set_usedCodes set_usernameSessions
           set_userSessions set_roomCodes set_joined] in Hr'.
      rewrite assoc_delete_set, assoc_get_delete in Hr'.
      destruct (String.eqb c0 c); [discriminate|now left].
    + cbn [rooms set_rooms set_usedCodes set_usernameSessions
           set_userSessions set_roomCodes set_joined] in Hr'.
      rewrite assoc_get_set in Hr'.
      destruct (String.eqb_spec c0 c) as [<-|_]; [|now left].
      injection Hr' as <-. right. left. exists room. split; [assumption|].
      apply change_depart with (i := i); auto.
      intros E. rewrite E in Hlen. discriminate.
  - (* leaveRoom *)
    apply leaveRoom_inv in H.
    destruct H as [[-> _]|(c0 & room & i & user & w2 & Hd & Hrec & Hcl & _)];
      [now left|].
    destruct Hd as (Ht & Hi & _). apply active_tag_Some in Ht.
    destruct Ht as (_ & _ & Hroom).
    apply record_left_inv in Hrec. destruct Hrec as (t & _ & ->).
    apply cleanup_if_empty_inv in Hcl. subst w'.
    destruct (List.length (users (without i room)) =? 0) eqn:Hlen.
    + cbn [destroy rooms set_rooms set_usedCodes set_usernameSessions
           set_userSessions set_roomCodes set_joined] in Hr'.
      rewrite assoc_delete_set, assoc_get_delete in Hr'.
      destruct (String.eqb c0 c); [discriminate|now left].
    + cbn [rooms set_rooms set_usedCodes set_usernameSessions
           set_userSessions set_roomCodes set_joined] in Hr'.
      rewrite assoc_get_set in Hr'.
      destruct (String.eqb_spec c0 c) as [<-|_]; [|now left].
      injection Hr' as <-. right. left. exists room. split; [assumption|].
      apply change_depart with (i := i); auto.
      intros E. rewrite E in Hlen. discriminate.
  - unfold relay in H. destruct (active_tag sid w) as [[c0 r]|];
      injection H as <- _; now left.
  - unfold relay in H. destruct (active_tag sid w) as [[c0 r]|];
      injection H as <- _; now left.
  - unfold relay in H. destruct (active_tag sid w) as [[c0 r]|];
      injection H as <- _; now left.
  - unfold voiceChat in H. destruct (active_tag sid w) as [[c0 r]|] eqn:Et;
      injection H as <- _; [|now left].
    apply active_tag_Some in Et. destruct Et as (_ & _ & Hroom).
    cbn [rooms set_rooms] in Hr'. rewrite assoc_get_set in Hr'.
    destruct (String.eqb_spec c0 c) as [<-|_]; [|now left].
    injection Hr' as <-. right. left. exists r. split; [assumption|].
    now apply change_voice with (b := true).
  - unfold voiceChat in H. destruct (active_tag sid w) as [[c0 r]|] eqn:Et;
      injection H as <- _; [|now left].
    apply active_tag_Some in Et. destruct Et as (_ & _ & Hroom).
    cbn [rooms set_rooms] in Hr'. rewrite assoc_get_set in Hr'.
    destruct (String.eqb_spec c0 c) as [<-|_]; [|now left].
    injection Hr' as <-. right. left. exists r. split; [assumption|].
    now apply change_voice with (b := false).
Qed.

End RoomCases.

Section RoomSteps.
Variable rnd : nat -> N.

Lemma step_room_cases fuel e w w' out c r' :
  Inv w ->
  step rnd fuel w e = Done (w', out) ->
  assoc_get c (rooms w') = Some r' ->
  assoc_get c (rooms w) = Some r'
  \/ (exists sid now a r,
         e = FromSocket sid now a
         /\ assoc_get c (rooms w) = Some r /\ room_change sid now r r')
  \/ (exists sid now a name,
         e = FromSocket sid now a
         /\ assoc_get c (rooms w) = None
         /\ JS.truthy name = true
         /\ r' = created_room sid name now).
Proof.
  intros HI. destruct e as [sid now a|now|]; cbn [step].
  - destruct (set_has sid (closed w)); [intros [= <- _]; now left|].
    intros H Hr'.
    destruct (handle_room_cases rnd fuel sid now a w w' out c r' HI H Hr')
      as [Hsame|[(r & Hr & Hch)|(d & name & _ & Hn & Ht & Hc)]].
    + now left.
    + right. left. exists sid, now, a, r. auto.
    + right. right. exists sid, now, a, name. auto.
  - rewrite sweep_eq. intros [= <- _]. rewrite destroy_all_rooms.
    destruct (set_has c _); [discriminate|now left].
  - intros H. break_outcome H. destruct a as [code w1]. injection H as <- _.
    apply generateUniqueRoomCode_spec in E. destruct E as (_ & (n & ->) & _).
    now left.
Qed.

(** An induction principle for properties of the rooms of reachable states:
    it is enough that the property holds of a created room and is kept by
    every change of a room. *)
Lemma reachable_rooms_ind (P : Room -> Prop) :
  (forall sid name now, JS.truthy name = true -> P (created_room sid name now)) ->
  (forall sid now r r', P r -> room_change sid now r r' -> P r') ->
  forall w, reachable rnd w ->
  forall c r, assoc_get c (rooms w) = Some r -> P r.
Proof.
  intros Hnew Hstep w Hw.
  induction Hw as [|fuel w e w' out Hw IH Hs]; [discriminate|].
  intros c r' Hr'.
  destruct (step_room_cases fuel e w w' out c r' (reachable_Inv rnd w Hw) Hs Hr')
    as [Hsame|[(sid & now & a & r & _ & Hr & Hch)
              |(sid & now & a & name & _ & _ & Ht & ->)]].
  - eapply IH; eassumption.
  - eapply Hstep; [eapply IH; exact Hr|exact Hch].
  - now apply Hnew.
Qed.

End RoomSteps.

(* ------------------------------------------------------------------ *)
(** ** Further invariants of the room store *)

(** X1.  After every run each active room has a code of 4 digits that is in
    the used-code set, and the room tag of every connection is such a code. *)
Theorem active_codes_are_reserved rnd fuel es w out :
  run rnd fuel init es = Done (w, out) ->
  (forall c room,
      assoc_get c (rooms w) = Some room ->
      JS.test_4digits c = true /\ set_has c (usedCodes w) = true)
  /\ (forall sid c,
         assoc_get sid (roomCodes w) = Some c -> JS.test_4digits c = true).
Proof.
  intros Hrun.
  assert (HI : Inv w).
  { eapply reachable_Inv, run_reachable; [apply reach_init|exact Hrun]. }
  split.
  - intros c room Hroom.
    destruct (inv_rooms _ HI c room Hroom) as (H1 & H2 & _).
    split; [assumption|now apply set_has_In].
  - apply (inv_tags _ HI).
Qed.

Lemma active_codes_are_reserved_witness :
  JS.test_4digits "0000" = true
  /\ set_has "0000" (usedCodes (world_after zeros 0 two_in_a_room)) = true.
Proof.
  assert (R : run zeros 0 init two_in_a_room
              = Done (world_after zeros 0 two_in_a_room,
                      output_after zeros 0 two_in_a_room))
    by (vm_compute; reflexivity).
  eapply (proj1 (active_codes_are_reserved zeros 0 two_in_a_room _ _ R) "0000").
  vm_compute. reflexivity.
Defined.

(** X2.  After every run no room of the store is empty: a room is installed
    with its creator in it and is removed by the departure that empties it. *)
Theorem no_room_is_empty rnd fuel es w out :
  run rnd fuel init es = Done (w, out) ->
  forall c room, assoc_get c (rooms w) = Some room -> users room <> [].
Proof.
  intros Hrun.
  apply (reachable_rooms_ind rnd (fun r => users r <> [])).
  - intros sid name now _. discriminate.
  - intros sid now r r' Hr [u _ _ _ ->|m user text _ _ ->|i _ Hne ->|b ->]; cbn.
    + intros E. apply app_eq_nil in E. destruct E as [_ E]. discriminate.
    + assumption.
    + exact Hne.
    + assumption.
  - eapply run_reachable; [apply reach_init|exact Hrun].
Qed.

Lemma no_room_is_empty_witness :
  exists room,
    assoc_get "0000" (rooms (world_after zeros 0 bob_leaves)) = Some room
    /\ users room <> [].
Proof.
  assert (R : run zeros 0 init bob_leaves
              = Done (world_after zeros 0 bob_leaves, output_after zeros 0 bob_leaves))
    by (vm_compute; reflexivity).
  exists (mkRoom [mkUser "A" (JS.Str "Ann") 0] [] 0 600001 1 None).
  assert (E : assoc_get "0000" (rooms (world_after zeros 0 bob_leaves))
              = Some (mkRoom [mkUser "A" (JS.Str "Ann") 0] [] 0 600001 1 None))
    by (vm_compute; reflexivity).
  split; [exact E|].
  exact (no_room_is_empty zeros 0 bob_leaves _ _ R "0000" _ E).
Defined.

(** X3.  After every run the participants of a room have pairwise distinct
    connection identities, and each has a display name that is truthy (not
    the empty string, not absent) and converts to a string. *)
Theorem participants_are_distinct_and_named rnd fuel es w out :
  run rnd fuel init es = Done (w, out) ->
  forall c room,
    assoc_get c (rooms w) = Some room ->
    NoDup (map socketId (users room))
    /\ forall u, In u (users room) ->
                 JS.truthy (username u) = true
                 /\ exists s, JS.to_string (username u) = Done s.
Proof.
  intros Hrun c room Hroom.
  assert (HI : Inv w).
  { eapply reachable_Inv, run_reachable; [apply reach_init|exact Hrun]. }
  destruct (inv_rooms _ HI c room Hroom) as (_ & _ & _ & Hnd & Hall).
  split; [assumption|]. intros u Hu. rewrite Forall_forall in Hall.
  destruct (Hall u Hu) as (H1 & H2 & _). auto.
Qed.

Lemma participants_are_distinct_and_named_witness :
  NoDup (map socketId [mkUser "A" (JS.Str "Ann") 0; mkUser "B" (JS.Str "Bob") 1]).
Proof.
  assert (R : run zeros 0 init two_in_a_room
              = Done (world_after zeros 0 two_in_a_room,
                      output_after zeros 0 two_in_a_room))
    by (vm_compute; reflexivity).
  apply (proj1 (participants_are_distinct_and_named
                  zeros 0 two_in_a_room _ _ R "0000"
                  (mkRoom [mkUser "A" (JS.Str "Ann") 0;
                           mkUser "B" (JS.Str "Bob") 1]
                          [] 0 600001 1 None)
                  ltac:(vm_compute; reflexivity))).
Defined.

(* ------------------------------------------------------------------ *)
(** ** Message histories *)

Lemma trimStart_list_split l :
  exists p, l = p ++ JS.trimStart_list l.
Proof.
  induction l as [|x l [p Hp]]; [now exists []|]. cbn.
  destruct (JS.is_space x).
  - exists (x :: p). cbn. now rewrite <- Hp.
  - now exists [].
Qed.

Lemma trimStart_list_head l x :
  hd_error (JS.trimStart_list l) = Some x -> JS.is_space x = false.
Proof.
  induction l as [|y l IH]; cbn; [discriminate|].
  destruct (JS.is_space y) eqn:E; [assumption|]. cbn. now intros [= <-].
Qed.

(** [trim] leaves no white space at either end. *)
Lemma trim_no_outer_space s : no_outer_space (JS.trim s).
Proof.
  unfold no_outer_space, JS.trim. cbv zeta.
  rewrite list_ascii_of_string_of_list_ascii.
  set (A := JS.trimStart_list (list_ascii_of_string s)).
  set (B := JS.trimStart_list (rev A)).
  split.
  - intros x Hx. destruct (trimStart_list_split (rev A)) as [p Hp].
    fold B in Hp. apply (f_equal (@rev ascii)) in Hp.
    rewrite rev_involutive, rev_app_distr in Hp.
    apply (trimStart_list_head (list_ascii_of_string s)). fold A.
    rewrite Hp. destruct (rev B); [discriminate|]. exact Hx.
  - intros x. rewrite rev_involutive. apply trimStart_list_head.
Qed.

(** X4.  In every reachable state an event that leaves a room in the store
    leaves its history as it was or appends one message to it, and leaves
    its creation time as it was: no message is ever removed, rewritten or
    reordered while the room lives. *)
Theorem history_is_append_only rnd fuel0 es w out0 fuel e w' out c r r' :
  run rnd fuel0 init es = Done (w, out0) ->
  step rnd fuel w e = Done (w', out) ->
  assoc_get c (rooms w) = Some r ->
  assoc_get c (rooms w') = Some r' ->
  (messages r' = messages r \/ exists m, messages r' = messages r ++ [m])
  /\ createdAt r' = createdAt r.
Proof.
  intros Hrun Hstep Hr Hr'.
  assert (HI : Inv w).
  { eapply reachable_Inv, run_reachable; [apply reach_init|exact Hrun]. }
  destruct (step_room_cases rnd fuel e w w' out c r' HI Hstep Hr')
    as [Hsame|[(sid & now & a & r0 & _ & Hr0 & Hch)
              |(sid & now & a & name & _ & Hnone & _)]].
  - rewrite Hr in Hsame. injection Hsame as <-. auto.
  - rewrite Hr in Hr0. injection Hr0 as <-.
    destruct Hch as [u _ _ _ ->|m user text _ _ ->|i _ _ ->|b ->]; cbn; eauto.
  - congruence.
Qed.

Lemma history_is_append_only_witness :
  exists m,
    map msg_message
        (messages (mkRoom [mkUser "A" (JS.Str "Ann") 0; mkUser "B" (JS.Str "Bob") 1]
                          [mkMessage (2%Z, 0%N) (JS.Str "Bob") "hello" 2 "B"]
                          0 600002 2 None))
    = map msg_message ([] ++ [m]).
Proof.
  assert (R : run zeros 0 init two_in_a_room
              = Done (world_after zeros 0 two_in_a_room,
                      output_after zeros 0 two_in_a_room))
    by (vm_compute; reflexivity).
  destruct (history_is_append_only
              zeros 0 two_in_a_room _ _ 0 bob_says_hello
              (world_after zeros 0 (two_in_a_room ++ [bob_says_hello]))
              (skipn 3 (output_after zeros 0 (two_in_a_room ++ [bob_says_hello])))
              "0000"
              (mkRoom [mkUser "A" (JS.Str "Ann") 0; mkUser "B" (JS.Str "Bob") 1]
                      [] 0 600001 1 None)
              (mkRoom [mkUser "A" (JS.Str "Ann") 0; mkUser "B" (JS.Str "Bob") 1]
                      [mkMessage (2%Z, 0%N) (JS.Str "Bob") "hello" 2 "B"]
                      0 600002 2 None)
              R ltac:(vm_compute; reflexivity) ltac:(vm_compute; reflexivity)
              ltac:(vm_compute; reflexivity))
    as [[H|[m H]] _].
  - discriminate H.
  - exists m. cbn [messages] in H. now rewrite H.
Defined.

(** X5.  After every run the text of every message kept in a history has no
    white space at its start or at its end: what [sendMessage] stores is the
    trimmed text (possibly the empty text). *)
Theorem stored_messages_are_trimmed rnd fuel es w out :
  run rnd fuel init es = Done (w, out) ->
  forall c room m,
    assoc_get c (rooms w) = Some room ->
    In m (messages room) ->
    no_outer_space (msg_message m).
Proof.
  intros Hrun c room m Hroom.
  revert m.
  apply (reachable_rooms_ind rnd
           (fun r => forall m, In m (messages r) -> no_outer_space (msg_message m)))
    with (w := w) (c := c); [| | |exact Hroom].
  - intros sid name now _ m [].
  - intros sid now r r' Hr [u _ _ _ ->|m0 user text _ Hm ->|i _ _ ->|b ->] m;
      cbn; try apply Hr.
    intros Hin. apply in_app_iff in Hin. destruct Hin as [Hin|[<-|[]]].
    + now apply Hr.
    + rewrite Hm. cbn. apply trim_no_outer_space.
  - eapply run_reachable; [apply reach_init|exact Hrun].
Qed.

Lemma stored_messages_are_trimmed_witness :
  map msg_message
      (flat_map (fun cr => messages (snd cr)) (rooms (world_after zeros 0 chat)))
  = ["hi Bob"; "hi Ann"; ""]
  /\ forall c room m,
      assoc_get c (rooms (world_after zeros 0 chat)) = Some room ->
      In m (messages room) ->
      no_outer_space (msg_message m).
Proof.
  split; [vm_compute; reflexivity|].
  apply (stored_messages_are_trimmed zeros 0 chat _ (output_after zeros 0 chat)).
  vm_compute. reflexivity.
Defined.

(* ------------------------------------------------------------------ *)
(** ** The room store and the used-code set, event by event *)

Section StoreEdits.
Variable rnd : nat -> N.

Lemma departure_store_edit c room i user sid w1 w2 w w' :
  assoc_get c (rooms w) = Some room ->
  rooms w1 = assoc_set c (without i room) (rooms w) ->
  usedCodes w1 = usedCodes w ->
  record_left sid c user w1 = Done w2 ->
  cleanup_if_empty c (without i room) w2 = Done w' ->
  store_edit w w'.
Proof.
  intros Hroom Hr Hu Hrec Hcl.
  apply record_left_inv in Hrec. destruct Hrec as (t & _ & ->).
  apply cleanup_if_empty_inv in Hcl. subst w'.
  destruct (_ =? 0).
  - apply store_delete with (c := c) (r := room); [assumption| |].
    + cbn. rewrite Hr. apply assoc_delete_set.
    + cbn. now rewrite Hu.
  - apply store_rewrite with (c := c) (r := room) (r' := without i room);
      [assumption| |]; cbn; assumption.
Qed.

Lemma handle_store_edit fuel sid now a w w' out :
  handle rnd fuel sid now a w = Done (w', out) -> store_edit w w'.
Proof.
  destruct a as [d|d|d|d| | |d|d|d| |]; cbn [handle]; intros H.
  - apply joinRoom_inv in H.
    destruct H as [[-> _]|(c & name & room & _ & _ & Hadm & Hs)];
      [now apply store_same|].
    destruct Hadm as (_ & Hroom & _).
    pose proof (assign_name_cursor rnd name w) as Hcur.
    unfold join_success in Hs.
    destruct (assign_name rnd name w) as [assigned w1]. cbn [snd] in Hcur.
    unfold cursor_only in Hcur. injection Hs as -> _.
    eapply store_rewrite with (c := c); [exact Hroom| |];
      cbn; rewrite Hcur; reflexivity.
  - apply createRoom_inv in H.
    destruct H as (name & code & w1 & _ & Hgen & _ & Hs).
    apply generateUniqueRoomCode_spec in Hgen. destruct Hgen as (_ & (n & ->) & _).
    unfold create_success in Hs.
    match type of Hs with
    | context [assign_name rnd name ?w2] =>
        pose proof (assign_name_cursor rnd name w2) as Hcur;
        destruct (assign_name rnd name w2) as [assigned w3]
    end.
    cbn [snd] in Hcur. unfold cursor_only in Hcur. injection Hs as -> _.
    eapply store_install with (code := code); cbn; rewrite Hcur; reflexivity.
  - apply sendMessage_inv in H.
    destruct H as [[-> _]|(c & room & user & s & _ & Ht & _ & Hs)];
      [now apply store_same|].
    apply active_tag_Some in Ht. destruct Ht as (_ & _ & Hroom).
    unfold send_success in Hs. cbn [random] in Hs. injection Hs as -> _.
    eapply store_rewrite with (c := c); [exact Hroom| |]; reflexivity.
  - apply typing_inv in H. destruct H as [-> _]. now apply store_same.
  - apply disconnect_inv in H.
    destruct H as [[-> _]|(c & room & i & user & w2 & Hd & Hrec & Hcl & _)];
      [now apply store_same|].
    destruct Hd as (Ht & _). apply active_tag_Some in Ht.
    destruct Ht as (_ & _ & Hroom).
    eapply departure_store_edit; [exact Hroom| | |exact Hrec|exact Hcl];
      reflexivity.
  - apply leaveRoom_inv in H.
    destruct H as [[-> _]|(c & room & i & user & w2 & Hd & Hrec & Hcl & _)];
      [now apply store_same|].
    destruct Hd as (Ht & _). apply active_tag_Some in Ht.
    destruct Ht as (_ & _ & Hroom).
    eapply departure_store_edit; [exact Hroom| | |exact Hrec|exact Hcl];
      reflexivity.
  - unfold relay in H. destruct (active_tag sid w) as [[c r]|];
      injection H as <- _; now apply store_same.
  - unfold relay in H. destruct (active_tag sid w) as [[c r]|];
      injection H as <- _; now apply store_same.
  - unfold relay in H. destruct (active_tag sid w) as [[c r]|];
      injection H as <- _; now apply store_same.
  - unfold voiceChat in H. destruct (active_tag sid w) as [[c r]|] eqn:Et;
      injection H as <- _; [|now apply store_same].
    apply active_tag_Some in Et. destruct Et as (_ & _ & Hroom).
    eapply store_rewrite with (c := c); [exact Hroom| |]; reflexivity.
  - unfold voiceChat in H. destruct (active_tag sid w) as [[c r]|] eqn:Et;
      injection H as <- _; [|now apply store_same].
    apply active_tag_Some in Et. destruct Et as (_ & _ & Hroom).
    eapply store_rewrite with (c := c); [exact Hroom| |]; reflexivity.
Qed.

End StoreEdits.

Lemma assoc_get_keys {A} k (m : list (string * A)) :
  assoc_get k m = None <-> ~ In k (map fst m).
Proof.
  induction m as [|[k' v] m IH]; cbn; [tauto|].
  destruct (String.eqb_spec k' k) as [->|Hne].
  - split; [discriminate|tauto].
  - rewrite IH. tauto.
Qed.

Lemma map_fst_assoc_set {A} k (v : A) m :
  map fst (assoc_set k v m)
  = if assoc_has k m then map fst m else map fst m ++ [k].
Proof.
  unfold assoc_has. induction m as [|[k' v'] m IH]; cbn; [reflexivity|].
  destruct (String.eqb_spec k' k) as [->|Hne]; cbn; [reflexivity|].
  rewrite IH. now destruct (assoc_get k m).
Qed.

Lemma NoDup_keys_set {A} k (v : A) m :
  NoDup (map fst m) -> NoDup (map fst (assoc_set k v m)).
Proof.
  intros H. rewrite map_fst_assoc_set. destruct (assoc_has k m) eqn:E; [assumption|].
  apply assoc_has_false, assoc_get_keys in E.
  apply NoDup_app; [assumption|repeat constructor; intros []|].
  intros x Hx [<-|[]]. contradiction.
Qed.

Lemma map_fst_assoc_delete {A} k (m : list (string * A)) :
  map fst (assoc_delete k m) = filter (fun x => negb (String.eqb x k)) (map fst m).
Proof.
  unfold assoc_delete. induction m as [|[k' v'] m IH]; cbn; [reflexivity|].
  destruct (String.eqb k' k); cbn; now rewrite IH.
Qed.

Lemma NoDup_keys_delete {A} k (m : list (string * A)) :
  NoDup (map fst m) -> NoDup (map fst (assoc_delete k m)).
Proof. intros H. rewrite map_fst_assoc_delete. now apply NoDup_filter. Qed.

Lemma assoc_get_of_In {A} k (v : A) m :
  NoDup (map fst m) -> In (k, v) m -> assoc_get k m = Some v.
Proof.
  induction m as [|[k' v'] m IH]; cbn; [tauto|]. intros Hnd [E|Hin].
  - injection E as -> ->. now rewrite String.eqb_refl.
  - inversion Hnd as [|? ? Hk Hm]; subst.
    destruct (String.eqb_spec k' k) as [->|_]; [|auto].
    exfalso. apply Hk. now apply (in_map fst _ (k, v)).
Qed.

Lemma filter_twice {A} (f g : A -> bool) l :
  filter f (filter g l) = filter (fun x => g x && f x) l.
Proof.
  induction l as [|x l IH]; cbn; [reflexivity|].
  destruct (g x); cbn; [|assumption]. destruct (f x); now rewrite IH.
Qed.

Lemma destroy_all_rooms_list cs w :
  rooms (destroy_all cs w)
  = filter (fun kv => negb (set_has (fst kv) cs)) (rooms w).
Proof.
  revert w. induction cs as [|c cs IH]; intros w.
  - cbn [destroy_all fold_left]. symmetry. apply forallb_filter_id.
    apply forallb_forall. reflexivity.
  - cbn [destroy_all fold_left]. fold (destroy_all cs (destroy c w)).
    rewrite IH. cbn [destroy rooms set_usedCodes set_rooms].
    unfold assoc_delete. rewrite filter_twice. apply filter_ext.
    intros kv. unfold set_has. cbn [existsb]. now rewrite negb_orb.
Qed.

Lemma NoDup_keys_filter {A} (f : string * A -> bool) m :
  NoDup (map fst m) -> NoDup (map fst (filter f m)).
Proof.
  induction m as [|x l IH]; cbn; [constructor|]. intros H.
  inversion H as [|? ? Hx Hl]; subst.
  destruct (f x); cbn; [|auto].
  constructor; [|auto]. intros Hin. apply Hx.
  apply in_map_iff in Hin. destruct Hin as (y & Ey & Hy).
  apply filter_In in Hy. apply in_map_iff. exists y. tauto.
Qed.

Section UniqueCodes.
Variable rnd : nat -> N.

Lemma store_edit_keys w w' :
  store_edit w w' -> NoDup (active_codes w) -> NoDup (active_codes w').
Proof.
  unfold active_codes.
  intros [E _|c r r' _ E _|c r _ E _|code r0 r' E _] H; rewrite E.
  - assumption.
  - now apply NoDup_keys_set.
  - now apply NoDup_keys_delete.
  - now apply NoDup_keys_set, NoDup_keys_set.
Qed.

Lemma step_keys fuel e w w' out :
  step rnd fuel w e = Done (w', out) ->
  NoDup (active_codes w) -> NoDup (active_codes w').
Proof.
  destruct e as [sid now a|now|]; cbn [step].
  - destruct (set_has sid (closed w)); [now intros [= <- _]|].
    intros H. eapply store_edit_keys, handle_store_edit. exact H.
  - rewrite sweep_eq. intros [= <- _] H. unfold active_codes.
    rewrite destroy_all_rooms_list. now apply NoDup_keys_filter.
  - intros H. break_outcome H. destruct a as [code w1]. injection H as <- _.
    apply generateUniqueRoomCode_spec in E. destruct E as (_ & (n & ->) & _).
    auto.
Qed.

Lemma reachable_keys w : reachable rnd w -> NoDup (active_codes w).
Proof.
  induction 1 as [|fuel w e w' out _ IH Hs]; [constructor|].
  eapply step_keys; eassumption.
Qed.

End UniqueCodes.

(* ------------------------------------------------------------------ *)
(** ** More on the sweep *)

Lemma filter_none {A} (f : A -> bool) l :
  (forall x, In x l -> f x = false) -> filter f l = [].
Proof.
  induction l as [|x l IH]; cbn; [reflexivity|]. intros H.
  rewrite (H x (or_introl eq_refl)). apply IH. intros y Hy. apply H. now right.
Qed.

(** X6.  A tick of the sweeper right after a tick, at the same or at an
    earlier clock reading, finds nothing to do: it changes nothing and emits
    nothing. *)
Theorem sweep_is_idempotent rnd fuel fuel' w now now' w1 out :
  step rnd fuel w (Tick now) = Done (w1, out) ->
  (now' <= now)%Z ->
  step rnd fuel' w1 (Tick now') = Done (w1, []).
Proof.
  cbn [step]. rewrite sweep_eq. intros [= <- _] Hle. rewrite sweep_eq.
  set (cs := expired_codes now (rooms w)).
  assert (E : expired_codes now' (rooms (destroy_all cs w)) = []).
  { rewrite destroy_all_rooms_list. unfold expired_codes at 1.
    rewrite filter_twice, filter_none; [reflexivity|].
    intros [c r] Hin. cbn [fst snd].
    destruct (now' >? expiresAt r)%Z eqn:Hexp; [|apply andb_false_r].
    apply Z.gtb_gt in Hexp.
    assert (Hc : In c cs) by (apply (In_expired_codes now _ c r); [assumption|lia]).
    apply set_has_In in Hc. now rewrite Hc. }
  rewrite E. reflexivity.
Qed.

Lemma sweep_is_idempotent_witness :
  step zeros 0 (set_usedCodes [] (set_rooms [] (world_after zeros 0 two_in_a_room)))
       (Tick 650000)
  = Done (set_usedCodes [] (set_rooms [] (world_after zeros 0 two_in_a_room)), []).
Proof.
  apply (sweep_is_idempotent zeros 0 0 (world_after zeros 0 two_in_a_room)
           700000%Z 650000%Z _
           [Deliver "A" ERoomExpired; Deliver "B" ERoomExpired]).
  - vm_compute. reflexivity.
  - lia.
Defined.

(** X7.  In every reachable state a tick of the sweeper leaves every room
    whose deadline has not passed exactly as it was, with its code still
    reserved, and never touches the ledger, the room tags of the
    connections or the groups. *)
Theorem sweep_keeps_live_rooms rnd fuel0 es w out0 fuel now w' out :
  run rnd fuel0 init es = Done (w, out0) ->
  step rnd fuel w (Tick now) = Done (w', out) ->
  (forall c room,
      assoc_get c (rooms w) = Some room ->
      (now <= expiresAt room)%Z ->
      assoc_get c (rooms w') = Some room /\ set_has c (usedCodes w') = true)
  /\ userSessions w' = userSessions w
  /\ usernameSessions w' = usernameSessions w
  /\ roomCodes w' = roomCodes w
  /\ joined w' = joined w.
Proof.
  intros Hrun. cbn [step]. rewrite sweep_eq. intros [= <- _].
  assert (Hreach : reachable rnd w).
  { eapply run_reachable; [apply reach_init|exact Hrun]. }
  pose proof (reachable_Inv _ _ Hreach) as HI.
  pose proof (reachable_keys _ _ Hreach) as Hkeys.
  destruct (destroy_all_frame (expired_codes now (rooms w)) w)
    as (E1 & E2 & E3 & E4 & _).
  split; [|auto].
  intros c room Hroom Hlive.
  assert (Hc : ~ In c (expired_codes now (rooms w))).
  { unfold expired_codes. rewrite in_map_iff.
    intros ([c' r] & Ec & Hin). cbn in Ec. subst c'.
    apply filter_In in Hin. destruct Hin as [Hin Hexp]. cbn in Hexp.
    apply (assoc_get_of_In _ _ _ Hkeys) in Hin.
    rewrite Hroom in Hin. injection Hin as <-.
    apply Z.gtb_gt in Hexp. lia. }
  split.
  - rewrite destroy_all_rooms. apply set_has_false in Hc. now rewrite Hc.
  - apply set_has_In, destroy_all_usedCodes. split; [|assumption].
    now destruct (inv_rooms _ HI c room Hroom) as (_ & Hu & _).
Qed.

Lemma sweep_keeps_live_rooms_witness :
  step zeros 0 (world_after zeros 0 two_in_a_room) (Tick 600001)
  = Done (world_after zeros 0 two_in_a_room, [])
  /\ assoc_get "0000" (rooms (world_after zeros 0 two_in_a_room))
     = Some (mkRoom [mkUser "A" (JS.Str "Ann") 0; mkUser "B" (JS.Str "Bob") 1]
                    [] 0 600001 1 None).
Proof.
  assert (R : run zeros 0 init two_in_a_room
              = Done (world_after zeros 0 two_in_a_room,
                      output_after zeros 0 two_in_a_room))
    by (vm_compute; reflexivity).
  assert (S : step zeros 0 (world_after zeros 0 two_in_a_room) (Tick 600001)
              = Done (world_after zeros 0 two_in_a_room, []))
    by (vm_compute; reflexivity).
  split; [exact S|].
  apply (proj1 (sweep_keeps_live_rooms zeros 0 two_in_a_room _ _ 0 600001%Z _ _ R S)
               "0000").
  - vm_compute. reflexivity.
  - cbn. lia.
Defined.

(* ------------------------------------------------------------------ *)
(** ** Reserving and releasing codes *)

Lemma assoc_has_set {A} k k' (v : A) m :
  assoc_has k' (assoc_set k v m) = String.eqb k k' || assoc_has k' m.
Proof.
  unfold assoc_has. rewrite assoc_get_set. now destruct (String.eqb k k').
Qed.

Lemma assoc_has_delete {A} k k' (m : list (string * A)) :
  assoc_has k' (assoc_delete k m) = negb (String.eqb k k') && assoc_has k' m.
Proof.
  unfold assoc_has. rewrite assoc_get_delete. now destruct (String.eqb k k').
Qed.

Lemma set_has_delete k x s :
  set_has x (set_delete k s) = negb (String.eqb x k) && set_has x s.
Proof.
  apply eq_true_iff_eq.
  rewrite andb_true_iff, negb_true_iff, !set_has_In, In_set_delete.
  rewrite String.eqb_neq. tauto.
Qed.

Lemma store_edit_release w w' c :
  store_edit w w' ->
  (set_has c (usedCodes w) = true ->
   set_has c (usedCodes w') = false ->
   assoc_has c (rooms w) = true /\ assoc_has c (rooms w') = false)
  /\ (assoc_has c (rooms w) = true ->
      assoc_has c (rooms w') = false ->
      set_has c (usedCodes w') = false).
Proof.
  intros [Er Eu|c0 r r' Hr Er Eu|c0 r Hr Er Eu|code r0 r' Er Eu];
    rewrite Er, Eu; split; intros H1 H2.
  - congruence.
  - congruence.
  - congruence.
  - rewrite assoc_has_set, H1, orb_true_r in H2. discriminate.
  - rewrite set_has_delete, H1, andb_true_r in H2.
    apply negb_false_iff, String.eqb_eq in H2. subst c0.
    split; [unfold assoc_has; now rewrite Hr|].
    rewrite assoc_has_delete, String.eqb_refl. reflexivity.
  - rewrite assoc_has_delete, H1, andb_true_r in H2.
    apply negb_false_iff, String.eqb_eq in H2. subst c0.
    rewrite set_has_delete, String.eqb_refl. reflexivity.
  - rewrite set_has_add, H1, orb_true_r in H2. discriminate.
  - rewrite !assoc_has_set, H1, !orb_true_r in H2. discriminate.
Qed.

(** X8.  A code leaves the used-code set exactly with its room: whenever an
    event takes a reserved code out of the set, that code backed a room
    before the event and backs none after it; and whenever an event removes
    a room from the store, its code is out of the set afterwards. *)
Theorem code_is_released_with_its_room rnd fuel e w w' out c :
  step rnd fuel w e = Done (w', out) ->
  (set_has c (usedCodes w) = true ->
   set_has c (usedCodes w') = false ->
   assoc_has c (rooms w) = true /\ assoc_has c (rooms w') = false)
  /\ (assoc_has c (rooms w) = true ->
      assoc_has c (rooms w') = false ->
      set_has c (usedCodes w') = false).
Proof.
  destruct e as [sid now a|now|]; cbn [step]; intros Hstep.
  - apply store_edit_release.
    destruct (set_has sid (closed w)).
    + injection Hstep as <- _. now apply store_same.
    + eapply handle_store_edit. exact Hstep.
  - rewrite sweep_eq in Hstep. injection Hstep as <- _.
    set (cs := expired_codes now (rooms w)).
    assert (Hgone : set_has c cs = true ->
                    assoc_has c (rooms w) = true
                    /\ assoc_has c (rooms (destroy_all cs w)) = false
                    /\ set_has c (usedCodes (destroy_all cs w)) = false).
    { intros Hc. split; [|split].
      - apply set_has_In in Hc. unfold cs, expired_codes in Hc.
        apply in_map_iff in Hc. destruct Hc as ([c' r] & Ec & Hin).
        cbn in Ec. subst c'. apply filter_In in Hin. destruct Hin as [Hin _].
        unfold assoc_has.
        destruct (assoc_get c (rooms w)) eqn:Eg; [reflexivity|].
        apply assoc_get_keys in Eg. exfalso. apply Eg.
        now apply (in_map fst _ (c, r)).
      - unfold assoc_has. now rewrite destroy_all_rooms, Hc.
      - apply set_has_false. rewrite destroy_all_usedCodes.
        apply set_has_In in Hc. tauto. }
    destruct (set_has c cs) eqn:Hc.
    + destruct (Hgone eq_refl) as (G1 & G2 & G3). auto.
    + split; intros H1 H2.
      * exfalso. apply set_has_false in H2. apply H2, destroy_all_usedCodes.
        split; [now apply set_has_In|now apply set_has_false].
      * unfold assoc_has in H2. rewrite destroy_all_rooms, Hc in H2.
        unfold assoc_has in H1. rewrite H2 in H1. discriminate.
  - break_outcome Hstep. destruct a as [code w1]. injection Hstep as <- _.
    apply generateUniqueRoomCode_spec in E. destruct E as (_ & (n & ->) & _).
    cbn [rooms usedCodes set_usedCodes set_cursor]. split; intros H1 H2.
    + rewrite set_has_add, H1, orb_true_r in H2. discriminate.
    + congruence.
Qed.

Lemma code_is_released_with_its_room_witness :
  assoc_has "0000" (rooms (world_after zeros 0 alone_with_history)) = true
  /\ assoc_has "0000"
       (rooms (world_after zeros 0
                 (alone_with_history ++ [FromSocket "A" 2 ALeaveRoom]))) = false.
Proof.
  apply (proj1 (code_is_released_with_its_room
                  zeros 0 (FromSocket "A" 2 ALeaveRoom)
                  (world_after zeros 0 alone_with_history)
                  (world_after zeros 0
                     (alone_with_history ++ [FromSocket "A" 2 ALeaveRoom]))
                  [Deliver "A" ELeftRoom] "0000"
                  ltac:(vm_compute; reflexivity))).
  - vm_compute. reflexivity.
  - vm_compute. reflexivity.
Defined.

(* ------------------------------------------------------------------ *)
(** ** Creating and joining *)

(** The effects of a [createRoom] that completes, in a state that satisfies
    the invariant. *)
Lemma creation_effects rnd fuel sid now data w w' out :
  Inv w ->
  createRoom rnd fuel sid now data w = Done (w', out) ->
  exists code name,
    out = [Deliver sid (EJoinedRoom code name 1 [])]
    /\ JS.truthy name = true
    /\ JS.test_4digits code = true
    /\ assoc_get code (rooms w) = None
    /\ assoc_get code (rooms w') = Some (created_room sid name now)
    /\ (forall c, c <> code -> assoc_get c (rooms w') = assoc_get c (rooms w))
    /\ set_has code (usedCodes w') = true
    /\ assoc_get sid (roomCodes w') = Some code
    /\ In (sid, code) (joined w')
    /\ userSessions w' = userSessions w
    /\ usernameSessions w' = usernameSessions w
    /\ closed w' = closed w.
Proof.
  intros HI H.
  apply createRoom_inv in H.
  destruct H as (name & code & w1 & _ & Hgen & _ & Hs).
  apply generateUniqueRoomCode_spec in Hgen.
  destruct Hgen as (Hdigits & (n & ->) & Hfresh).
  assert (Hnone : assoc_get code (rooms w) = None).
  { destruct Hfresh as [Hf|Hf]; [|assumption].
    destruct (assoc_get code (rooms w)) as [room|] eqn:Hroom; [|reflexivity].
    destruct (inv_rooms _ HI code room Hroom) as (_ & Hused & _).
    apply set_has_false in Hf. contradiction. }
  unfold create_success in Hs.
  match type of Hs with
  | context [assign_name rnd name ?w2] =>
      pose proof (assign_name_truthy rnd name w2) as Htr;
      pose proof (assign_name_cursor rnd name w2) as Hcur;
      destruct (assign_name rnd name w2) as [assigned w3]
  end.
  cbn [fst snd] in *. unfold cursor_only in Hcur. injection Hs as -> ->.
  exists code, assigned. rewrite Hcur.
  cbn [rooms usedCodes roomCodes joined userSessions usernameSessions closed
       enter set_roomCodes set_joined set_rooms set_cursor set_usedCodes].
  split; [reflexivity|]. split; [assumption|]. split; [assumption|].
  split; [assumption|].
  split; [apply assoc_get_set_same|]. split.
  { intros c Hc. rewrite !assoc_get_set_other by assumption. reflexivity. }
  split; [apply set_has_In, In_set_add; now left|].
  split; [apply assoc_get_set_same|].
  split; [apply In_socket_join; now left|]. auto.
Qed.

(** X9.  In every reachable state a [createRoom] that completes installs
    its room under a code that backed no room, with the caller as its only
    participant, an empty history and as deadline the last reading of the
    clock plus [ROOM_EXPIRY_TIME];
    it tags the caller with the code, puts it in the group of the code,
    reserves the code, and leaves every other room and the ledger as they
    were. *)
Theorem createRoom_installs_a_fresh_room
        rnd fuel0 es w out0 fuel sid now data w' out :
  run rnd fuel0 init es = Done (w, out0) ->
  createRoom rnd fuel sid now data w = Done (w', out) ->
  exists code name,
    out = [Deliver sid (EJoinedRoom code name 1 [])]
    /\ JS.truthy name = true
    /\ assoc_get code (rooms w) = None
    /\ assoc_get code (rooms w') = Some (created_room sid name now)
    /\ (forall c, c <> code -> assoc_get c (rooms w') = assoc_get c (rooms w))
    /\ set_has code (usedCodes w') = true
    /\ assoc_get sid (roomCodes w') = Some code
    /\ In (sid, code) (joined w')
    /\ userSessions w' = userSessions w
    /\ usernameSessions w' = usernameSessions w.
Proof.
  intros Hrun H.
  assert (HI : Inv w).
  { eapply reachable_Inv, run_reachable; [apply reach_init|exact Hrun]. }
  destruct (creation_effects rnd fuel sid now data w w' out HI H)
    as (code & name & H1 & H2 & _ & H4 & H5 & H6 & H7 & H8 & H9 & H10 & H11 & _).
  exists code, name. auto 12.
Qed.

Lemma createRoom_installs_a_fresh_room_witness :
  exists code name,
    output_after counting 0 [FromSocket "C" 9 (ACreateRoom (JS.Obj []))]
    = [Deliver "C" (EJoinedRoom code name 1 [])]
    /\ JS.truthy name = true.
Proof.
  assert (R : run counting 0 init [] = Done (init, [])) by reflexivity.
  destruct (createRoom_installs_a_fresh_room
              counting 0 [] init [] 0 "C" 9%Z (JS.Obj [])
              (world_after counting 0 [FromSocket "C" 9 (ACreateRoom (JS.Obj []))])
              (output_after counting 0 [FromSocket "C" 9 (ACreateRoom (JS.Obj []))])
              R ltac:(vm_compute; reflexivity))
    as (code & name & Hout & Htr & _).
  exists code, name. split; [exact Hout|exact Htr].
Defined.

Section Admission.
Variable rnd : nat -> N.

Lemma joinRoom_allowed_eq sid now data c name room w :
  JS.get data "code" = Done (JS.Str c) ->
  JS.get data "username" = Done name ->
  join_allowed sid c name room w ->
  joinRoom rnd sid now data w = Done (join_success rnd sid now c name room w).
Proof.
  intros Hcode Hname (Hc & Hroom & Hlen & Hfind & t & Ht & Hk1 & Hk2).
  unfold joinRoom, reply. rewrite Hcode, Hname. cbn [bind JS.to_string].
  rewrite Hc. cbn [negb]. rewrite Hroom.
  destruct (Nat.leb_spec 2 (List.length (users room))) as [|_]; [lia|].
  rewrite Hfind. cbn [JS.template JS.to_string bind]. rewrite Ht. cbn [bind].
  fold (session_key sid c). fold (session_key t c). rewrite Hk1, Hk2.
  cbn [orb]. unfold join_success.
  destruct (assign_name_to_string rnd name w _ _ Ht) as [s Hs].
  destruct (assign_name rnd name w) as [assigned w1]. cbn [fst] in Hs.
  unfold JS.log. cbn [JS.template JS.to_string bind]. rewrite Hs. reflexivity.
Qed.

Lemma received_cons_self sid ev out :
  received sid (Deliver sid ev :: out) = ev :: received sid out.
Proof. cbn. now rewrite String.eqb_refl. Qed.

Lemma received_cons_other sid p ev out :
  p <> sid -> received p (Deliver sid ev :: out) = received p out.
Proof.
  intros Hne. cbn. destruct (String.eqb_spec sid p); [congruence|reflexivity].
Qed.

(** The effects of an admission, in a state that satisfies the invariant. *)
Lemma admission_effects sid now data c name room w :
  Inv w ->
  JS.get data "code" = Done (JS.Str c) ->
  JS.get data "username" = Done name ->
  join_allowed sid c name room w ->
  exists assigned w' out,
    joinRoom rnd sid now data w = Done (w', out)
    /\ (JS.truthy name = true -> assigned = name)
    /\ JS.truthy assigned = true
    /\ assoc_get c (rooms w')
       = Some (push_user (mkUser sid assigned (reading now 0))
                         (reading now 1) (reading now 2) room)
    /\ assoc_get sid (roomCodes w') = Some c
    /\ received sid out
       = [EJoinedRoom c assigned (S (List.length (users room))) (messages room)]
    /\ (forall p,
           In p (users room) ->
           set_has (socketId p) (closed w) = false ->
           received (socketId p) out
           = [EUserJoined assigned (S (List.length (users room)))]).
Proof.
  intros HI Hcode Hname Hadm.
  rewrite (joinRoom_allowed_eq sid now data c name room w Hcode Hname Hadm).
  destruct Hadm as (Hc & Hroom & Hlen & Hfind & _).
  unfold join_success.
  pose proof (assign_name_truthy rnd name w) as Htr.
  pose proof (assign_name_cursor rnd name w) as Hcur.
  assert (Hgiven : JS.truthy name = true -> fst (assign_name rnd name w) = name)
    by (unfold assign_name; now intros ->).
  destruct (assign_name rnd name w) as [assigned w1]. cbn [fst snd] in *.
  unfold cursor_only in Hcur.
  eexists assigned, _, _. split; [reflexivity|].
  split; [exact Hgiven|]. split; [exact Htr|].
  cbn [rooms roomCodes enter set_roomCodes set_joined set_rooms].
  split; [apply assoc_get_set_same|]. split; [apply assoc_get_set_same|].
  assert (Hcount : forall u t1 t2, List.length (users (push_user u t1 t2 room))
                                   = S (List.length (users room))).
  { intros u t1 t2. cbn. rewrite length_app. cbn. lia. }
  rewrite Hcount. split.
  - rewrite received_cons_self, received_socket_to_self. reflexivity.
  - intros p Hp Hopen.
    assert (Hne : socketId p <> sid).
    { intros E. apply (find_is_socket_None _ _ Hfind). rewrite <- E.
      now apply in_map. }
    rewrite received_cons_other by assumption.
    destruct (inv_rooms _ HI c room Hroom) as (_ & _ & _ & _ & Hall).
    rewrite Forall_forall in Hall. destruct (Hall p Hp) as (_ & _ & Hin).
    apply received_socket_to_other; [| |assumption].
    + cbn. rewrite Hcur. cbn. apply NoDup_socket_join, (inv_joined _ HI).
    + cbn. rewrite Hcur. cbn. apply In_socket_join. right. auto.
Qed.

End Admission.

(** X10.  [joinRoom] never creates or removes a room and never touches the
    used-code set; for a code that backs no room it changes nothing at all
    and answers with the invalid-code or the room-not-found error. *)
Theorem joinRoom_never_creates_a_room rnd sid now data w w' out :
  joinRoom rnd sid now data w = Done (w', out) ->
  active_codes w' = active_codes w
  /\ usedCodes w' = usedCodes w
  /\ (forall c,
         JS.get data "code" = Done (JS.Str c) ->
         assoc_get c (rooms w) = None ->
         w' = w
         /\ (out = [Deliver sid (EError msgInvalidCode)]
             \/ out = [Deliver sid (EError msgRoomNotFound)])).
Proof.
  intros H. split; [|split].
  - apply joinRoom_inv in H.
    destruct H as [[-> _]|(c & name & room & _ & _ & Hadm & Hs)]; [reflexivity|].
    destruct Hadm as (_ & Hroom & _). unfold join_success in Hs.
    pose proof (assign_name_cursor rnd name w) as Hcur.
    destruct (assign_name rnd name w) as [assigned w1]. cbn [snd] in Hcur.
    unfold cursor_only in Hcur. injection Hs as -> _. unfold active_codes.
    cbn [rooms enter set_roomCodes set_joined set_rooms].
    rewrite map_fst_assoc_set, Hcur. cbn [rooms set_cursor].
    unfold assoc_has. now rewrite Hroom.
  - apply joinRoom_inv in H.
    destruct H as [[-> _]|(c & name & room & _ & _ & _ & Hs)]; [reflexivity|].
    unfold join_success in Hs.
    pose proof (assign_name_cursor rnd name w) as Hcur.
    destruct (assign_name rnd name w) as [assigned w1]. cbn [snd] in Hcur.
    unfold cursor_only in Hcur. injection Hs as -> _. rewrite Hcur. reflexivity.
  - intros c Hcode Hnone. unfold joinRoom, reply in H. rewrite Hcode in H.
    cbn [bind JS.to_string] in H. break_outcome H. rewrite Hnone in H.
    destruct (JS.test_4digits c); cbn [negb] in H; injection H as <- <-; auto.
Qed.

Lemma joinRoom_never_creates_a_room_witness :
  world_after zeros 0
    (two_in_a_room ++ [FromSocket "C" 5 (AJoinRoom (join_payload "4821" "Cy"))])
  = world_after zeros 0 two_in_a_room
  /\ (output_after zeros 0
        [FromSocket "C" 5 (AJoinRoom (join_payload "4821" "Cy"))]
      = [Deliver "C" (EError msgInvalidCode)]
      \/ output_after zeros 0
           [FromSocket "C" 5 (AJoinRoom (join_payload "4821" "Cy"))]
         = [Deliver "C" (EError msgRoomNotFound)]).
Proof.
  assert (R : joinRoom zeros "C" 5 (join_payload "4821" "Cy")
                (world_after zeros 0 two_in_a_room)
              = Done (world_after zeros 0
                        (two_in_a_room
                         ++ [FromSocket "C" 5 (AJoinRoom (join_payload "4821" "Cy"))]),
                      output_after zeros 0
                        [FromSocket "C" 5 (AJoinRoom (join_payload "4821" "Cy"))]))
    by (vm_compute; reflexivity).
  destruct (joinRoom_never_creates_a_room zeros "C" 5 (join_payload "4821" "Cy")
              _ _ _ R) as (_ & _ & H).
  exact (H "4821" ltac:(vm_compute; reflexivity) ltac:(vm_compute; reflexivity)).
Defined.

(** X11.  An admitted [joinRoom] (the code names a room with fewer than two
    participants that does not list the caller, and the ledger holds neither
    key of the caller): the caller is appended to the room under the name it
    gave, or under a generated one when it gave none; the caller is tagged
    with the code and receives one [joinedRoom] with the history so far and
    the new participant count; every participant already listed whose
    connection is open receives exactly one [userJoined] with the same name
    and count. *)
Theorem accepted_join_is_announced
        rnd fuel0 es w out0 fuel sid now data c name room :
  run rnd fuel0 init es = Done (w, out0) ->
  set_has sid (closed w) = false ->
  JS.get data "code" = Done (JS.Str c) ->
  JS.get data "username" = Done name ->
  join_allowed sid c name room w ->
  exists assigned w' out,
    step rnd fuel w (FromSocket sid now (AJoinRoom data)) = Done (w', out)
    /\ (JS.truthy name = true -> assigned = name)
    /\ JS.truthy assigned = true
    /\ assoc_get c (rooms w')
       = Some (push_user (mkUser sid assigned (reading now 0))
                         (reading now 1) (reading now 2) room)
    /\ assoc_get sid (roomCodes w') = Some c
    /\ received sid out
       = [EJoinedRoom c assigned (S (List.length (users room))) (messages room)]
    /\ (forall p,
           In p (users room) ->
           set_has (socketId p) (closed w) = false ->
           received (socketId p) out
           = [EUserJoined assigned (S (List.length (users room)))]).
Proof.
  intros Hrun Hopen Hcode Hname Hadm.
  assert (HI : Inv w).
  { eapply reachable_Inv, run_reachable; [apply reach_init|exact Hrun]. }
  cbn [step handle]. rewrite Hopen.
  exact (admission_effects rnd sid now data c name room w HI Hcode Hname Hadm).
Qed.

Lemma accepted_join_is_announced_witness :
  exists assigned w' out,
    step zeros 0 (world_after zeros 0 [FromSocket "A" 0 (ACreateRoom (named "Ann"))])
      (FromSocket "B" 1 (AJoinRoom (join_payload "0000" "Bob")))
    = Done (w', out)
    /\ received "B" out = [EJoinedRoom "0000" assigned 2 []]
    /\ received "A" out = [EUserJoined assigned 2].
Proof.
  assert (R : run zeros 0 init [FromSocket "A" 0 (ACreateRoom (named "Ann"))]
              = Done (world_after zeros 0 [FromSocket "A" 0 (ACreateRoom (named "Ann"))],
                      output_after zeros 0 [FromSocket "A" 0 (ACreateRoom (named "Ann"))]))
    by (vm_compute; reflexivity).
  assert (A : join_allowed "B" "0000" (JS.Str "Bob")
                (created_room "A" (JS.Str "Ann") 0)
                (world_after zeros 0 [FromSocket "A" 0 (ACreateRoom (named "Ann"))])).
  { unfold join_allowed. split; [vm_compute; reflexivity|].
    split; [vm_compute; reflexivity|]. split; [vm_compute; lia|].
    split; [vm_compute; reflexivity|]. exists "Bob".
    split; [vm_compute; reflexivity|]. split; vm_compute; reflexivity. }
  destruct (accepted_join_is_announced zeros 0 _ _ _ 0 "B" 1%Z
              (join_payload "0000" "Bob") "0000" (JS.Str "Bob")
              (created_room "A" (JS.Str "Ann") 0)
              R ltac:(vm_compute; reflexivity) ltac:(vm_compute; reflexivity)
              ltac:(vm_compute; reflexivity) A)
    as (assigned & w' & out & Hstep & _ & _ & _ & _ & HB & HA).
  exists assigned, w', out. split; [exact Hstep|]. split; [exact HB|].
  apply (HA (mkUser "A" (JS.Str "Ann") 0)); [now left|vm_compute; reflexivity].
Defined.

(** X12.  A room that [createRoom] has just installed can be joined: when a
    different connection then calls [joinRoom] with the code the creator was
    tagged with, and the ledger holds neither of the caller's keys for that
    code, the join is admitted; the room then lists the creator and the
    caller, in this order, the caller receives [joinedRoom] with an empty
    history and the count 2, and the creator, while its connection is open,
    receives exactly one [userJoined] with the count 2. *)
Theorem created_room_can_be_joined
        rnd fuel0 es w out0 fuel sid now data w1 out1 code
        sid' now' data' name' nameText :
  run rnd fuel0 init es = Done (w, out0) ->
  createRoom rnd fuel sid now data w = Done (w1, out1) ->
  assoc_get sid (roomCodes w1) = Some code ->
  sid' <> sid ->
  JS.get data' "code" = Done (JS.Str code) ->
  JS.get data' "username" = Done name' ->
  JS.to_string (JS.or name' (JS.Str "anonymous")) = Done nameText ->
  set_has (session_key sid' code) (userSessions w) = false ->
  set_has (session_key nameText code) (usernameSessions w) = false ->
  exists creator assigned w2 out2 room,
    joinRoom rnd sid' now' data' w1 = Done (w2, out2)
    /\ assoc_get code (rooms w2) = Some room
    /\ users room = [mkUser sid creator (reading now 3);
                     mkUser sid' assigned (reading now' 0)]
    /\ messages room = []
    /\ expiresAt room = (reading now' 2 + ROOM_EXPIRY_TIME)%Z
    /\ received sid' out2 = [EJoinedRoom code assigned 2 []]
    /\ (set_has sid (closed w) = false ->
        received sid out2 = [EUserJoined assigned 2]).
Proof.
  intros Hrun Hcreate Htag Hne Hcode Hname Htext Hk1 Hk2.
  assert (HI : Inv w).
  { eapply reachable_Inv, run_reachable; [apply reach_init|exact Hrun]. }
  assert (HI1 : Inv w1) by (eapply createRoom_Inv; eassumption).
  destruct (creation_effects rnd fuel sid now data w w1 out1 HI Hcreate)
    as (code0 & creator & _ & _ & Hd & _ & Hroom & _ & _ & Htag0 & _
        & Hu & Hn & Hcl).
  assert (code0 = code) as -> by congruence.
  assert (Hadm : join_allowed sid' code name' (created_room sid creator now) w1).
  { unfold join_allowed. split; [assumption|]. split; [assumption|].
    split; [cbn; lia|]. split.
    - cbn. unfold is_socket. cbn.
      destruct (String.eqb_spec sid sid'); [congruence|reflexivity].
    - exists nameText. rewrite Hu, Hn. auto. }
  destruct (admission_effects rnd sid' now' data' code name' _ w1
              HI1 Hcode Hname Hadm)
    as (assigned & w2 & out2 & Hj & _ & _ & Hroom2 & _ & Hrecv & Hothers).
  eexists creator, assigned, w2, out2, _.
  split; [exact Hj|]. split; [exact Hroom2|].
  split; [reflexivity|]. split; [reflexivity|]. split; [reflexivity|].
  split; [exact Hrecv|].
  intros Hopen. apply (Hothers (mkUser sid creator (reading now 3))); [now left|].
  cbn [socketId]. now rewrite Hcl.
Qed.

Lemma created_room_can_be_joined_witness :
  exists creator assigned w2 out2 room,
    joinRoom counting "B" 7 (nameless_join "0000")
      (world_after counting 0 [FromSocket "A" 3 (ACreateRoom (named "Ann"))])
    = Done (w2, out2)
    /\ users room = [mkUser "A" creator 3; mkUser "B" assigned 7]
    /\ received "A" out2 = [EUserJoined assigned 2].
Proof.
  assert (R : run counting 0 init [] = Done (init, [])) by reflexivity.
  destruct (created_room_can_be_joined
              counting 0 [] init [] 0 "A" 3%Z (named "Ann")
              (world_after counting 0 [FromSocket "A" 3 (ACreateRoom (named "Ann"))])
              (output_after counting 0 [FromSocket "A" 3 (ACreateRoom (named "Ann"))])
              "0000" "B" 7%Z (nameless_join "0000") JS.Undefined "anonymous"
              R ltac:(vm_compute; reflexivity) ltac:(vm_compute; reflexivity)
              ltac:(discriminate) ltac:(vm_compute; reflexivity)
              ltac:(vm_compute; reflexivity) ltac:(vm_compute; reflexivity)
              ltac:(vm_compute; reflexivity) ltac:(vm_compute; reflexivity))
    as (creator & assigned & w2 & out2 & room & Hj & _ & Hu & _ & _ & _ & HA).
  exists creator, assigned, w2, out2, room.
  split; [exact Hj|]. split; [exact Hu|]. apply HA. reflexivity.
Defined.

(* ------------------------------------------------------------------ *)
(** ** Leaving a room *)

Lemma received_app sid o1 o2 :
  received sid (o1 ++ o2) = received sid o1 ++ received sid o2.
Proof. unfold received. apply flat_map_app. Qed.

Lemma splice1_keeps {A} (p : A -> bool) l i x :
  findIndex p l = Some i -> In x l -> p x = false -> In x (splice1 i l).
Proof.
  revert i. induction l as [|y l IH]; intros i; simpl; [discriminate|].
  destruct (p y) eqn:Ey.
  - intros [= <-] [->|Hin] Hx; [congruence|assumption].
  - destruct (findIndex p l) as [j|]; [|discriminate].
    intros [= <-] [->|Hin] Hx; simpl; [now left|right; now apply (IH j)].
Qed.

Lemma nth_error_Some_length {A} (l : list A) i x :
  nth_error l i = Some x -> i < List.length l.
Proof. intros H. apply nth_error_Some. congruence. Qed.

Lemma length_splice1_nth {A} (l : list A) i x :
  nth_error l i = Some x -> List.length (splice1 i l) = List.length l - 1.
Proof.
  revert i. induction l as [|y l IH]; intros [|i]; simpl; try discriminate.
  - intros _. lia.
  - intros H. rewrite (IH i H). apply nth_error_Some_length in H. lia.
Qed.

Section Departure.
Variable rnd : nat -> N.
Variable fuel : nat.

(** The effects of a departure of a listed participant, in a state that
    satisfies the invariant. *)
Lemma departure_effects sid now a w c room i user :
  Inv w -> is_departure a -> departing sid w c room i user ->
  exists w' out,
    handle rnd fuel sid now a w = Done (w', out)
    /\ (forall p,
           In p (users room) -> socketId p <> sid ->
           set_has (socketId p) (closed w) = false ->
           received (socketId p) out
           = [EUserLeft (username user) (List.length (users room) - 1)]
           /\ assoc_get c (rooms w') = Some (without i room)
           /\ In p (users (without i room)))
    /\ received sid out
       = match a with ALeaveRoom => [ELeftRoom] | _ => [] end
    /\ ~ In sid (map socketId (users (without i room)))
    /\ (a = ALeaveRoom ->
        assoc_get sid (roomCodes w') = None /\ ~ In (sid, c) (joined w')).
Proof.
  intros HI Ha Hd.
  destruct (departing_user_ok _ _ _ _ _ _ HI Hd)
    as ((_ & _ & _ & Hnd & Hall) & Huser & _ & (t & Ht) & _).
  pose proof Hd as (Htag & Hidx & Hnth).
  assert (Hsid : socketId user = sid).
  { pose proof (findIndex_find (is_socket sid) (users room)) as H.
    rewrite Hidx in H. destruct H as (x & Hx & Hn).
    assert (x = user) as -> by congruence.
    now apply find_is_socket_Some in Hx. }
  assert (Hgone : ~ In sid (map socketId (users (without i room)))).
  { unfold without. cbn [users set_users]. rewrite map_splice1, <- Hsid.
    apply NoDup_splice1_gone; [assumption|]. now apply map_nth_error. }
  assert (Hstay : forall p, In p (users room) -> socketId p <> sid ->
                            In p (users (without i room))).
  { intros p Hp Hne. unfold without. cbn [users set_users].
    apply (splice1_keeps (is_socket sid)); [assumption..|].
    unfold is_socket. now apply String.eqb_neq. }
  assert (Hlen : List.length (users (without i room)) = List.length (users room) - 1).
  { unfold without. cbn [users set_users]. now apply (length_splice1_nth _ _ user). }
  assert (Hin : forall p, In p (users room) ->
                          set_has (socketId p) (closed w) = false ->
                          In (socketId p, c) (joined w)).
  { intros p Hp Hopen. rewrite Forall_forall in Hall.
    destruct (Hall p Hp) as (_ & _ & H). auto. }
  destruct Ha as [->| ->]; cbn [handle].
  - rewrite (leaveRoom_departing _ _ _ _ _ _ Hd).
    rewrite (record_left_eq _ _ _ _ _ Ht). cbn [bind].
    rewrite cleanup_if_empty_eq. cbn [bind].
    eexists _, _. split; [reflexivity|]. rewrite Hlen. split; [|split; [|split]].
    + intros p Hp Hne Hopen. pose proof (Hstay p Hp Hne) as Hp'.
      split; [|split; [|assumption]].
      * rewrite received_app, received_cons_other by assumption. cbn [received flat_map].
        rewrite app_nil_r. apply received_socket_to_other; [| |assumption].
        -- cbn. apply NoDup_filter, (inv_joined _ HI).
        -- cbn. apply filter_In. split; [auto|]. unfold same_pair. cbn.
           destruct (String.eqb_spec (socketId p) sid); [contradiction|reflexivity].
      * rewrite <- Hlen.
        destruct (Nat.eqb_spec (List.length (users (without i room))) 0) as [E|_].
        { destruct (users (without i room)); [contradiction|discriminate]. }
        cbn. apply assoc_get_set_same.
    + rewrite received_app, received_socket_to_self, received_cons_self.
      reflexivity.
    + assumption.
    + intros _.
      assert (G : forall W, ~ In (sid, c) (joined W) ->
                  ~ In (sid, c) (joined (if List.length (users room) - 1 =? 0
                                         then destroy c W else W))).
      { intros W. now destruct (_ =? 0). }
      assert (T : forall W, assoc_get sid (roomCodes W) = None ->
                  assoc_get sid (roomCodes (if List.length (users room) - 1 =? 0
                                            then destroy c W else W)) = None).
      { intros W. now destruct (_ =? 0). }
      split.
      * apply T. cbn. apply assoc_get_delete_same.
      * apply G. cbn. unfold socket_leave. rewrite filter_In.
        intros [_ H]. unfold same_pair in H. cbn in H.
        now rewrite !String.eqb_refl in H.
  - rewrite (disconnect_departing _ _ _ _ _ _ (departing_close _ _ _ _ _ _ Hd)).
    rewrite (record_left_eq _ _ _ _ _ Ht). cbn [bind].
    unfold JS.log. cbn [JS.template JS.to_string bind]. rewrite Ht.
    cbn [bind]. rewrite cleanup_if_empty_eq. cbn [bind].
    eexists _, _. split; [reflexivity|]. rewrite Hlen. split; [|split; [|split]].
    + intros p Hp Hne Hopen. pose proof (Hstay p Hp Hne) as Hp'.
      split; [|split; [|assumption]].
      * apply received_socket_to_other; [| |assumption].
        -- cbn. apply NoDup_filter, (inv_joined _ HI).
        -- cbn. apply filter_In. split; [auto|]. cbn.
           destruct (String.eqb_spec (socketId p) sid); [contradiction|reflexivity].
      * rewrite <- Hlen.
        destruct (Nat.eqb_spec (List.length (users (without i room))) 0) as [E|_].
        { destruct (users (without i room)); [contradiction|discriminate]. }
        cbn. apply assoc_get_set_same.
    + apply received_socket_to_self.
    + assumption.
    + discriminate.
Qed.

End Departure.

(** X13.  When a listed participant leaves its room, by [leaveRoom] or by
    disconnecting, the departure completes; every other listed participant
    whose connection is open receives exactly one [userLeft] with the
    leaver's display name and the count of those who stay, and finds the room
    still in the store, itself still listed, the history and the deadline as
    they were; the leaver is no longer listed, receives [leftRoom] and
    nothing else after [leaveRoom] and nothing after a disconnection, and
    after [leaveRoom] carries no room tag and is out of the group of the
    code. *)
Theorem departure_is_announced
        rnd fuel0 es w out0 fuel sid now a c room i user :
  run rnd fuel0 init es = Done (w, out0) ->
  set_has sid (closed w) = false ->
  is_departure a ->
  departing sid w c room i user ->
  exists w' out,
    step rnd fuel w (FromSocket sid now a) = Done (w', out)
    /\ (forall p,
           In p (users room) -> socketId p <> sid ->
           set_has (socketId p) (closed w) = false ->
           received (socketId p) out
           = [EUserLeft (username user) (List.length (users room) - 1)]
           /\ assoc_get c (rooms w') = Some (without i room)
           /\ In p (users (without i room)))
    /\ received sid out
       = match a with ALeaveRoom => [ELeftRoom] | _ => [] end
    /\ ~ In sid (map socketId (users (without i room)))
    /\ messages (without i room) = messages room
    /\ expiresAt (without i room) = expiresAt room
    /\ (a = ALeaveRoom ->
        assoc_get sid (roomCodes w') = None /\ ~ In (sid, c) (joined w')).
Proof.
  intros Hrun Hopen Ha Hd.
  assert (HI : Inv w).
  { eapply reachable_Inv, run_reachable; [apply reach_init|exact Hrun]. }
  cbn [step]. rewrite Hopen.
  destruct (departure_effects rnd fuel sid now a w c room i user HI Ha Hd)
    as (w' & out & H1 & H2 & H3 & H4 & H5).
  exists w', out. auto 10.
Qed.

Lemma departure_is_announced_witness :
  exists w' out,
    step zeros 0 (world_after zeros 0 two_in_a_room) (FromSocket "B" 2 ALeaveRoom)
    = Done (w', out)
    /\ received "A" out = [EUserLeft (JS.Str "Bob") 1]
    /\ received "B" out = [ELeftRoom].
Proof.
  assert (R : run zeros 0 init two_in_a_room
              = Done (world_after zeros 0 two_in_a_room,
                      output_after zeros 0 two_in_a_room))
    by (vm_compute; reflexivity).
  assert (D : departing "B" (world_after zeros 0 two_in_a_room) "0000"
                (mkRoom [mkUser "A" (JS.Str "Ann") 0; mkUser "B" (JS.Str "Bob") 1]
                        [] 0 600001 1 None)
                1 (mkUser "B" (JS.Str "Bob") 1)).
  { unfold departing. split; [vm_compute; reflexivity|].
    split; vm_compute; reflexivity. }
  destruct (departure_is_announced zeros 0 two_in_a_room _ _ 0 "B" 2%Z ALeaveRoom
              "0000" _ 1 (mkUser "B" (JS.Str "Bob") 1)
              R ltac:(vm_compute; reflexivity) (or_introl eq_refl) D)
    as (w' & out & Hstep & Hothers & Hself & _).
  exists w', out. split; [exact Hstep|]. split; [|exact Hself].
  apply (Hothers (mkUser "A" (JS.Str "Ann") 0));
    [now left|discriminate|vm_compute; reflexivity].
Defined.

Lemma socket_to_after_departure sid c ev w w1 w2 :
  joined w1 = socket_leave sid c (joined w) ->
  joined w2 = leave_all sid (joined w) ->
  socket_to sid c ev w1 = socket_to sid c ev w2.
Proof.
  unfold socket_to, group, socket_leave, leave_all. intros -> ->. f_equal.
  induction (joined w) as [|[a b] j IH]; [reflexivity|].
  unfold same_pair in *. cbn [filter fst snd].
  destruct (String.eqb a sid) eqn:Ha, (String.eqb b c) eqn:Hb;
    cbn [andb negb filter map fst snd]; rewrite ?Ha, ?Hb;
    cbn [andb negb filter map fst snd]; rewrite ?Ha;
    cbn [negb]; rewrite ?IH; reflexivity.
Qed.

Lemma received_but_the_reply sid ev out1 out2 :
  out1 = out2 \/ out1 = out2 ++ [Deliver sid ev] ->
  forall p, p <> sid -> received p out2 = received p out1.
Proof.
  intros [->| ->] p Hp; [reflexivity|].
  rewrite received_app, received_cons_other by assumption.
  cbn [received flat_map]. now rewrite app_nil_r.
Qed.

(** X14.  A disconnection does to the rooms, the used codes and the ledger
    exactly what [leaveRoom] does: whenever [leaveRoom] completes from a
    state, [disconnect] completes from it too, with the same rooms, used
    codes and ledger entries, and every other connection receives the same
    events; the [leftRoom] reply to the caller is the only output that
    [leaveRoom] adds. *)
Theorem disconnect_acts_as_leaveRoom rnd fuel sid now now' w w1 out1 :
  handle rnd fuel sid now ALeaveRoom w = Done (w1, out1) ->
  exists w2 out2,
    handle rnd fuel sid now' ADisconnect w = Done (w2, out2)
    /\ rooms w2 = rooms w1
    /\ usedCodes w2 = usedCodes w1
    /\ userSessions w2 = userSessions w1
    /\ usernameSessions w2 = usernameSessions w1
    /\ (out1 = out2 \/ out1 = out2 ++ [Deliver sid ELeftRoom])
    /\ (forall p, p <> sid -> received p out2 = received p out1).
Proof.
  cbn [handle]. intros H.
  destruct (active_tag sid w) as [[c room]|] eqn:Ht.
  2:{ unfold leaveRoom in H. unfold disconnect.
      change (active_tag sid (close_socket sid w)) with (active_tag sid w).
      rewrite Ht in *. injection H as <- <-. eexists _, _.
      split; [reflexivity|]. cbn. auto 10. }
  destruct (findIndex (is_socket sid) (users room)) as [i|] eqn:Hi.
  2:{ unfold leaveRoom in H. unfold disconnect.
      change (active_tag sid (close_socket sid w)) with (active_tag sid w).
      rewrite Ht, Hi in *. injection H as <- <-. eexists _, _.
      split; [reflexivity|]. cbn. auto 10. }
  destruct (nth_error (users room) i) as [user|] eqn:Hn.
  2:{ unfold leaveRoom in H. rewrite Ht, Hi, Hn in H. discriminate. }
  assert (Hd : departing sid w c room i user) by (repeat split; assumption).
  rewrite (leaveRoom_departing _ _ _ _ _ _ Hd) in H.
  rewrite (disconnect_departing _ _ _ _ _ _ (departing_close _ _ _ _ _ _ Hd)).
  break_outcome H. apply record_left_inv in E. destruct E as (t & Et & ->).
  rewrite cleanup_if_empty_eq in H. cbn [bind] in H. injection H as <- <-.
  rewrite (record_left_eq _ _ _ _ _ Et). cbn [bind].
  unfold JS.log. cbn [JS.template JS.to_string bind]. rewrite Et.
  cbn [bind]. rewrite cleanup_if_empty_eq. cbn [bind].
  eexists _, _. split; [reflexivity|].
  change (List.length (users (without i room)))
    with (List.length (splice1 i (users room))).
  destruct (List.length (splice1 i (users room)) =? 0);
    (split; [reflexivity|]); (split; [reflexivity|]); (split; [reflexivity|]);
    (split; [reflexivity|]);
    (match goal with
     | |- ?A /\ _ =>
         assert (Ho : A);
         [right; f_equal; apply (socket_to_after_departure sid c _ w);
          reflexivity
         |split; [exact Ho|exact (received_but_the_reply _ _ _ _ Ho)]]
     end).
Qed.

Lemma disconnect_acts_as_leaveRoom_witness :
  exists w2 out2,
    handle zeros 0 "B" 9 ADisconnect (world_after zeros 0 two_in_a_room)
    = Done (w2, out2)
    /\ rooms w2 = rooms (world_after zeros 0 bob_leaves)
    /\ received "A" out2 = [EUserLeft (JS.Str "Bob") 1].
Proof.
  destruct (disconnect_acts_as_leaveRoom zeros 0 "B" 2%Z 9%Z
              (world_after zeros 0 two_in_a_room)
              (world_after zeros 0 bob_leaves)
              (skipn 3 (output_after zeros 0 bob_leaves))
              ltac:(vm_compute; reflexivity))
    as (w2 & out2 & H & Hr & _ & _ & _ & _ & Hout).
  exists w2, out2. split; [exact H|]. split; [exact Hr|].
  rewrite (Hout "A" ltac:(discriminate)). vm_compute. reflexivity.
Defined.

(** A connection that carries no room tag: its events other than [joinRoom]
    and [createRoom] change neither the rooms nor the ledger. *)
Lemma untagged_is_inert rnd fuel sid now a w w' out :
  assoc_get sid (roomCodes w) = None ->
  match a with AJoinRoom _ | ACreateRoom _ => False | _ => True end ->
  handle rnd fuel sid now a w = Done (w', out) ->
  rooms w' = rooms w
  /\ usedCodes w' = usedCodes w
  /\ userSessions w' = userSessions w
  /\ usernameSessions w' = usernameSessions w
  /\ (out = [] \/ out = [Deliver sid (EError msgNotInRoom)]).
Proof.
  intros Htag Ha.
  assert (Hnone : active_tag sid w = None) by (unfold active_tag; now rewrite Htag).
  destruct a as [d|d|d|d| | |d|d|d| |]; try contradiction; cbn [handle];
    unfold sendMessage, typing, disconnect, leaveRoom, relay, voiceChat, reply.
  - intros H. break_outcome H. rewrite Hnone in H. injection H as <- <-. auto 10.
  - rewrite Htag. intros [= <- <-]. auto 10.
  - change (active_tag sid (close_socket sid w)) with (active_tag sid w).
    rewrite Hnone. intros [= <- <-]. cbn. auto 10.
  - rewrite Hnone. intros [= <- <-]. auto 10.
  - rewrite Hnone. intros [= <- <-]. auto 10.
  - rewrite Hnone. intros [= <- <-]. auto 10.
  - rewrite Hnone. intros [= <- <-]. auto 10.
  - rewrite Hnone. intros [= <- <-]. auto 10.
  - rewrite Hnone. intros [= <- <-]. auto 10.
Qed.

(** Such an event completes, but for a [sendMessage] without a payload. *)
Lemma untagged_completes rnd fuel sid now a w :
  assoc_get sid (roomCodes w) = None ->
  match a with
  | AJoinRoom _ | ACreateRoom _ => False
  | ASendMessage data => present data = true
  | _ => True
  end ->
  exists w' out, handle rnd fuel sid now a w = Done (w', out).
Proof.
  intros Htag Ha.
  assert (Hnone : active_tag sid w = None) by (unfold active_tag; now rewrite Htag).
  destruct a as [d|d|d|d| | |d|d|d| |]; try contradiction; cbn [handle];
    unfold sendMessage, typing, disconnect, leaveRoom, relay, voiceChat, reply.
  - rewrite (get_field _ _ Ha), Hnone. cbn [bind]. eauto.
  - rewrite Htag. eauto.
  - change (active_tag sid (close_socket sid w)) with (active_tag sid w).
    rewrite Hnone. eauto.
  - rewrite Hnone. eauto.
  - rewrite Hnone. eauto.
  - rewrite Hnone. eauto.
  - rewrite Hnone. eauto.
  - rewrite Hnone. eauto.
  - rewrite Hnone. eauto.
Qed.

Section Tags.
Variable rnd : nat -> N.

(** What a handler does to the room tags: nothing, or it tags its caller,
    which [joinRoom] and [createRoom] alone do, or it clears the tag of its
    caller. *)
Lemma handle_roomCodes fuel sid now a w w' out :
  handle rnd fuel sid now a w = Done (w', out) ->
  roomCodes w' = roomCodes w
  \/ (match a with AJoinRoom _ | ACreateRoom _ => True | _ => False end
      /\ exists c, roomCodes w' = assoc_set sid c (roomCodes w))
  \/ roomCodes w' = assoc_delete sid (roomCodes w).
Proof.
  destruct a as [d|d|d|d| | |d|d|d| |]; cbn [handle]; intros H.
  - apply joinRoom_inv in H.
    destruct H as [[-> _]|(c & name & room & _ & _ & _ & Hs)]; [now left|].
    unfold join_success in Hs.
    destruct (assign_name_frame rnd name w) as [n Hn].
    destruct (assign_name rnd name w) as [assigned w1]. cbn [snd] in Hn.
    subst w1. injection Hs as -> _. right. left. split; [exact I|].
    now exists c.
  - apply createRoom_inv in H.
    destruct H as (name & code & w1 & _ & Hgen & _ & Hs).
    apply generateUniqueRoomCode_spec in Hgen.
    destruct Hgen as (_ & (n & ->) & _).
    unfold create_success in Hs.
    match type of Hs with
    | context [assign_name rnd name ?w2] =>
        destruct (assign_name_frame rnd name w2) as [m Hm];
        destruct (assign_name rnd name w2) as [assigned w3]
    end.
    cbn [snd] in Hm. subst w3. injection Hs as -> _. right. left.
    split; [exact I|]. now exists code.
  - apply sendMessage_inv in H.
    destruct H as [[-> _]|(c & room & user & s & _ & _ & _ & Hs)]; [now left|].
    unfold send_success in Hs. cbn [random] in Hs. injection Hs as -> _.
    now left.
  - apply typing_inv in H. destruct H as [-> _]. now left.
  - apply disconnect_inv in H.
    destruct H as [[-> _]|(c & room & i & user & w2 & _ & Hrec & Hcl & _)];
      [now left|].
    apply record_left_inv in Hrec. destruct Hrec as (t & _ & ->).
    apply cleanup_if_empty_inv in Hcl. subst w'. left.
    now destruct (_ =? 0).
  - apply leaveRoom_inv in H.
    destruct H as [[-> _]|(c & room & i & user & w2 & _ & Hrec & Hcl & _)];
      [now left|].
    apply record_left_inv in Hrec. destruct Hrec as (t & _ & ->).
    apply cleanup_if_empty_inv in Hcl. subst w'. right. right.
    now destruct (_ =? 0).
  - unfold relay in H. destruct (active_tag sid w) as [[c r]|];
      injection H as <- _; now left.
  - unfold relay in H. destruct (active_tag sid w) as [[c r]|];
      injection H as <- _; now left.
  - unfold relay in H. destruct (active_tag sid w) as [[c r]|];
      injection H as <- _; now left.
  - unfold voiceChat in H. destruct (active_tag sid w) as [[c r]|];
      injection H as <- _; now left.
  - unfold voiceChat in H. destruct (active_tag sid w) as [[c r]|];
      injection H as <- _; now left.
Qed.

(** A connection without a tag stays without one until it joins or creates
    a room itself. *)
Lemma step_keeps_untagged fuel sid e w w' out :
  assoc_get sid (roomCodes w) = None ->
  no_entry_by sid e ->
  step rnd fuel w e = Done (w', out) ->
  assoc_get sid (roomCodes w') = None.
Proof.
  intros Htag Hno. destruct e as [sid' now a|now|]; cbn [step].
  - destruct (set_has sid' (closed w)); [now intros [= <- _]|].
    intros H. apply handle_roomCodes in H.
    destruct H as [->|[(Ha & c & ->)| ->]].
    + assumption.
    + rewrite assoc_get_set_other; [assumption|].
      destruct a; try contradiction; cbn in Hno; congruence.
    + rewrite assoc_get_delete. now destruct (String.eqb sid' sid).
  - rewrite sweep_eq. intros [= <- _].
    destruct (destroy_all_frame (expired_codes now (rooms w)) w)
      as (_ & _ & E & _).
    now rewrite E.
  - intros H. break_outcome H. destruct a as [code w1]. injection H as <- _.
    apply generateUniqueRoomCode_spec in E. destruct E as (_ & (n & ->) & _).
    assumption.
Qed.

Lemma run_keeps_untagged fuel sid es :
  forall w w' out,
    assoc_get sid (roomCodes w) = None ->
    Forall (no_entry_by sid) es ->
    run rnd fuel w es = Done (w', out) ->
    assoc_get sid (roomCodes w') = None.
Proof.
  induction es as [|e es IH]; intros w w' out Htag Hall; cbn [run].
  - now intros [= <- _].
  - intros H. break_outcome H. break_outcome H. injection H as <- _.
    destruct a as [w1 o1], a0 as [w2 o2]. cbn [fst snd] in *.
    inversion Hall as [|? ? He Hes]; subst.
    apply (IH w1 w2 o2); [|assumption..].
    exact (step_keeps_untagged fuel sid e w w1 o1 Htag He E).
Qed.

End Tags.

(** X15.  [leaveRoom] detaches the caller until it enters a room again:
    after a listed participant has left its tagged room with [leaveRoom],
    and whatever events of any connection follow, as long as none of them is
    a [joinRoom] or a [createRoom] of that connection, the connection carries
    no room tag; each of its events other than [joinRoom] and [createRoom]
    that completes leaves the rooms, the used codes and the ledger as they
    are and emits nothing, or nothing but the not-in-room error with which
    [sendMessage] answers the caller; and each of them does complete, but
    for a [sendMessage] without a payload. *)
Theorem leaveRoom_detaches_the_caller
        rnd fuel0 es w out0 fuel sid now c room i user w1 out1
        fuel1 later w2 out2 :
  run rnd fuel0 init es = Done (w, out0) ->
  set_has sid (closed w) = false ->
  departing sid w c room i user ->
  step rnd fuel w (FromSocket sid now ALeaveRoom) = Done (w1, out1) ->
  run rnd fuel1 w1 later = Done (w2, out2) ->
  Forall (no_entry_by sid) later ->
  assoc_get sid (roomCodes w2) = None
  /\ (forall fuel2 now' a w3 out3,
         match a with AJoinRoom _ | ACreateRoom _ => False | _ => True end ->
         step rnd fuel2 w2 (FromSocket sid now' a) = Done (w3, out3) ->
         rooms w3 = rooms w2
         /\ usedCodes w3 = usedCodes w2
         /\ userSessions w3 = userSessions w2
         /\ usernameSessions w3 = usernameSessions w2
         /\ (out3 = [] \/ out3 = [Deliver sid (EError msgNotInRoom)]))
  /\ (forall fuel2 now' a,
         match a with
         | AJoinRoom _ | ACreateRoom _ => False
         | ASendMessage data => present data = true
         | _ => True
         end ->
         exists w3 out3,
           step rnd fuel2 w2 (FromSocket sid now' a) = Done (w3, out3)).
Proof.
  intros Hrun Hopen Hd H1 Hlater Hall.
  assert (HI : Inv w).
  { eapply reachable_Inv, run_reachable; [apply reach_init|exact Hrun]. }
  cbn [step] in H1. rewrite Hopen in H1.
  destruct (departure_effects rnd fuel sid now ALeaveRoom w c room i user
              HI (or_introl eq_refl) Hd)
    as (w' & out & E & _ & _ & _ & Htag).
  rewrite E in H1. injection H1 as <- <-.
  destruct (Htag eq_refl) as [Htag1 _].
  pose proof (run_keeps_untagged rnd fuel1 sid later w' w2 out2 Htag1 Hall Hlater)
    as Htag2.
  split; [exact Htag2|]. split.
  - intros fuel2 now' a w3 out3 Ha H3. cbn [step] in H3.
    destruct (set_has sid (closed w2)); [injection H3 as <- <-; auto 10|].
    exact (untagged_is_inert rnd fuel2 sid now' a w2 w3 out3 Htag2 Ha H3).
  - intros fuel2 now' a Ha. cbn [step].
    destruct (set_has sid (closed w2)); [eauto|].
    exact (untagged_completes rnd fuel2 sid now' a w2 Htag2 Ha).
Qed.

Lemma leaveRoom_detaches_the_caller_witness :
  rooms (world_after zeros 0
           (bob_leaves
            ++ [FromSocket "A" 3 (ASendMessage (text_payload "anyone?"));
                FromSocket "B" 4 (ASendMessage (text_payload "hi"))]))
  = rooms (world_after zeros 0
             (bob_leaves
              ++ [FromSocket "A" 3 (ASendMessage (text_payload "anyone?"))]))
  /\ (skipn 6 (output_after zeros 0
                 (bob_leaves
                  ++ [FromSocket "A" 3 (ASendMessage (text_payload "anyone?"));
                      FromSocket "B" 4 (ASendMessage (text_payload "hi"))]))
      = []
      \/ skipn 6 (output_after zeros 0
                    (bob_leaves
                     ++ [FromSocket "A" 3 (ASendMessage (text_payload "anyone?"));
                         FromSocket "B" 4 (ASendMessage (text_payload "hi"))]))
         = [Deliver "B" (EError msgNotInRoom)])
  /\ exists w3 out3,
       step zeros 0
            (world_after zeros 0
               (bob_leaves
                ++ [FromSocket "A" 3 (ASendMessage (text_payload "anyone?"))]))
            (FromSocket "B" 4 (ATyping JS.Undefined))
       = Done (w3, out3).
Proof.
  assert (R : run zeros 0 init two_in_a_room
              = Done (world_after zeros 0 two_in_a_room,
                      output_after zeros 0 two_in_a_room))
    by (vm_compute; reflexivity).
  assert (D : departing "B" (world_after zeros 0 two_in_a_room) "0000"
                (mkRoom [mkUser "A" (JS.Str "Ann") 0; mkUser "B" (JS.Str "Bob") 1]
                        [] 0 600001 1 None)
                1 (mkUser "B" (JS.Str "Bob") 1)).
  { unfold departing. split; [vm_compute; reflexivity|].
    split; vm_compute; reflexivity. }
  assert (F : Forall (no_entry_by "B")
                [FromSocket "A" 3 (ASendMessage (text_payload "anyone?"))]).
  { constructor; [exact I|constructor]. }
  destruct (leaveRoom_detaches_the_caller zeros 0 two_in_a_room _ _ 0 "B" 2%Z
              "0000" _ 1 (mkUser "B" (JS.Str "Bob") 1)
              (world_after zeros 0 bob_leaves)
              (skipn 3 (output_after zeros 0 bob_leaves))
              0 [FromSocket "A" 3 (ASendMessage (text_payload "anyone?"))]
              (world_after zeros 0
                 (bob_leaves
                  ++ [FromSocket "A" 3 (ASendMessage (text_payload "anyone?"))]))
              (skipn 5 (output_after zeros 0
                 (bob_leaves
                  ++ [FromSocket "A" 3 (ASendMessage (text_payload "anyone?"))])))
              R ltac:(vm_compute; reflexivity) D ltac:(vm_compute; reflexivity)
              ltac:(vm_compute; reflexivity) F)
    as (_ & Hinert & Hcompletes).
  destruct (Hinert 0 (steady 4) (ASendMessage (text_payload "hi"))
              (world_after zeros 0
                 (bob_leaves
                  ++ [FromSocket "A" 3 (ASendMessage (text_payload "anyone?"));
                      FromSocket "B" 4 (ASendMessage (text_payload "hi"))]))
              (skipn 6 (output_after zeros 0
                 (bob_leaves
                  ++ [FromSocket "A" 3 (ASendMessage (text_payload "anyone?"));
                      FromSocket "B" 4 (ASendMessage (text_payload "hi"))])))
              I ltac:(vm_compute; reflexivity))
    as (Hr & _ & _ & _ & Ho).
  split; [exact Hr|]. split; [exact Ho|].
  exact (Hcompletes 0 (steady 4) (ATyping JS.Undefined) I).
Defined.

(* ------------------------------------------------------------------ *)
(** ** The typing indicator and the allocation endpoint *)

(** X16.  A [typing] event of a connection that carries a room tag changes
    nothing in the state; the name and the flag of its payload, as they came,
    go exactly once to every other member of the group of the tagged code,
    among them every other listed participant of the room whose connection is
    open, and to nobody else: not to the caller, not to a connection outside
    the group. *)
Theorem typing_is_relayed
        rnd fuel0 es w out0 fuel sid now data c name flag :
  run rnd fuel0 init es = Done (w, out0) ->
  set_has sid (closed w) = false ->
  assoc_get sid (roomCodes w) = Some c ->
  JS.get data "username" = Done name ->
  JS.get data "isTyping" = Done flag ->
  exists out,
    step rnd fuel w (FromSocket sid now (ATyping data)) = Done (w, out)
    /\ received sid out = []
    /\ (forall p, p <> sid -> In (p, c) (joined w) ->
                  received p out = [EUserTyping name flag])
    /\ (forall p, ~ In (p, c) (joined w) -> received p out = [])
    /\ (forall room q,
           assoc_get c (rooms w) = Some room ->
           In q (users room) -> socketId q <> sid ->
           set_has (socketId q) (closed w) = false ->
           received (socketId q) out = [EUserTyping name flag]).
Proof.
  intros Hrun Hopen Htag Hname Hflag.
  assert (HI : Inv w).
  { eapply reachable_Inv, run_reachable; [apply reach_init|exact Hrun]. }
  assert (Hc : String.eqb c "" = false).
  { pose proof (inv_tags _ HI sid c Htag) as H.
    destruct c; [vm_compute in H; discriminate|reflexivity]. }
  cbn [step handle]. rewrite Hopen. unfold typing.
  rewrite Htag, Hc, Hname, Hflag. cbn [bind].
  eexists. split; [reflexivity|].
  assert (Hin : forall p, p <> sid -> In (p, c) (joined w) ->
                received p (socket_to sid c (EUserTyping name flag) w)
                = [EUserTyping name flag]).
  { intros p Hp Hj. apply received_socket_to_other; [|assumption..].
    apply (inv_joined _ HI). }
  split; [apply received_socket_to_self|]. split; [exact Hin|]. split.
  - intros p Hp. unfold socket_to. apply received_broadcast_out.
    rewrite filter_In, In_group. tauto.
  - intros room q Hroom Hq Hne Hq_open. apply Hin; [assumption|].
    destruct (inv_rooms _ HI c room Hroom) as (_ & _ & _ & _ & Hall).
    rewrite Forall_forall in Hall. destruct (Hall q Hq) as (_ & _ & H). auto.
Qed.

Lemma typing_is_relayed_witness :
  exists out,
    step zeros 0 (world_after zeros 0 two_in_a_room)
      (FromSocket "B" 5 (ATyping typing_payload))
    = Done (world_after zeros 0 two_in_a_room, out)
    /\ received "B" out = []
    /\ received "A" out = [EUserTyping (JS.Str "Bob") (JS.Boolean true)].
Proof.
  assert (R : run zeros 0 init two_in_a_room
              = Done (world_after zeros 0 two_in_a_room,
                      output_after zeros 0 two_in_a_room))
    by (vm_compute; reflexivity).
  destruct (typing_is_relayed zeros 0 two_in_a_room _ _ 0 "B" 5%Z typing_payload
              "0000" (JS.Str "Bob") (JS.Boolean true)
              R ltac:(vm_compute; reflexivity) ltac:(vm_compute; reflexivity)
              ltac:(vm_compute; reflexivity) ltac:(vm_compute; reflexivity))
    as (out & Hstep & Hself & Hin & _).
  exists out. split; [exact Hstep|]. split; [exact Hself|].
  apply Hin; [discriminate|]. vm_compute. auto.
Defined.

(** X17.  In every reachable state [GET /generateRoomCode] answers as soon
    as one of the draws of the allocator after the first [maxAttempts]
    misses the room store.  When it answers, it does so with one 4-digit
    code, which it reserves, and it does nothing else: no room is created,
    the rooms, the ledger, the tags and the groups stay as they were, and no
    room backs the code it returns, so that a [joinRoom] with that code right
    after is answered with the room-not-found error and changes nothing. *)
Theorem generateRoomCode_reserves_without_a_room rnd fuel0 es w out0 fuel :
  run rnd fuel0 init es = Done (w, out0) ->
  (forall i,
      i < fuel ->
      assoc_has (code_of (rnd (cursor w + maxAttempts + i))) (rooms w) = false ->
      exists w' out, step rnd fuel w GetGenerateRoomCode = Done (w', out))
  /\ (forall w' out,
         step rnd fuel w GetGenerateRoomCode = Done (w', out) ->
         exists code,
           out = [HttpJson code]
           /\ JS.test_4digits code = true
           /\ set_has code (usedCodes w') = true
           /\ rooms w' = rooms w
           /\ assoc_get code (rooms w') = None
           /\ userSessions w' = userSessions w
           /\ usernameSessions w' = usernameSessions w
           /\ roomCodes w' = roomCodes w
           /\ joined w' = joined w
           /\ (forall x, set_has x (usedCodes w) = true ->
                         set_has x (usedCodes w') = true)
           /\ (forall sid now data,
                  JS.get data "code" = Done (JS.Str code) ->
                  joinRoom rnd sid now data w'
                  = Done (w', [Deliver sid (EError msgRoomNotFound)]))).
Proof.
  intros Hrun.
  assert (HI : Inv w).
  { eapply reachable_Inv, run_reachable; [apply reach_init|exact Hrun]. }
  split.
  { intros i Hi Hfree. cbn [step].
    destruct (generateUniqueRoomCode_total rnd fuel w i Hi Hfree)
      as (code & w1 & ->).
    cbn [bind]. eauto. }
  intros w' out H.
  cbn [step] in H. break_outcome H. destruct a as [code w1].
  cbn [fst snd] in H. injection H as <- <-.
  pose proof E as Hgen. apply generateUniqueRoomCode_spec in Hgen.
  destruct Hgen as (Hd & (n & ->) & Hfresh).
  assert (Hnone : assoc_get code (rooms w) = None).
  { destruct Hfresh as [Hf|Hf]; [|assumption].
    destruct (assoc_get code (rooms w)) as [room|] eqn:Hroom; [|reflexivity].
    destruct (inv_rooms _ HI code room Hroom) as (_ & Hused & _).
    apply set_has_false in Hf. contradiction. }
  exists code. cbn.
  split; [reflexivity|]. split; [assumption|].
  split; [apply set_has_In, In_set_add; now left|].
  split; [reflexivity|]. split; [assumption|].
  split; [reflexivity|]. split; [reflexivity|]. split; [reflexivity|].
  split; [reflexivity|]. split.
  - intros x Hx. apply set_has_In, In_set_add. right. now apply set_has_In.
  - intros sid now data Hcode.
    destruct (get_Done_any _ _ _ "username" Hcode) as [name Hname].
    unfold joinRoom, reply. rewrite Hcode, Hname. cbn [bind JS.to_string].
    rewrite Hd. cbn [negb rooms set_usedCodes set_cursor]. rewrite Hnone.
    reflexivity.
Qed.

Lemma generateRoomCode_reserves_without_a_room_witness :
  exists w' out code,
    step counting 1 (world_after counting 0 two_in_a_room) GetGenerateRoomCode
    = Done (w', out)
    /\ out = [HttpJson code]
    /\ assoc_get code (rooms w') = None.
Proof.
  assert (R : run counting 0 init two_in_a_room
              = Done (world_after counting 0 two_in_a_room,
                      output_after counting 0 two_in_a_room))
    by (vm_compute; reflexivity).
  destruct (generateRoomCode_reserves_without_a_room
              counting 0 two_in_a_room _ _ 1 R) as [Hanswers Heffects].
  destruct (Hanswers 0 ltac:(lia) ltac:(vm_compute; reflexivity))
    as (w' & out & Hstep).
  destruct (Heffects w' out Hstep) as (code & Hout & _ & _ & _ & Hnone & _).
  exists w', out, code. auto.
Defined.

(* ------------------------------------------------------------------ *)
(** ** The deadline and the last activity *)

Section Deadlines.
Variable rnd : nat -> N.

Lemma run_keeps_deadline_after_activity fuel es :
  forall w0 w out,
    reachable rnd w0 ->
    (forall c r, assoc_get c (rooms w0) = Some r ->
                 (lastActivity r + ROOM_EXPIRY_TIME <= expiresAt r)%Z) ->
    Forall clock_goes_forward es ->
    run rnd fuel w0 es = Done (w, out) ->
    forall c r, assoc_get c (rooms w) = Some r ->
                (lastActivity r + ROOM_EXPIRY_TIME <= expiresAt r)%Z.
Proof.
  induction es as [|e es IH]; intros w0 w out Hw0 H0 Hall; cbn [run].
  - now intros [= <- _].
  - intros H. break_outcome H. break_outcome H. injection H as <- _.
    destruct a as [w1 o1], a0 as [w2 o2]. cbn [fst snd] in *.
    inversion Hall as [|? ? He Hes]; subst.
    apply (IH w1 w2 o2); [eapply reach_step; eassumption| |exact Hes|exact E0].
    intros c r' Hr'.
    destruct (step_room_cases rnd fuel e w0 w1 o1 c r'
                (reachable_Inv rnd w0 Hw0) E Hr')
      as [Hsame|[(sid & now & a & r & -> & Hr & Hch)
                |(sid & now & a & name & -> & _ & _ & ->)]].
    + now apply (H0 c).
    + cbn [clock_goes_forward] in He. pose proof (H0 c r Hr) as Hold.
      destruct Hch as [u _ _ _ ->|m user text _ _ ->|i _ _ ->|b ->]; cbn.
      * pose proof (He 1 2 ltac:(lia)). lia.
      * pose proof (He 2 3 ltac:(lia)). lia.
      * exact Hold.
      * exact Hold.
    + cbn [clock_goes_forward] in He. cbn.
      pose proof (He 4 5 ltac:(lia)). lia.
Qed.

End Deadlines.

(** X18.  After every run in which no clock goes back while a handler
    runs, the deadline of every room lies at least [ROOM_EXPIRY_TIME] after
    its last recorded activity: creation, join and message write the two
    fields from two successive readings of [Date.now()], and no other
    handler writes either. *)
Theorem deadline_follows_last_activity rnd fuel es w out :
  run rnd fuel init es = Done (w, out) ->
  Forall clock_goes_forward es ->
  forall c room,
    assoc_get c (rooms w) = Some room ->
    (lastActivity room + ROOM_EXPIRY_TIME <= expiresAt room)%Z.
Proof.
  intros Hrun Hall.
  apply (run_keeps_deadline_after_activity rnd fuel es init w out);
    [apply reach_init|discriminate|exact Hall|exact Hrun].
Qed.

Lemma deadline_follows_last_activity_witness :
  assoc_get "0000"
    (rooms (world_after zeros 0
              [FromSocket "A" (ticking 10) (ACreateRoom (named "Ann"))]))
  = Some (mkRoom [mkUser "A" (JS.Str "Ann") 13] [] 10 600015 14 None)
  /\ (14 + ROOM_EXPIRY_TIME <= 600015)%Z.
Proof.
  assert (R : run zeros 0 init
                [FromSocket "A" (ticking 10) (ACreateRoom (named "Ann"))]
              = Done (world_after zeros 0
                        [FromSocket "A" (ticking 10) (ACreateRoom (named "Ann"))],
                      output_after zeros 0
                        [FromSocket "A" (ticking 10) (ACreateRoom (named "Ann"))]))
    by (vm_compute; reflexivity).
  assert (E : assoc_get "0000"
                (rooms (world_after zeros 0
                          [FromSocket "A" (ticking 10) (ACreateRoom (named "Ann"))]))
              = Some (mkRoom [mkUser "A" (JS.Str "Ann") 13] [] 10 600015 14 None))
    by (vm_compute; reflexivity).
  assert (F : Forall clock_goes_forward
                [FromSocket "A" (ticking 10) (ACreateRoom (named "Ann"))]).
  { constructor; [|constructor]. intros i j Hij.
    unfold ticking. cbn [reading]. lia. }
  split; [exact E|].
  exact (deadline_follows_last_activity zeros 0 _ _ _ R F "0000" _ E).
Defined.
